(** * factory-di: a shallow embedding of the resolution pipeline

    The development follows the source tree of the repository:

    - [src/helpers/errorHelper.js]   ([buildErrorWithStack])
    - [src/helpers/historyHelper.js] ([addToHistory])
    - [src/runner.js]                ([runFactory])
    - [src/resolver.js]              ([resolveFactory], [dependencyInjectFactory], ...)
    - [src/injector.js]              ([parseFactoryInject], ...)
    - [src/registration.js]          ([registerFactory], [validateFactory])
    - [src/index.js]                 ([register], [resolve], ...)

    JavaScript objects used as maps ([registered], [singletons], the merged
    resolve arguments, the table of placeholders) are finite maps of their own
    properties, keyed by strings; a read [object[key]] that finds no own
    property goes on to [Object.prototype] ([inheritedMember]).  Thrown
    errors, the console and the execution of factory bodies are collected in a
    small writer/error monad [M].  What the functions the library did not
    create do is a parameter ([body]): the bodies of the user's functions are
    pure and total, the functions of the engine return or throw.  Function
    objects are values: a decorator written on a function is written on the
    copy at hand (see [registerFactory]).  Strings are ASCII text, numbers are
    integers. *)

From Stdlib Require Import ZArith String Ascii List Bool Lia.
From stdpp Require Import base option gmap strings list pretty.

(** ** JavaScript values *)

(** An injection request (typedef [InjectionRequest] of injector.js).  A flag
    that is absent on the JavaScript object reads as [false]. *)
Record InjectionRequest := {
  name : string;
  isOptional : bool;
  asFactory : bool;
  isPlaceholder : bool;
}.

(** One element of a [$inject] array as the user wrote it: a pre-built request
    object, a string specifier, or anything else. *)
Inductive injectSpec :=
| SpecRequest (r : InjectionRequest)
| SpecString (s : string)
| SpecOther.

(** The [$inject] decorator: falsy, the literal [true], an array, or any other
    truthy value. *)
Inductive injectDecl :=
| InjectUnset
| InjectTrue
| InjectList (l : list injectSpec)
| InjectOther.

(** The [$placeholders] decorator: falsy, an array (whose elements are strings,
    [Some s], or not, [None]), or any other truthy value. *)
Inductive placeholdersDecl :=
| PlaceholdersUnset
| PlaceholdersList (l : list (option string))
| PlaceholdersOther.

(** Values, decorated function objects, and what calling them does.
    Numbers are restricted to integers.  [VPlaceholder] is the object
    [lodashPartial.placeholder].  [VFun] holds an object that can carry the
    decorators: a function, or, with [ObjectPrototype] for what it calls, the
    object [Object.prototype], which is not a function. *)
#[warnings="-register-all"]
Inductive value : Type :=
| VUndefined
| VNull
| VBool (b : bool)
| VNum (n : Z)
| VStr (s : string)
| VObj (props : list (string * value))
| VPlaceholder
| VFun (f : DecoratedFactory)
with DecoratedFactory : Type :=
| Factory (call : callable)
          (_inject : injectDecl)
          (_placeholders : placeholdersDecl)
          (_singleton : bool)
          (_filename : value)
          (__registerSourceFile : value)
          (__placeholderArgs : option (list InjectionRequest))
          (__isUndefined : bool)
          (__isSingleton : bool)
with callable : Type :=
| UserFn (id : nat) (src : string)
    (* a function written by the user; [src] is its source text *)
| ItemFn (factoryOrItem : value)
    (* [function itemFactory() { return factoryOrItem; }] of index.js *)
| SingletonFn (resolvedSingleton : value)
    (* [function singletonFactory() { return resolvedSingleton; }] *)
| UndefinedFn
    (* [function undefinedFactory() { return undefined; }] *)
| Partial (func : DecoratedFactory) (partials : list value)
    (* [lodashPartial(func, ...partials)] *)
| BuiltinFn (member : string)
    (* the function of the engine that [Object.prototype] holds under the
       name [member] ([Object] under [constructor]) *)
| ObjectPrototype.
    (* not callable: the object [Object.prototype] itself *)

Definition call (f : DecoratedFactory) : callable :=
  let '(Factory c _ _ _ _ _ _ _ _) := f in c.
Definition _inject (f : DecoratedFactory) : injectDecl :=
  let '(Factory _ i _ _ _ _ _ _ _) := f in i.
Definition _placeholders (f : DecoratedFactory) : placeholdersDecl :=
  let '(Factory _ _ p _ _ _ _ _ _) := f in p.
Definition _singleton (f : DecoratedFactory) : bool :=
  let '(Factory _ _ _ s _ _ _ _ _) := f in s.
Definition _filename (f : DecoratedFactory) : value :=
  let '(Factory _ _ _ _ fn _ _ _ _) := f in fn.
Definition __registerSourceFile (f : DecoratedFactory) : value :=
  let '(Factory _ _ _ _ _ r _ _ _) := f in r.
Definition __placeholderArgs (f : DecoratedFactory) : option (list InjectionRequest) :=
  let '(Factory _ _ _ _ _ _ p _ _) := f in p.
Definition __isUndefined (f : DecoratedFactory) : bool :=
  let '(Factory _ _ _ _ _ _ _ u _) := f in u.
Definition __isSingleton (f : DecoratedFactory) : bool :=
  let '(Factory _ _ _ _ _ _ _ _ s) := f in s.

(** A fresh function object: no decorator set. *)
Definition plainFunction (c : callable) : DecoratedFactory :=
  Factory c InjectUnset PlaceholdersUnset false VUndefined VUndefined None false false.

(** Property assignments [factory.$x = v]. *)
Definition set_inject (i : injectDecl) (f : DecoratedFactory) : DecoratedFactory :=
  let '(Factory c _ p s fn r pa u sg) := f in Factory c i p s fn r pa u sg.
Definition set_singleton (s : bool) (f : DecoratedFactory) : DecoratedFactory :=
  let '(Factory c i p _ fn r pa u sg) := f in Factory c i p s fn r pa u sg.
Definition set_filename (fn : value) (f : DecoratedFactory) : DecoratedFactory :=
  let '(Factory c i p s _ r pa u sg) := f in Factory c i p s fn r pa u sg.
Definition set_registerSourceFile (r : value) (f : DecoratedFactory) : DecoratedFactory :=
  let '(Factory c i p s fn _ pa u sg) := f in Factory c i p s fn r pa u sg.
Definition set_placeholderArgs (pa : option (list InjectionRequest)) (f : DecoratedFactory) : DecoratedFactory :=
  let '(Factory c i p s fn r _ u sg) := f in Factory c i p s fn r pa u sg.
Definition set_isUndefined (u : bool) (f : DecoratedFactory) : DecoratedFactory :=
  let '(Factory c i p s fn r pa _ sg) := f in Factory c i p s fn r pa u sg.
Definition set_isSingleton (sg : bool) (f : DecoratedFactory) : DecoratedFactory :=
  let '(Factory c i p s fn r pa u _) := f in Factory c i p s fn r pa u sg.

(** JavaScript truthiness. *)
Definition truthy (v : value) : bool :=
  match v with
  | VUndefined | VNull => false
  | VBool b => b
  | VNum n => negb (n =? 0)%Z
  | VStr s => negb (String.eqb s "")
  | VObj _ | VPlaceholder | VFun _ => true
  end.

(** [a || b]. *)
Definition js_or (a b : value) : value := if truthy a then a else b.

(** [typeof v === 'function'] and [typeof v === 'string']. *)
Definition isFunction (v : value) : bool :=
  match v with
  | VFun f => match call f with ObjectPrototype => false | _ => true end
  | _ => false
  end.
Definition isString (v : value) : bool :=
  match v with VStr _ => true | _ => false end.

(** [v !== undefined]. *)
Definition isDefined (v : value) : bool :=
  match v with VUndefined => false | _ => true end.

Fixpoint assoc (k : string) (props : list (string * value)) : option value :=
  match props with
  | [] => None
  | (k', v) :: rest => if String.eqb k k' then Some v else assoc k rest
  end.

(** Property read [v.k] on a non-function value; a missing property and a
    property of a primitive read as [undefined]. *)
Definition getProp (v : value) (k : string) : value :=
  match v with
  | VObj props => default VUndefined (assoc k props)
  | _ => VUndefined
  end.

(** *** Properties inherited from [Object.prototype] *)

(** The names under which [Object.prototype] holds a function. *)
Definition objectPrototypeFunctions : list string :=
  ["constructor"; "__defineGetter__"; "__defineSetter__"; "hasOwnProperty";
   "__lookupGetter__"; "__lookupSetter__"; "isPrototypeOf";
   "propertyIsEnumerable"; "toString"; "valueOf"; "toLocaleString"].

(** What a plain object yields under [k] when it has no own property [k]:
    the functions of [Object.prototype], and under [__proto__] the prototype
    itself. *)
Definition inheritedMember (k : string) : option DecoratedFactory :=
  if String.eqb k "__proto__" then Some (plainFunction ObjectPrototype)
  else if existsb (String.eqb k) objectPrototypeFunctions
       then Some (plainFunction (BuiltinFn k))
       else None.

(** [object[key]] on a plain object used as a map from names to values. *)
Definition jsLookup (m : gmap string value) (k : string) : value :=
  match m !! k with
  | Some v => v
  | None => from_option VFun VUndefined (inheritedMember k)
  end.

(** [object[key]] on a plain object used as a map from names to factories. *)
Definition lookupFactory (m : gmap string DecoratedFactory) (k : string)
    : option DecoratedFactory :=
  match m !! k with
  | Some f => Some f
  | None => inheritedMember k
  end.

#[global] Arguments lookupFactory : simpl never.
#[global] Arguments jsLookup : simpl never.
#[global] Arguments inheritedMember : simpl never.

Definition newline : string := String "010"%char EmptyString.

(** Source text of the functions this library creates itself, and of the
    wrapper lodash creates (of which only the empty parameter list matters). *)
Definition itemFactorySource : string :=
  "function itemFactory() {" +:+ newline
  +:+ "        return factoryOrItem;" +:+ newline
  +:+ "      }".
Definition singletonFactorySource : string :=
  "function singletonFactory() {" +:+ newline
  +:+ "    return resolvedSingleton;" +:+ newline
  +:+ "  }".
Definition undefinedFactorySource : string :=
  "function undefinedFactory() {" +:+ newline
  +:+ "    return undefined;" +:+ newline
  +:+ "  }".

(** The text before the first [c], and the text after it when [c] occurs. *)
Fixpoint spanUntil (c : ascii) (s : string) : string * option string :=
  match s with
  | EmptyString => (EmptyString, None)
  | String a s' =>
      if Ascii.eqb a c then (EmptyString, Some s')
      else let '(before, after) := spanUntil c s' in (String a before, after)
  end.

(** The text lodash gives the wrapper of a function whose text is [source]:
    the comment of the wrapper is put after the first opening brace, in the
    place of a line break that follows it.  (A [source] that carries such a
    comment already is not modelled.) *)
Definition partialWrapperSource (source : string) : string :=
  match spanUntil "{"%char source with
  | (before, Some after) =>
      before +:+ "{" +:+ newline +:+ "/* [wrapped with _.partial] */" +:+ newline
      +:+ match after with
          | String a after' => if Ascii.eqb a "010"%char then after' else after
          | EmptyString => after
          end
  | (_, None) => source
  end.

(** [factory.toString()]; the wrapper of a wrapper is a wrapper of the
    function inside. *)
Fixpoint functionSource (f : DecoratedFactory) : string :=
  match f with
  | Factory c _ _ _ _ _ _ _ _ =>
      match c with
      | UserFn _ src => src
      | ItemFn _ => itemFactorySource
      | SingletonFn _ => singletonFactorySource
      | UndefinedFn => undefinedFactorySource
      | Partial func _ => functionSource func
      | BuiltinFn member =>
          "function " +:+ (if String.eqb member "constructor" then "Object" else member)
          +:+ "() { [native code] }"
      | ObjectPrototype => "[object Object]"
      end
  end.

Definition functionToString (f : DecoratedFactory) : string :=
  match call f with
  | Partial func _ => partialWrapperSource (functionSource func)
  | _ => functionSource f
  end.

(** String conversion inside a template literal. *)
Definition toDisplayString (v : value) : string :=
  match v with
  | VUndefined => "undefined"
  | VNull => "null"
  | VBool true => "true"
  | VBool false => "false"
  | VNum n => pretty n
  | VStr s => s
  | VObj _ | VPlaceholder => "[object Object]"
  | VFun f => functionToString f
  end.

(** ** Effects: thrown errors, the console, executed factory bodies *)

(** The [stack] property of an [Error]: the text the engine produced, or the
    text [buildErrorWithStack] wrote over it, to which the engine's text may
    have been appended under the heading [Code Stack]. *)
Inductive StackText :=
| EngineStack
| HistoryStack (text : string) (includeCodeStack : bool).

(** An [Error] object; [addToStack] is the marker property the injector sets
    on its template errors. *)
Record JsError := {
  message : string;
  stack : StackText;
  addToStack : bool;
}.

(** [new Error(message)] *)
Definition newError (message : string) : JsError :=
  {| message := message; stack := EngineStack; addToStack := false |}.

Inductive event :=
| Invoked (c : callable)      (* the body of a user or item function ran *)
| ConsoleLog (msg : string).  (* [console.log(msg)] *)

Inductive outcome (A : Type) :=
| Ok (a : A)
| Throw (e : JsError)
| OutOfFuel.
Arguments Ok {A} a.
Arguments Throw {A} e.
Arguments OutOfFuel {A}.

(** A computation yields the events it caused, in order, and its outcome. *)
Definition M (A : Type) : Type := list event * outcome A.

Definition ret {A} (a : A) : M A := ([], Ok a).
Definition throw {A} (e : JsError) : M A := ([], Throw e).
Definition emit (ev : event) : M unit := ([ev], Ok tt).
Definition outOfFuel {A} : M A := ([], OutOfFuel).

Definition bind {A B} (m : M A) (k : A → M B) : M B :=
  match m with
  | (evs, Ok a) => let '(evs', r) := k a in (evs ++ evs', r)
  | (evs, Throw e) => (evs, Throw e)
  | (evs, OutOfFuel) => (evs, OutOfFuel)
  end.

#[global] Instance M_ret : MRet M := @ret.
#[global] Instance M_bind : MBind M := λ A B k m, bind m k.

(** [try { m } catch (e) { handler e }]. *)
Definition tryCatch {A} (m : M A) (handler : JsError → M A) : M A :=
  match m with
  | (evs, Throw e) => let '(evs', r) := handler e in (evs ++ evs', r)
  | other => other
  end.

Definition events {A} (m : M A) : list event := fst m.
Definition result {A} (m : M A) : outcome A := snd m.

(** ** src/helpers/historyHelper.js *)

Record HistoryRecord := {
  record_name : string;
  filepath : value;
  registerSource : value;
  notFound : bool;
}.

(** [addToHistory(history, itemName, resolvedFactory)]; the callers pass either
    a factory or the empty object [{}], which is [None] here. *)
Definition addToHistory (history : list HistoryRecord) (itemName : string)
    (resolvedFactory : option DecoratedFactory) : list HistoryRecord :=
  let newRecord := {|
    record_name := itemName;
    filepath := js_or (from_option _filename VUndefined resolvedFactory) VNull;
    registerSource := js_or (from_option __registerSourceFile VUndefined resolvedFactory) VNull;
    notFound := from_option __isUndefined false resolvedFactory;
  |} in
  history ++ [newRecord].

(** ** src/helpers/errorHelper.js *)

Definition stackFrame (item : HistoryRecord) : string :=
  newline +:+ "    at " +:+ record_name item
    +:+ " (" +:+ toDisplayString (js_or (filepath item) (VStr "?")) +:+ ")"
  +:+ newline +:+ "        registered in ["
    +:+ toDisplayString (js_or (registerSource item) (VStr "?")) +:+ "]".

(** [buildErrorWithStack(message, history, includeCodeStack)] for a string
    message. *)
Definition buildErrorWithStack (messageOrError : string)
    (history : list HistoryRecord) (includeCodeStack : bool) : JsError :=
  let previous := rev history in
  {| message := messageOrError;
     stack := HistoryStack
                (fold_left (λ errorStack item, errorStack +:+ stackFrame item)
                   previous
                   (if String.eqb messageOrError "" then "Error" else messageOrError))
                includeCodeStack;
     addToStack := false |}.

(** ** src/runner.js *)

(** The resolve arguments: item name (or [common]) to placeholder name to
    value. *)
Abbreviation ResolveArgs := (gmap string (gmap string value)).

(** Arguments a lodash partial wrapper passes on: the holes among [partials]
    are filled from [args] left to right, a hole with no argument left becomes
    [undefined], and the remaining arguments are appended. *)
Fixpoint composeArgs (partials args : list value) : list value :=
  match partials with
  | [] => args
  | VPlaceholder :: partials' =>
      match args with
      | a :: args' => a :: composeArgs partials' args'
      | [] => VUndefined :: composeArgs partials' []
      end
  | p :: partials' => p :: composeArgs partials' args
  end.

(** What the functions that the library did not create do: [body id args]
    is what the body of the user function [id] returns on the arguments
    [args]; [builtinResult body member args] is what the function of the
    engine held under [member] returns or throws. *)
Record Bodies := {
  userBody :> nat → list value → value;
  builtinResult : string → list value → value + JsError;
}.

Section Bodies.

Variable body : Bodies.

(** [factory.apply(this, args)]. *)
Fixpoint applyFactory (f : DecoratedFactory) (args : list value) : M value :=
  match f with
  | Factory c _ _ _ _ _ _ _ _ =>
      match c with
      | UserFn id _ => _ ← emit (Invoked c); mret (body id args)
      | ItemFn factoryOrItem => _ ← emit (Invoked c); mret factoryOrItem
      | SingletonFn resolvedSingleton => mret resolvedSingleton
      | UndefinedFn => mret VUndefined
      | Partial func partials => applyFactory func (composeArgs partials args)
      | BuiltinFn member =>
          _ ← emit (Invoked c);
          match builtinResult body member args with
          | inl v => mret v
          | inr e => throw e
          end
      | ObjectPrototype => throw (newError "factory.apply is not a function")
      end
  end.

Definition runErrorMessage (itemName name : string) : string :=
  "FactoryDI Run Error: Could not resolve instance of '" +:+ itemName +:+ "' because"
  +:+ " it requires a value for the non-injected '" +:+ name +:+ "' argument.".

(** [{...argsForAllFactories, ...argsForThisFactory}] *)
Definition usableArgsOf (resolveArgs : option ResolveArgs) (itemName : string)
    : gmap string value :=
  let safeResolveArgs := default ∅ resolveArgs in
  let argsForThisFactory := default ∅ (safeResolveArgs !! itemName) in
  let argsForAllFactories := default ∅ (safeResolveArgs !! "common") in
  argsForThisFactory ∪ argsForAllFactories.

(** The callback of [placeholderArgs.map]. *)
Definition resolveArgValue (usableArgs : gmap string value) (itemName : string)
    (resolveHistory : list HistoryRecord) (placeholderArg : InjectionRequest)
    : M value :=
  if isDefined (jsLookup usableArgs (name placeholderArg)) then
    mret (jsLookup usableArgs (name placeholderArg))
  else if isOptional placeholderArg then
    mret VUndefined
  else
    throw (buildErrorWithStack
             (runErrorMessage itemName (name placeholderArg))
             resolveHistory false).

Definition runFactory (factory : DecoratedFactory) (resolveArgs : option ResolveArgs)
    (itemName : string) (resolveHistory : list HistoryRecord) : M value :=
  match __placeholderArgs factory with
  | None =>
      (* The factory does not accept any placeholder arguments. *)
      applyFactory factory []
  | Some placeholderArgs =>
      let usableArgs := usableArgsOf resolveArgs itemName in
      resolveArgValues ←
        mapM (resolveArgValue usableArgs itemName resolveHistory) placeholderArgs;
      applyFactory factory resolveArgValues
  end.

(** ** src/resolver.js *)

(** The injector meta data ([InjectorState.meta]). *)
Record Meta := {
  meta_registerSourceFile : value;
  meta_skipTraceErrors : bool;
}.

(** The injector state (typedef [InjectorState] of index.js). *)
Record InjectorState := {
  registered : gmap string DecoratedFactory;
  singletons : gmap string value;
  meta : Meta;
}.

Record ResolveOptions := { resolve_isOptional : bool }.

Record ResolveResult := {
  resolvedFactory : DecoratedFactory;
  history : list HistoryRecord;
  state : InjectorState;
}.

Record InjectData := {
  injected_factory : DecoratedFactory;
  injected_state : InjectorState;
}.

(** [{...injectorState, singletons: {...injectorState.singletons, [itemName]: instance}}] *)
Definition withSingleton (injectorState : InjectorState) (itemName : string)
    (singletonInstance : value) : InjectorState :=
  {| registered := registered injectorState;
     singletons := <[itemName := singletonInstance]> (singletons injectorState);
     meta := meta injectorState |}.

(** The test [injectorState.singletons[itemName]] of the resolver. *)
Definition hasSingleton (injectorState : InjectorState) (itemName : string) : bool :=
  truthy (jsLookup (singletons injectorState) itemName).

Definition resolveSingletonAsFactory (injectorState : InjectorState)
    (itemName : string) : DecoratedFactory :=
  let resolvedSingleton := jsLookup (singletons injectorState) itemName in
  let singletonFactory := plainFunction (SingletonFn resolvedSingleton) in
  (* Singletons don't support placeholder arguments. *)
  let singletonFactory := set_placeholderArgs (Some []) singletonFactory in
  set_isSingleton true singletonFactory.

Definition getFactoryForUndefined : DecoratedFactory :=
  let undefinedFactory := plainFunction UndefinedFn in
  let undefinedFactory := set_placeholderArgs (Some []) undefinedFactory in
  set_isUndefined true undefinedFactory.

(** Property reads on an element of [$inject]; on anything but a request
    object they give [undefined]. *)
Definition spec_name (injectItem : injectSpec) : option string :=
  match injectItem with SpecRequest r => Some (name r) | _ => None end.
Definition spec_isPlaceholder (injectItem : injectSpec) : bool :=
  match injectItem with SpecRequest r => isPlaceholder r | _ => false end.
Definition spec_isOptional (injectItem : injectSpec) : bool :=
  match injectItem with SpecRequest r => isOptional r | _ => false end.
Definition spec_asFactory (injectItem : injectSpec) : bool :=
  match injectItem with SpecRequest r => asFactory r | _ => false end.

Definition getPlaceholderArguments (factory : DecoratedFactory) : list InjectionRequest :=
  match _inject factory with
  | InjectList inject =>
      omap (λ injectItem,
              match injectItem with
              | SpecRequest r => if isPlaceholder r then Some r else None
              | _ => None
              end) inject
  | _ => []
  end.

Definition curryFactory (factory : DecoratedFactory) (curryArgs : list value) : DecoratedFactory :=
  let curriedFactory := plainFunction (Partial factory curryArgs) in
  let curriedFactory :=
    set_placeholderArgs (Some (getPlaceholderArguments factory)) curriedFactory in
  (* Make sure the decorators carry through. *)
  let curriedFactory :=
    if truthy (_filename factory)
    then set_filename (_filename factory) curriedFactory else curriedFactory in
  let curriedFactory :=
    if truthy (__registerSourceFile factory)
    then set_registerSourceFile (__registerSourceFile factory) curriedFactory
    else curriedFactory in
  if _singleton factory then set_singleton true curriedFactory else curriedFactory.

Definition notRegisteredMessage (itemName : string) : string :=
  "FactoryDI Resolve Error: The item '" +:+ itemName +:+ "' has not been registered.".

Definition cyclicMessage (injectionName : string) : string :=
  "FactoryDI Resolve Error: Cyclic dependency '" +:+ injectionName
  +:+ "' found while resolving dependency path.".

(** [lodashSome(resolveHistory, (ancestor) => ancestor.name === injectionName)] *)
Definition inHistory (resolveHistory : list HistoryRecord) (injectionName : string) : bool :=
  existsb (λ ancestor, String.eqb (record_name ancestor) injectionName) resolveHistory.

Definition isCyclic (itemName : string) (resolveHistory : list HistoryRecord)
    (injectionName : option string) : bool :=
  match injectionName with
  | Some n => String.eqb itemName n || inHistory resolveHistory n
  | None => false
  end.

(** [String(injectItem.name)] *)
Definition safeInjectName (injectionName : option string) : string :=
  default "undefined" injectionName.

Section DependencyInject.

(** The recursive call to [resolveFactory]. *)
Variable resolveFactory :
  InjectorState → string → option ResolveArgs → option (list HistoryRecord) →
  option ResolveOptions → M ResolveResult.

(** The callback of [$inject.map]; [updatedState] is the variable the callback
    reads and assigns. *)
Definition injectDependency (injectorState : InjectorState) (itemName : string)
    (resolveArgs : ResolveArgs) (resolveHistory : list HistoryRecord)
    (updatedState : InjectorState) (injectItem : injectSpec)
    : M (value * InjectorState) :=
  if spec_isPlaceholder injectItem then
    mret (VPlaceholder, updatedState)
  else
    let injectionName := spec_name injectItem in
    if isCyclic itemName resolveHistory injectionName
       && negb (hasSingleton injectorState (safeInjectName injectionName))
    then
      throw (buildErrorWithStack
               (cyclicMessage (safeInjectName injectionName))
               (addToHistory resolveHistory (safeInjectName injectionName) None)
               false)
    else
      let isOptional := spec_isOptional injectItem in
      let asFactory := spec_asFactory injectItem in
      r ← resolveFactory updatedState (safeInjectName injectionName)
            (Some resolveArgs) (Some resolveHistory)
            (Some {| resolve_isOptional := isOptional |});
      if asFactory then
        mret (VFun (resolvedFactory r), state r)
      else
        v ← runFactory (resolvedFactory r) (Some resolveArgs)
              (safeInjectName injectionName) resolveHistory;
        mret (v, state r).

Fixpoint injectDependencies (injectorState : InjectorState) (itemName : string)
    (resolveArgs : ResolveArgs) (resolveHistory : list HistoryRecord)
    (inject : list injectSpec) (updatedState : InjectorState)
    : M (list value * InjectorState) :=
  match inject with
  | [] => mret ([], updatedState)
  | injectItem :: rest =>
      d ← injectDependency injectorState itemName resolveArgs resolveHistory
            updatedState injectItem;
      ds ← injectDependencies injectorState itemName resolveArgs resolveHistory
             rest (snd d);
      mret (fst d :: fst ds, snd ds)
  end.

Definition dependencyInjectFactory (injectorState : InjectorState)
    (factory : DecoratedFactory) (itemName : string) (resolveArgs : ResolveArgs)
    (resolveHistory : list HistoryRecord) : M InjectData :=
  match _inject factory with
  | InjectList ((_ :: _) as inject) =>
      ds ← injectDependencies injectorState itemName resolveArgs resolveHistory
             inject injectorState;
      mret {| injected_factory := curryFactory factory (fst ds);
              injected_state := snd ds |}
  | _ =>
      (* If inject is empty, we don't need to do anything here. *)
      mret {| injected_factory := factory; injected_state := injectorState |}
  end.

End DependencyInject.

(** [resolveFactory]; [fuel] bounds the depth of the recursion through
    [dependencyInjectFactory]. *)
Fixpoint resolveFactory (fuel : nat) (injectorState : InjectorState)
    (itemName : string) (resolveArgs : option ResolveArgs)
    (resolveHistory : option (list HistoryRecord))
    (options : option ResolveOptions) {struct fuel} : M ResolveResult :=
  match fuel with
  | O => outOfFuel
  | S fuel' =>
    let safeResolveHistory := default [] resolveHistory in
    (* First check the singletons to see if it has already been resolved. *)
    if hasSingleton injectorState itemName then
      let resolvedFactory := resolveSingletonAsFactory injectorState itemName in
      mret {| resolvedFactory := resolvedFactory;
              history := addToHistory safeResolveHistory itemName (Some resolvedFactory);
              state := injectorState |}
    else
      let isOptional := from_option resolve_isOptional false options in
      match lookupFactory (registered injectorState) itemName with
      | None =>
          if isOptional then
            let resolvedFactory := getFactoryForUndefined in
            mret {| resolvedFactory := resolvedFactory;
                    history := addToHistory safeResolveHistory itemName (Some resolvedFactory);
                    state := injectorState |}
          else
            throw (buildErrorWithStack
                     (notRegisteredMessage itemName)
                     (addToHistory safeResolveHistory itemName None)
                     false)
      | Some registeredFactory =>
          let safeResolveArgs := default ∅ resolveArgs in
          let newResolveHistory :=
            addToHistory safeResolveHistory itemName (Some registeredFactory) in
          injectData ← dependencyInjectFactory (resolveFactory fuel')
                         injectorState registeredFactory itemName
                         safeResolveArgs newResolveHistory;
          let injectedFactory := injected_factory injectData in
          let newInjectorState := injected_state injectData in
          if _singleton injectedFactory then
            singletonInstance ← runFactory injectedFactory resolveArgs itemName
                                  newResolveHistory;
            let newSingletonInjectorState :=
              withSingleton newInjectorState itemName singletonInstance in
            mret {| resolvedFactory :=
                      resolveSingletonAsFactory newSingletonInjectorState itemName;
                    history := newResolveHistory;
                    state := newSingletonInjectorState |}
          else
            mret {| resolvedFactory := injectedFactory;
                    history := newResolveHistory;
                    state := injectorState |}
      end
  end.

End Bodies.

(** ** src/injector.js *)

Definition OPTIONAL_CHARACTER : ascii := "?"%char.

Inductive PlaceholderType :=
| PLACEHOLDER_TYPE_ALL
| PLACEHOLDER_TYPE_OPTIONAL
| PLACEHOLDER_TYPE_LIST.

(** *** String primitives *)

(** [Some rest] when [s = p ++ rest]. *)
Fixpoint dropPrefix (p s : string) : option string :=
  match p, s with
  | EmptyString, _ => Some s
  | String a p', String b s' => if Ascii.eqb a b then dropPrefix p' s' else None
  | String _ _, EmptyString => None
  end.

(** [s.split(c)] for a one-character separator. *)
Fixpoint split (c : ascii) (s : string) : list string :=
  match s with
  | EmptyString => [EmptyString]
  | String a s' =>
      if Ascii.eqb a c then EmptyString :: split c s'
      else match split c s' with
           | piece :: pieces => String a piece :: pieces
           | [] => [String a EmptyString]
           end
  end.

Fixpoint filterChars (keep : ascii → bool) (s : string) : string :=
  match s with
  | EmptyString => EmptyString
  | String a s' =>
      if keep a then String a (filterChars keep s') else filterChars keep s'
  end.

(** [s.indexOf(p) !== -1] *)
Fixpoint contains (p s : string) : bool :=
  match dropPrefix p s with
  | Some _ => true
  | None => match s with
            | EmptyString => false
            | String _ s' => contains p s'
            end
  end.

(** [s.slice(-1) === c] *)
Fixpoint endsWith (c : ascii) (s : string) : bool :=
  match s with
  | EmptyString => false
  | String a EmptyString => Ascii.eqb a c
  | String _ s' => endsWith c s'
  end.

(** The text a replacement string stands for: [$$] is a dollar sign, [$&] the
    matched text, [$`] the text before the match and [$'] the text after it;
    with a string pattern there are no groups, and any other dollar sign is
    itself. *)
Fixpoint expandReplacement (matched before after replacement : string) : string :=
  match replacement with
  | EmptyString => EmptyString
  | String a rest =>
      if Ascii.eqb a "$"%char then
        match rest with
        | String c rest' =>
            if Ascii.eqb c "$"%char then
              String "$"%char (expandReplacement matched before after rest')
            else if Ascii.eqb c "&"%char then
              matched +:+ expandReplacement matched before after rest'
            else if Ascii.eqb c "`"%char then
              before +:+ expandReplacement matched before after rest'
            else if Ascii.eqb c "'"%char then
              after +:+ expandReplacement matched before after rest'
            else String a (expandReplacement matched before after rest)
        | EmptyString => String a EmptyString
        end
      else String a (expandReplacement matched before after rest)
  end.

(** [s.replace(pattern, replacement)] for a string pattern, [before] being
    the text already passed: the first occurrence only. *)
Fixpoint replaceFrom (pattern replacement before s : string) : string :=
  match dropPrefix pattern s with
  | Some after => expandReplacement pattern before after replacement +:+ after
  | None => match s with
            | EmptyString => EmptyString
            | String a s' =>
                String a (replaceFrom pattern replacement (before +:+ String a "") s')
            end
  end.

Definition replaceFirst (pattern replacement s : string) : string :=
  replaceFrom pattern replacement "" s.

(** [strings.join(sep)] *)
Fixpoint join (sep : string) (pieces : list string) : string :=
  match pieces with
  | [] => EmptyString
  | [piece] => piece
  | piece :: rest => piece +:+ sep +:+ join sep rest
  end.

Definition inRange (lo hi : nat) (a : ascii) : bool :=
  Nat.leb lo (nat_of_ascii a) && Nat.leb (nat_of_ascii a) hi.

(** The class [a-zA-Z0-9_$]. *)
Definition isNameChar (a : ascii) : bool :=
  inRange 97 122 a || inRange 65 90 a || inRange 48 57 a
  || Ascii.eqb a "_"%char || Ascii.eqb a "$"%char.

(** The class [\s] on ASCII text. *)
Definition isWhitespace (a : ascii) : bool :=
  inRange 9 13 a || Ascii.eqb a " "%char.

(** [name.replace(/[^a-zA-Z0-9_$]/gi, '')] *)
Definition safeNameOf (s : string) : string := filterChars isNameChar s.

(** [src.match(FUNCTION_ARGUMENT_REGEXP)], giving group 2.  The expression
    matches, from the start of the text, an optional head (the word
    [function] and any characters other than an opening parenthesis), an
    opening parenthesis, the argument text (group 2: any characters other than
    a closing parenthesis) and a closing parenthesis. *)
Definition matchFunctionArguments (src : string) : option string :=
  let afterParen :=
    match dropPrefix "function" src with
    | Some rest => snd (spanUntil "("%char rest)
    | None => dropPrefix "(" src
    end in
  match afterParen with
  | Some rest =>
      match spanUntil ")"%char rest with
      | (arguments, Some _) => Some arguments
      | (_, None) => None
      end
  | None => None
  end.

(** An injector error with a [%s] template and the [addToStack] marker. *)
Definition templateError (message : string) : JsError :=
  {| message := message; stack := EngineStack; addToStack := true |}.

Definition joinIndexes (invalidIndexes : list nat) : string :=
  join ", " (pretty <$> invalidIndexes).

(** *** The parser *)

Definition buildInjectionRequest (name : string) (isOptional isPlaceholder : bool)
    : InjectionRequest :=
  {| name := name; isOptional := isOptional; asFactory := false;
     isPlaceholder := isPlaceholder |}.

(** One round of the [lodashForeach] in [getFactoryPlaceholderOptions]. *)
Definition placeholderOptionStep
    (acc : list nat * gmap string bool) (entry : nat * option string)
    : list nat * gmap string bool :=
  let '(invalidIndexes, parsedPlaceholderArgs) := acc in
  let '(placeholderIndex, placeholder) := entry in
  match placeholder with
  | None => (invalidIndexes ++ [placeholderIndex], parsedPlaceholderArgs)
  | Some placeholder =>
      let safeName := safeNameOf placeholder in
      let invalidIndexes :=
        if String.eqb safeName "" then invalidIndexes ++ [placeholderIndex]
        else invalidIndexes in
      let isOptional := endsWith OPTIONAL_CHARACTER placeholder in
      (invalidIndexes, <[safeName := isOptional]> parsedPlaceholderArgs)
  end.

Definition getFactoryPlaceholderOptions (factory : DecoratedFactory)
    : M (gmap string bool) :=
  match _placeholders factory with
  | PlaceholdersOther =>
      throw (templateError
               "FactoryDI Inject Error: Non-array value of $placeholders found for '%s'.")
  | PlaceholdersUnset | PlaceholdersList [] => mret ∅
  | PlaceholdersList placeholders =>
      let '(invalidIndexes, parsedPlaceholderArgs) :=
        fold_left placeholderOptionStep (imap pair placeholders) ([], ∅) in
      match invalidIndexes with
      | [] => mret parsedPlaceholderArgs
      | _ =>
          throw (templateError
                   ("FactoryDI Inject Error: Invalid $placeholders found for '%s' on indexes: "
                    +:+ joinIndexes invalidIndexes +:+ "."))
      end
  end.

(** [placeholderArgs[name]] when it is truthy, as the [isOptional] flag read
    off it.  The table is a plain object: the assignment
    [parsedPlaceholderArgs[safeName] = {isOptional}] made an own property,
    except under [__proto__], where it made [{isOptional}] the prototype of
    the table (the entry of the map under [__proto__]); a name with no own
    property is looked up in that prototype, where [isOptional] is a boolean,
    and then in [Object.prototype], whose members have no [isOptional]. *)
Definition lookupPlaceholder (placeholderArgs : gmap string bool) (name : string)
    : option bool :=
  match placeholderArgs !! name with
  | Some fromPlaceholder => Some fromPlaceholder
  | None =>
      let inherited : option bool :=
        match inheritedMember name with Some _ => Some false | None => None end in
      match placeholderArgs !! "__proto__" with
      | Some prototypeIsOptional =>
          if String.eqb name "isOptional"
          then (if prototypeIsOptional : bool then Some false else None)
          else inherited
      | None => inherited
      end
  end.

(** One round of the [reduce] in [parseFactoryPlaceholderArguments]. *)
Definition placeholderArgumentStep (placeholderType : PlaceholderType)
    (placeholderArgs : gmap string bool)
    (final : list InjectionRequest) (functionArgument : string)
    : list InjectionRequest :=
  if String.eqb functionArgument "" then
    (* The final argument likely had a trailing comma, so skip this one. *)
    final
  else
    let isOptional := contains "=" functionArgument in
    let name :=
      if isOptional then fst (spanUntil "="%char functionArgument)
      else functionArgument in
    let '(isOptional, isPlaceholder) :=
      match placeholderType with
      | PLACEHOLDER_TYPE_ALL => (isOptional, true)
      | PLACEHOLDER_TYPE_OPTIONAL => (isOptional, isOptional)
      | PLACEHOLDER_TYPE_LIST =>
          match lookupPlaceholder placeholderArgs name with
          | Some fromPlaceholder => (fromPlaceholder, true)
          | None => (isOptional, false)
          end
      end in
    final ++ [buildInjectionRequest name isOptional isPlaceholder].

Definition parseArgumentsErrorMessage (itemName : string) : string :=
  "FactoryDI Inject Error: Could not parse function arguments for '" +:+ itemName +:+ "'.".

Definition parseFactoryPlaceholderArguments (factory : DecoratedFactory)
    (itemName : string) (placeholderType : PlaceholderType)
    : M (list InjectionRequest) :=
  placeholderArgs ←
    match placeholderType with
    | PLACEHOLDER_TYPE_LIST => getFactoryPlaceholderOptions factory
    | _ => mret ∅
    end;
  match matchFunctionArguments (functionToString factory) with
  | None =>
      throw (buildErrorWithStack (parseArgumentsErrorMessage itemName)
               (addToHistory [] itemName (Some factory)) true)
  | Some arguments =>
      if String.eqb arguments "" then mret []
      else
        (* Remove all whitespace from the arguments list. *)
        let cleanedArguments := filterChars (λ a, negb (isWhitespace a)) arguments in
        if String.eqb cleanedArguments "" then mret []
        else
          mret (fold_left (placeholderArgumentStep placeholderType placeholderArgs)
                  (split ","%char cleanedArguments) [])
  end.

(** One round of the [map] in [parseFactoryInjectionArguments]; the requests
    are only used when no index was invalid. *)
Definition injectionRequestStep
    (acc : list nat * list InjectionRequest) (entry : nat * injectSpec)
    : list nat * list InjectionRequest :=
  let '(invalidIndexes, injectionRequests) := acc in
  let '(injectionIndex, injectionRequest) := entry in
  match injectionRequest with
  | SpecRequest r =>
      if negb (String.eqb (name r) "") then
        (invalidIndexes, injectionRequests ++ [r])
      else
        (invalidIndexes ++ [injectionIndex], injectionRequests)
  | SpecOther => (invalidIndexes ++ [injectionIndex], injectionRequests)
  | SpecString injectionRequest =>
      let safeName := safeNameOf injectionRequest in
      let invalidIndexes :=
        if String.eqb safeName "" then invalidIndexes ++ [injectionIndex]
        else invalidIndexes in
      let asFactory := contains "()" injectionRequest in
      let isOptional := endsWith OPTIONAL_CHARACTER injectionRequest in
      let isPlaceholder := contains "*" injectionRequest in
      (invalidIndexes,
       injectionRequests ++ [{| name := safeName; isOptional := isOptional;
                                asFactory := asFactory; isPlaceholder := isPlaceholder |}])
  end.

Definition parseFactoryInjectionArguments (factory : DecoratedFactory)
    : M (list InjectionRequest) :=
  match _inject factory with
  | InjectList inject =>
      let '(invalidIndexes, injectionRequests) :=
        fold_left injectionRequestStep (imap pair inject) ([], []) in
      match invalidIndexes with
      | [] => mret injectionRequests
      | _ =>
          throw (templateError
                   ("FactoryDI Inject Error: Invalid $inject found for '%s' on indexes: "
                    +:+ joinIndexes invalidIndexes +:+ "."))
      end
  | _ =>
      throw (templateError
               "FactoryDI Inject Error: Invalid non-array $inject found for '%s'.")
  end.

Definition parseCountErrorMessage (itemName : string) : string :=
  "Factory Inject Error: Could not parse function argument count for '" +:+ itemName +:+ "'.".

Definition countMismatchMessage (itemName : string)
    (factoryArgsCount expectedArgsCount : nat) : string :=
  "Factory Inject Error: Found " +:+ pretty factoryArgsCount
  +:+ " injected params for '" +:+ itemName +:+ "'"
  +:+ ", but expected " +:+ pretty expectedArgsCount +:+ "."
  +:+ " Make sure all the function arguments are represented in the factory.$inject variable.".

(** [(argsMatch[2]) ? argsMatch[2].split(',').length : 0] *)
Definition expectedArgsCount (arguments : string) : nat :=
  if String.eqb arguments "" then 0 else length (split ","%char arguments).

Definition validateFunctionArgumentCount (factory : DecoratedFactory)
    (itemName : string) (factoryArgsCount : nat) : M unit :=
  match matchFunctionArguments (functionToString factory) with
  | None =>
      throw (buildErrorWithStack (parseCountErrorMessage itemName)
               (addToHistory [] itemName (Some factory)) true)
  | Some arguments =>
      if negb (Nat.eqb factoryArgsCount (expectedArgsCount arguments)) then
        throw (buildErrorWithStack
                 (countMismatchMessage itemName factoryArgsCount
                    (expectedArgsCount arguments))
                 (addToHistory [] itemName (Some factory)) true)
      else mret tt
  end.

Definition parseFactoryInject (factory : DecoratedFactory) (itemName : string)
    (registerHistory : list HistoryRecord) : M (list InjectionRequest) :=
  tryCatch
    (match _inject factory with
     | InjectUnset =>
         parseFactoryPlaceholderArguments factory itemName PLACEHOLDER_TYPE_ALL
     | InjectTrue =>
         parseFactoryPlaceholderArguments factory itemName PLACEHOLDER_TYPE_LIST
     | _ =>
         injectionArgs ← parseFactoryInjectionArguments factory;
         (* Make sure all the arguments to the factory are accounted for. *)
         _ ← validateFunctionArgumentCount factory itemName (length injectionArgs);
         mret injectionArgs
     end)
    (λ placeholderError,
       if addToStack placeholderError then
         throw (buildErrorWithStack
                  (replaceFirst "%s" itemName (message placeholderError))
                  registerHistory false)
       else throw placeholderError).

(** ** src/registration.js *)

(** The register options (typedef [RegisterOptions] of index.js). *)
Record RegisterOptions := {
  opt_filename : value;
  opt_forceSingleton : bool;
  opt_skipTraceErrors : bool;
  opt_registerSourceFile : value;
}.

(** The empty options object [{}]. *)
Definition noOptions : RegisterOptions :=
  {| opt_filename := VUndefined; opt_forceSingleton := false;
     opt_skipTraceErrors := false; opt_registerSourceFile := VUndefined |}.

Definition noFilenameWarning (itemName : string) : string :=
  "FactoryDI Register Error: Warning: No $filename found for item '" +:+ itemName
  +:+ "' when being registered."
  +:+ " Please make sure the $filename property is defined on this item's factory.".

Definition noRegisterSourceMessage (itemName : string) : string :=
  "FactoryDI Register Error: Attempting to register '" +:+ itemName
  +:+ "' but no registerSource is defined."
  +:+ " Please use factoryDi.setRegisterSource() to set this value"
  +:+ " or send {registerSourceFile: ''} as an option to factoryDi.register().".

Definition validateFactory (factory : DecoratedFactory) (itemName : string)
    (registerHistory : list HistoryRecord) : M unit :=
  _ ← (if negb (truthy (_filename factory))
       then emit (ConsoleLog (noFilenameWarning itemName))
       else mret tt);
  if negb (truthy (__registerSourceFile factory)) then
    throw (buildErrorWithStack (noRegisterSourceMessage itemName) registerHistory false)
  else mret tt.

(** The assignments [registerFactory] makes to the decorators of the factory
    before it validates it. *)
Definition stampFactory (injectorState : InjectorState)
    (factory : DecoratedFactory) (options : RegisterOptions) : DecoratedFactory :=
  let factory :=
    if opt_forceSingleton options then set_singleton true factory else factory in
  let factory :=
    if truthy (opt_filename options)
    then set_filename (opt_filename options) factory else factory in
  if truthy (opt_registerSourceFile options) then
    set_registerSourceFile (opt_registerSourceFile options) factory
  else if truthy (meta_registerSourceFile (meta injectorState)) then
    set_registerSourceFile (meta_registerSourceFile (meta injectorState)) factory
  else
    set_registerSourceFile VUndefined factory.

(** The end of [registerFactory]: the injection requests are parsed and
    stored on the factory, and the factory is put in the registry of a new
    state. *)
Definition storeFactory (injectorState : InjectorState) (itemName : string)
    (factory : DecoratedFactory) (registerHistory : list HistoryRecord)
    : M InjectorState :=
  inject ← parseFactoryInject factory itemName registerHistory;
  let factory := set_inject (InjectList (SpecRequest <$> inject)) factory in
  mret {| registered := <[itemName := factory]> (registered injectorState);
          singletons := singletons injectorState;
          meta := meta injectorState |}.

(** [registerFactory(injectorState, itemName, factory, options)]: the new
    injector state.  The code writes the decorators on the function object it
    is given and stores that object; here the stamped copy is stored, so that
    a function object held by another entry of the registry keeps, in the
    model, the decorators it had. *)
Definition registerFactory (injectorState : InjectorState) (itemName : string)
    (factory : DecoratedFactory) (options : RegisterOptions) : M InjectorState :=
  let factory := stampFactory injectorState factory options in
  let registerHistory := addToHistory [] itemName (Some factory) in
  _ ← (if negb (opt_skipTraceErrors options)
          && negb (meta_skipTraceErrors (meta injectorState))
       then validateFactory factory itemName registerHistory
       else mret tt);
  storeFactory injectorState itemName factory registerHistory.

(** ** src/index.js *)

(** The state a container starts from, before it registers itself. *)
Definition emptyInjectorState : InjectorState :=
  {| registered := ∅;
     singletons := ∅;
     meta := {| meta_registerSourceFile := VUndefined;
                meta_skipTraceErrors := false |} |}.

(** The checks [register] and [resolve] make on the item name. *)
Definition checkItemName (itemName : value) : M string :=
  if negb (truthy itemName) then
    throw (newError "FactoryDI Register Error: No item name given.")
  else
    match itemName with
    | VStr itemName => mret itemName
    | _ => throw (newError "FactoryDI Register Error: The given item name is not a string.")
    end.

(** The factory [register] passes on: functions are assumed to be factories,
    anything else is wrapped. *)
Definition safeFactoryOf (factoryOrItem : value) : DecoratedFactory :=
  let itemFactory := plainFunction (ItemFn factoryOrItem) in
  let itemFactory := set_singleton true itemFactory in
  let itemFactory :=
    if truthy factoryOrItem && truthy (getProp factoryOrItem "$filename")
    then set_filename (getProp factoryOrItem "$filename") itemFactory
    else itemFactory in
  match factoryOrItem with
  | VFun factory => if isFunction factoryOrItem then factory else itemFactory
  | _ => itemFactory
  end.

(** [register(itemName, factoryOrItem, options)]: the new injector state. *)
Definition register (injectorState : InjectorState) (itemName : value)
    (factoryOrItem : value) (options : option RegisterOptions) : M InjectorState :=
  itemName ← checkItemName itemName;
  registerFactory injectorState itemName (safeFactoryOf factoryOrItem)
    (default noOptions options).

(** [setRegisterSource(registerSourceFile)]: the previous source file and the
    new injector state. *)
Definition setRegisterSource (injectorState : InjectorState)
    (registerSourceFile : value) : value * InjectorState :=
  let currentSourceFile := meta_registerSourceFile (meta injectorState) in
  (js_or currentSourceFile VNull,
   {| registered := registered injectorState;
      singletons := singletons injectorState;
      meta := {| meta_registerSourceFile := registerSourceFile;
                 meta_skipTraceErrors := meta_skipTraceErrors (meta injectorState) |} |}).

Definition setSkipTraceErrors (injectorState : InjectorState)
    (skipTraceErrors : bool) : InjectorState :=
  {| registered := registered injectorState;
     singletons := singletons injectorState;
     meta := {| meta_registerSourceFile := meta_registerSourceFile (meta injectorState);
                meta_skipTraceErrors := skipTraceErrors |} |}.

Definition clearSingletons (injectorState : InjectorState) : InjectorState :=
  {| registered := registered injectorState;
     singletons := ∅;
     meta := meta injectorState |}.

(** The container object; its methods are left out, its [$filename] is kept. *)
Definition factoryDiObject (__filename : string) : value :=
  VObj [("$filename", VStr __filename)].

(** [factoryDiFactory()]: the state of a new container, which has registered
    itself. *)
Definition factoryDiFactory (__filename : string) : M InjectorState :=
  register emptyInjectorState (VStr "factoryDi") (factoryDiObject __filename)
    (Some {| opt_filename := VUndefined; opt_forceSingleton := false;
             opt_skipTraceErrors := false;
             opt_registerSourceFile :=
               js_or (VStr __filename) (VStr "factory-di/src/index.js") |}).

Section Container.

Variable body : Bodies.

(** Fuel enough for any resolution in [injectorState] (see
    [resolveFactory_terminates]). *)
Definition resolveFuel (injectorState : InjectorState) : nat :=
  S (S (size (registered injectorState))).

(** [resolve(itemName, resolveArgs, options)]: what the call yields, and the
    injector state it leaves behind ([updateInjectorState] runs before the
    resolved factory does). *)
Definition resolve (injectorState : InjectorState) (itemName : value)
    (resolveArgs : option ResolveArgs) (asFactory : bool)
    : M value * InjectorState :=
  match checkItemName itemName with
  | (evs, Ok itemName) =>
      match resolveFactory body (resolveFuel injectorState) injectorState
              itemName resolveArgs None None with
      | (evs', Ok r) =>
          let run :=
            if asFactory then mret (VFun (resolvedFactory r))
            else runFactory body (resolvedFactory r) resolveArgs itemName (history r) in
          ((evs ++ evs' ++ events run, result run), state r)
      | (evs', Throw e) => ((evs ++ evs', Throw e), injectorState)
      | (evs', OutOfFuel) => ((evs ++ evs', OutOfFuel), injectorState)
      end
  | (evs, Throw e) => ((evs, Throw e), injectorState)
  | (evs, OutOfFuel) => ((evs, OutOfFuel), injectorState)
  end.

End Container.

(** ** Definitions used to state the properties *)

(** The frames [buildErrorWithStack] writes after the message, for the
    reversed history [previous]. *)
Definition renderFrames (previous : list HistoryRecord) : string :=
  fold_left (λ errorStack item, errorStack +:+ stackFrame item) previous "".

(** The record [addToHistory] makes for the empty object [{}]. *)
Definition bareRecord (itemName : string) : HistoryRecord :=
  {| record_name := itemName; filepath := VNull; registerSource := VNull;
     notFound := false |}.

(** The binding of one placeholder by the runner: what the argument bag
    yields under the name of the placeholder ([usableArgs[name]], a member
    the bag inherits included) if that is defined, else [undefined] if the
    placeholder is optional, else no binding. *)
Definition bindOne (bag : gmap string value) (placeholder : InjectionRequest)
    : option value :=
  if isDefined (jsLookup bag (name placeholder)) then
    Some (jsLookup bag (name placeholder))
  else if isOptional placeholder then Some VUndefined
  else None.

(** The binding of the declared placeholders, in order: the values bound, or
    the name of the first placeholder that cannot be bound. *)
Fixpoint bindPlaceholders (bag : gmap string value)
    (placeholders : list InjectionRequest) : list value + string :=
  match placeholders with
  | [] => inl []
  | placeholder :: rest =>
      match bindOne bag placeholder with
      | Some v =>
          match bindPlaceholders bag rest with
          | inl values => inl (v :: values)
          | inr missing => inr missing
          end
      | None => inr (name placeholder)
      end
  end.

(** [extends st st']: [st'] has the registry and the meta data of [st], and
    every singleton the resolver finds in [st] is unchanged in [st']. *)
Definition extends (st st' : InjectorState) : Prop :=
  registered st' = registered st ∧ meta st' = meta st ∧
  ∀ k, hasSingleton st k = true → singletons st' !! k = singletons st !! k.

(** The factory whose record [resolveFactory] appends to the history. *)
Definition recordedFactory (st : InjectorState) (itemName : string) : DecoratedFactory :=
  if hasSingleton st itemName then resolveSingletonAsFactory st itemName
  else default getFactoryForUndefined (lookupFactory (registered st) itemName).




(** ** Example containers, after src/index.test.js *)

(** A body for the user functions of the examples: it reports which function
    ran and the arguments it received. *)
Definition exampleBody : Bodies :=
  {| userBody := λ id args,
       VObj (("factory", VNum (Z.of_nat id)) :: imap (λ i v, (pretty i, v)) args);
     builtinResult := λ member args,
       inl (VObj (("builtin", VStr member) :: imap (λ i v, (pretty i, v)) args)) |}.

Definition userFunction (id : nat) (src : string) (inject : injectDecl)
    (singleton : bool) : DecoratedFactory :=
  set_singleton singleton (set_inject inject (plainFunction (UserFn id src))).

(** The state the container holds after a call that may throw:
    [updateInjectorState] is not reached when it does. *)
Definition stateAfter (st : InjectorState) (m : M InjectorState) : InjectorState :=
  match result m with
  | Ok st' => st'
  | _ => st
  end.

Definition registerIn (st : InjectorState) (itemName : string) (factoryOrItem : value)
    : InjectorState :=
  stateAfter st (register st (VStr itemName) factoryOrItem None).

Definition resolveIn (st : InjectorState) (itemName : string) : InjectorState :=
  snd (resolve exampleBody st (VStr itemName) None false).

(** [factoryDiFactory()] *)
Definition newContainer : InjectorState :=
  stateAfter emptyInjectorState (factoryDiFactory "/factory-di/src/index.js").

(** [getDiInstance()] of the tests. *)
Definition getDiInstance : InjectorState := setSkipTraceErrors newContainer true.

(** The test of the cyclic dependency: [a] depends on [b], [b] on [a]. *)
Definition aFactory : DecoratedFactory :=
  userFunction 1 "function aFactory(b) { return {a: true, ...b}; }"
    (InjectList [SpecString "b"]) false.
Definition bFactory : DecoratedFactory :=
  userFunction 2 "function bFactory(a) { return {b: true, ...a}; }"
    (InjectList [SpecString "a"]) false.
Definition cycleContainer : InjectorState :=
  registerIn (registerIn getDiInstance "a" (VFun aFactory)) "b" (VFun bFactory).

Definition request (name : string) : InjectionRequest :=
  {| name := name; isOptional := false; asFactory := false; isPlaceholder := false |}.

(** What the registry holds for [a] and [b]. *)
Definition aRegistered : DecoratedFactory :=
  set_inject (InjectList [SpecRequest (request "b")]) aFactory.
Definition bRegistered : DecoratedFactory :=
  set_inject (InjectList [SpecRequest (request "a")]) bFactory.

(** A singleton [db] and a [service] that depends on it and is not a
    singleton. *)
Definition dbFactory : DecoratedFactory :=
  userFunction 3 "function dbFactory() { return {connected: true}; }"
    InjectUnset true.
Definition serviceFactory : DecoratedFactory :=
  userFunction 4 "function serviceFactory(db) { return {db}; }"
    (InjectList [SpecString "db"]) false.
Definition serviceContainer : InjectorState :=
  registerIn (registerIn getDiInstance "db" (VFun dbFactory))
    "service" (VFun serviceFactory).

(** The value [0] registered under [zero]. *)
Definition zeroContainer : InjectorState :=
  registerIn getDiInstance "zero" (VNum 0).

(** [a] cached as the value [1], then [a] and [b] registered as in
    [cycleContainer]. *)
Definition cachedCycleContainer : InjectorState :=
  registerIn
    (registerIn (resolveIn (registerIn getDiInstance "a" (VNum 1)) "a")
       "a" (VFun aFactory))
    "b" (VFun bFactory).

(** ** Plain signatures *)

Fixpoint allChars (p : ascii → bool) (s : string) : bool :=
  match s with
  | EmptyString => true
  | String a s' => p a && allChars p s'
  end.

(** A parameter written as a plain name: one or more characters of
    [a-zA-Z0-9_$]. *)
Definition isPlainName (s : string) : bool :=
  negb (String.eqb s "") && allChars isNameChar s.

(** The source text [function<head>(p1, ..., pk)<rest>] of a function whose
    formal parameters are [params]. *)
Definition plainSignature (head : string) (params : list string) (rest : string)
    : string :=
  "function" +:+ head +:+ "(" +:+ join ", " params +:+ ")" +:+ rest.

(** A bound factory with a required placeholder [z] and an optional
    placeholder [y]. *)
Definition placeholderZ : InjectionRequest :=
  {| name := "z"; isOptional := false; asFactory := false; isPlaceholder := true |}.
Definition placeholderY : InjectionRequest :=
  {| name := "y"; isOptional := true; asFactory := false; isPlaceholder := true |}.
Definition cFactory : DecoratedFactory :=
  set_placeholderArgs (Some [placeholderZ; placeholderY])
    (plainFunction (UserFn 6 "function cFactory(z, y) { return {y, z}; }")).

(** A factory whose [$inject] names two dependencies and whose signature has
    one parameter. *)
Definition mismatchFactory : DecoratedFactory :=
  userFunction 7 "function mismatchFactory(b) { return b; }"
    (InjectList [SpecString "b"; SpecString "c"]) false.

(** ** Names that a plain object inherits *)

(** A factory whose one formal parameter, a required placeholder, is named
    [constructor], registered under [widget]. *)
Definition widgetFactory : DecoratedFactory :=
  userFunction 18 "function widgetFactory(constructor) { return {constructor}; }"
    InjectUnset false.
Definition widgetContainer : InjectorState :=
  registerIn getDiInstance "widget" (VFun widgetFactory).

(** The same with a formal parameter named [size]. *)
Definition gadgetFactory : DecoratedFactory :=
  userFunction 19 "function gadgetFactory(size) { return {size}; }" InjectUnset false.
Definition gadgetContainer : InjectorState :=
  registerIn getDiInstance "gadget" (VFun gadgetFactory).

(** The function [Object], which every plain object yields under
    [constructor]. *)
Definition objectConstructor : value := VFun (plainFunction (BuiltinFn "constructor")).

(** [a] cached as the value [0], then [a] and [b] registered as in
    [cycleContainer]. *)
Definition zeroCachedCycleContainer : InjectorState :=
  registerIn
    (registerIn (resolveIn (registerIn getDiInstance "a" (VNum 0)) "a")
       "a" (VFun aFactory))
    "b" (VFun bFactory).

(** A factory whose signature ends in a comma after its two formal
    parameters. *)
Definition pairFactory (inject : injectDecl) : DecoratedFactory :=
  userFunction 17 "function pair(left, right,) {}" inject false.


(** ** Definitions used to state further properties *)

Section Reachable.

Variable body : Bodies.


End Reachable.

(** The factory [register] stores for a value that is not a function, in a
    state whose registration source is [source]. *)
Definition itemFactoryOf (v source : value) : DecoratedFactory :=
  Factory (ItemFn v) (InjectList []) PlaceholdersUnset true
    (js_or (getProp v "$filename") VUndefined) source None false false.

(** An element of [$inject] that [parseFactoryInjectionArguments] rejects:
    neither a string nor an object with a name, or a string whose safe name
    is empty. *)
Definition specInvalid (injectionRequest : injectSpec) : bool :=
  match injectionRequest with
  | SpecRequest r => String.eqb (name r) ""
  | SpecString s => String.eqb (safeNameOf s) ""
  | SpecOther => true
  end.

(** The request a string specifier stands for. *)
Definition requestOfString (s : string) : InjectionRequest :=
  {| name := safeNameOf s;
     isOptional := endsWith OPTIONAL_CHARACTER s;
     asFactory := contains "()" s;
     isPlaceholder := contains "*" s |}.

(** The request an accepted element of [$inject] stands for. *)
Definition requestOfSpec (injectionRequest : injectSpec) : option InjectionRequest :=
  match injectionRequest with
  | SpecRequest r => if String.eqb (name r) "" then None else Some r
  | SpecString s => Some (requestOfString s)
  | SpecOther => None
  end.

(** The indexes of the elements of a list that [invalid] rejects, the first
    element having index [start]. *)
Fixpoint invalidIndexesFrom {A} (invalid : A → bool) (start : nat) (l : list A)
    : list nat :=
  match l with
  | [] => []
  | x :: rest =>
      (if invalid x then [start] else []) ++ invalidIndexesFrom invalid (S start) rest
  end.

(** An element of [$placeholders] that [getFactoryPlaceholderOptions]
    rejects: not a string, or a string whose safe name is empty. *)
Definition placeholderInvalid (placeholder : option string) : bool :=
  match placeholder with
  | Some s => String.eqb (safeNameOf s) ""
  | None => true
  end.

(** The entry a string of [$placeholders] stands for. *)
Definition placeholderEntry (placeholder : option string) : option (string * bool) :=
  s ← placeholder; Some (safeNameOf s, endsWith OPTIONAL_CHARACTER s).

(** The table of the entries of [$placeholders]; of two entries with the same
    safe name the later one counts. *)
Definition placeholderTable (placeholders : list (option string)) : gmap string bool :=
  list_to_map (rev (omap placeholderEntry placeholders)).

(** The request of a formal parameter in the infer-all mode. *)
Definition placeholderRequest (name : string) : InjectionRequest :=
  {| name := name; isOptional := false; asFactory := false; isPlaceholder := true |}.

(** The request of a formal parameter when [$inject] is [true] and
    [placeholderArgs] is the table made from [$placeholders]. *)
Definition inferredRequest (placeholderArgs : gmap string bool) (name : string)
    : InjectionRequest :=
  match placeholderArgs !! name with
  | Some isOptional =>
      {| name := name; isOptional := isOptional; asFactory := false;
         isPlaceholder := true |}
  | None => request name
  end.

(** [cacheGrows st st']: the registry is the same, no entry of the singleton
    cache is removed, and none is made or changed under a name that is not
    registered. *)
Definition cacheGrows (st st' : InjectorState) : Prop :=
  registered st' = registered st
  ∧ dom (singletons st) ⊆ dom (singletons st')
  ∧ ∀ k, registered st !! k = None → singletons st' !! k = singletons st !! k.

(** [slotFilled st bag (r, v)]: [v] is what the request [r] of an [$inject]
    list stands for in the state [st] under the argument bag [bag]: for a
    placeholder, the value the runner binds to it from the bag ([bindOne]);
    for a dependency, the value registered under its name, where the
    resolver's test of the cache fails for the name. *)
Definition slotFilled (st : InjectorState) (bag : gmap string value)
    (slot : InjectionRequest * value) : Prop :=
  if isPlaceholder (fst slot) then bindOne bag (fst slot) = Some (snd slot)
  else
    asFactory (fst slot) = false
    ∧ snd slot ≠ VPlaceholder
    ∧ hasSingleton st (name (fst slot)) = false
    ∧ ∃ source, registered st !! name (fst slot) = Some (itemFactoryOf (snd slot) source).

(** The events of the wrappers of registered values. *)
Definition isItemEvent (e : event) : Prop :=
  ∃ v, e = Invoked (ItemFn v).

(** A container in which [greeter] depends on the registered value
    [greeting] and has the placeholder [name]. *)
Definition greeterFactory : DecoratedFactory :=
  userFunction 13 "function greeterFactory(greeting, name) { return greeting + name; }"
    (InjectList [SpecString "greeting"; SpecString "name*"]) false.
Definition greeterContainer : InjectorState :=
  registerIn (registerIn getDiInstance "greeting" (VStr "hi"))
    "greeter" (VFun greeterFactory).

(** ** Signatures with default values and trailing commas *)

(** A formal parameter as it is written: its name, and its default value
    when it has one. *)
Definition renderParameter (parameter : string * option string) : string :=
  match snd parameter with
  | None => fst parameter
  | Some defaultValue => fst parameter +:+ " = " +:+ defaultValue
  end.

(** The source text [function<head>(p1, p2 = d2, ...)<rest>]. *)
Definition signatureWithDefaults (head : string)
    (parameters : list (string * option string)) (rest : string) : string :=
  "function" +:+ head +:+ "(" +:+ join ", " (renderParameter <$> parameters)
  +:+ ")" +:+ rest.

(** A default value the expression of the parser reads through: one with no
    comma and no closing parenthesis. *)
Definition isDefaultText (defaultValue : string) : bool :=
  allChars (λ a, negb (Ascii.eqb a ","%char)) defaultValue
  && allChars (λ a, negb (Ascii.eqb a ")"%char)) defaultValue.

Definition isParameter (parameter : string * option string) : bool :=
  isPlainName (fst parameter) && from_option isDefaultText true (snd parameter).

(** The request of a formal parameter in the infer-all mode: a placeholder,
    optional when the parameter has a default value. *)
Definition defaultedRequest (parameter : string * option string) : InjectionRequest :=
  {| name := fst parameter;
     isOptional := match snd parameter with Some _ => true | None => false end;
     asFactory := false;
     isPlaceholder := true |}.

(** The source text [function<head>(p1, ..., pk,)<rest>], with a comma after
    the last formal parameter. *)
Definition trailingCommaSignature (head : string) (params : list string)
    (rest : string) : string :=
  "function" +:+ head +:+ "(" +:+ (join ", " params +:+ ",") +:+ ")" +:+ rest.

(** * Properties *)

(** ** The monad *)

Lemma bind_ret_l {A B} (a : A) (k : A → M B) : bind (ret a) k = k a.
Proof. unfold bind, ret. destruct (k a) as [evs r]. reflexivity. Qed.

Lemma mbind_unfold {A B} (m : M A) (k : A → M B) : (m ≫= k) = bind m k.
Proof. reflexivity. Qed.

Lemma bind_Ok_inv {A B} (m : M A) (k : A → M B) evs b :
  bind m k = (evs, Ok b) →
  ∃ evs1 a evs2, m = (evs1, Ok a) ∧ k a = (evs2, Ok b) ∧ evs = evs1 ++ evs2.
Proof.
  destruct m as [evs1 [a| |]]; simpl; [|discriminate..].
  destruct (k a) as [evs2 r] eqn:Hk. intros [= <- ->]. eauto 6.
Qed.

(** ** Own and inherited properties *)

Lemma lookupFactory_own m k f : m !! k = Some f → lookupFactory m k = Some f.
Proof. unfold lookupFactory. by intros ->. Qed.

Lemma lookupFactory_absent m k :
  m !! k = None → lookupFactory m k = inheritedMember k.
Proof. unfold lookupFactory. by intros ->. Qed.

Lemma inheritedMember_plain k f :
  inheritedMember k = Some f →
  f = plainFunction (BuiltinFn k) ∨ f = plainFunction ObjectPrototype.
Proof.
  unfold inheritedMember. destruct (String.eqb k "__proto__"); [intros [= <-]; auto|].
  destruct (existsb _ _); [intros [= <-]; auto|done].
Qed.

(** An inherited member carries no decorator, so a factory the registry
    yields with [$singleton] or an [$inject] list is an own entry. *)
Lemma lookupFactory_singleton m k f :
  lookupFactory m k = Some f → _singleton f = true → m !! k = Some f.
Proof.
  unfold lookupFactory. destruct (m !! k); [done|].
  intros [->| ->]%inheritedMember_plain; discriminate.
Qed.


Lemma jsLookup_own m k v : m !! k = Some v → jsLookup m k = v.
Proof. unfold jsLookup. by intros ->. Qed.

Lemma jsLookup_absent m k :
  m !! k = None → inheritedMember k = None → jsLookup m k = VUndefined.
Proof. unfold jsLookup. by intros -> ->. Qed.

Lemma jsLookup_insert m k v : jsLookup (<[k := v]> m) k = v.
Proof. apply jsLookup_own, lookup_insert_eq. Qed.

Lemma jsLookup_insert_ne m k k' v : k ≠ k' → jsLookup (<[k := v]> m) k' = jsLookup m k'.
Proof. intros Hne. unfold jsLookup. by rewrite lookup_insert_ne. Qed.

(** ** Strings and error stacks *)

Lemma append_assoc (s1 s2 s3 : string) : (s1 +:+ s2) +:+ s3 = s1 +:+ (s2 +:+ s3).
Proof.
  induction s1 as [|a s1 IH]; [reflexivity|].
  change (String a ((s1 +:+ s2) +:+ s3) = String a (s1 +:+ (s2 +:+ s3))).
  by rewrite IH.
Qed.

Lemma fold_stackFrame (previous : list HistoryRecord) (init : string) :
  fold_left (λ errorStack item, errorStack +:+ stackFrame item) previous init
  = init +:+ renderFrames previous.
Proof.
  unfold renderFrames. revert init.
  induction previous as [|item previous IH]; intros init; simpl.
  - induction init as [|a init IHi]; [reflexivity|].
    change (String a init = String a (init +:+ "")). by rewrite <- IHi.
  - rewrite IH, (IH ("" +:+ stackFrame item)).
    change ("" +:+ stackFrame item) with (stackFrame item).
    apply append_assoc.
Qed.

(** The most recent history record is the first frame of the stack. *)
Lemma buildErrorWithStack_last msg history item includeCodeStack :
  msg ≠ "" →
  buildErrorWithStack msg (history ++ [item]) includeCodeStack =
  {| message := msg;
     stack := HistoryStack
                (msg +:+ stackFrame item +:+ renderFrames (rev history))
                includeCodeStack;
     addToStack := false |}.
Proof.
  intros Hne. unfold buildErrorWithStack.
  apply String.eqb_neq in Hne. rewrite Hne.
  rewrite rev_app_distr. simpl. rewrite fold_stackFrame, append_assoc. reflexivity.
Qed.

(** ** The runner *)

Lemma resolveArgValue_bindOne bag itemName hist p :
  resolveArgValue bag itemName hist p =
  match bindOne bag p with
  | Some v => ret v
  | None => throw (buildErrorWithStack (runErrorMessage itemName (name p)) hist false)
  end.
Proof.
  unfold resolveArgValue, bindOne.
  destruct (isDefined _); [reflexivity|]. destruct (isOptional p); reflexivity.
Qed.

Lemma mapM_resolveArgValue bag itemName hist placeholders :
  mapM (resolveArgValue bag itemName hist) placeholders =
  match bindPlaceholders bag placeholders with
  | inl values => ret values
  | inr missing =>
      throw (buildErrorWithStack (runErrorMessage itemName missing) hist false)
  end.
Proof.
  induction placeholders as [|p rest IH]; [reflexivity|].
  cbn [mapM bindPlaceholders]. rewrite IH, resolveArgValue_bindOne.
  destruct (bindOne bag p) as [v|]; [|reflexivity].
  rewrite mbind_unfold, bind_ret_l.
  destruct (bindPlaceholders bag rest); reflexivity.
Qed.

Lemma usableArgsOf_lookup args itemName k :
  usableArgsOf args itemName !! k =
  match default ∅ (default ∅ args !! itemName) !! k with
  | Some v => Some v
  | None => default ∅ (default ∅ args !! "common") !! k
  end.
Proof.
  unfold usableArgsOf. rewrite lookup_union.
  destruct (default ∅ (default ∅ args !! itemName) !! k) as [v|];
    destruct (default ∅ (default ∅ args !! "common") !! k); reflexivity.
Qed.

Lemma runFactory_bindPlaceholders body f args itemName hist placeholderArgs :
  __placeholderArgs f = Some placeholderArgs →
  runFactory body f args itemName hist =
    match bindPlaceholders (usableArgsOf args itemName) placeholderArgs with
    | inl values => applyFactory body f values
    | inr missing =>
        throw (buildErrorWithStack (runErrorMessage itemName missing) hist false)
    end.
Proof.
  intros Hpa. unfold runFactory. rewrite Hpa. cbn zeta. rewrite mapM_resolveArgValue.
  destruct (bindPlaceholders _ _); [|reflexivity].
  rewrite mbind_unfold. apply bind_ret_l.
Qed.

Lemma bindOne_undefined_absent bag k p :
  bag !! k = Some VUndefined → inheritedMember k = None →
  bindOne bag p = bindOne (delete k bag) p.
Proof.
  intros Hk Hinh. unfold bindOne, jsLookup.
  destruct (decide (k = name p)) as [<-|Hne].
  - rewrite Hk, lookup_delete_eq, Hinh. reflexivity.
  - rewrite lookup_delete_ne by done. reflexivity.
Qed.

Lemma bindPlaceholders_undefined_absent bag k placeholders :
  bag !! k = Some VUndefined → inheritedMember k = None →
  bindPlaceholders bag placeholders = bindPlaceholders (delete k bag) placeholders.
Proof.
  intros Hk Hinh. induction placeholders as [|p rest IH]; [reflexivity|].
  cbn [bindPlaceholders]. rewrite IH, (bindOne_undefined_absent bag k p Hk Hinh).
  reflexivity.
Qed.

(** The synthetic factories never run a registered body. *)

Lemma runFactory_singleton body st n args itemName hist :
  runFactory body (resolveSingletonAsFactory st n) args itemName hist
  = ret (jsLookup (singletons st) n).
Proof. reflexivity. Qed.

(** C6.  A required placeholder named [constructor]: resolving [widget]
    with no resolve arguments binds the placeholder to the function [Object],
    which the merged argument bag inherits, and runs the body on it; the
    binding error is not thrown.  For a placeholder named [size] the same call
    throws the error that names the item and the placeholder. *)
Theorem inherited_member_binds_a_placeholder (body : Bodies) :
  registered widgetContainer !! "widget"
  = Some (set_inject
            (InjectList [SpecRequest {| name := "constructor"; isOptional := false;
                                        asFactory := false; isPlaceholder := true |}])
            widgetFactory)
  ∧ usableArgsOf None "widget" !! "constructor" = None
  ∧ resolve body widgetContainer (VStr "widget") None false
    = (([Invoked (call widgetFactory)], Ok (body 18 [objectConstructor])),
       widgetContainer)
  ∧ ∃ stackText,
      resolve body gadgetContainer (VStr "gadget") None false
      = (throw {| message :=
                    "FactoryDI Run Error: Could not resolve instance of 'gadget' because it requires a value for the non-injected 'size' argument.";
                  stack := HistoryStack stackText false;
                  addToStack := false |},
         gadgetContainer).
Proof.
  split; [vm_compute; reflexivity|]. split; [vm_compute; reflexivity|].
  split; [vm_compute; reflexivity|]. eexists. vm_compute. reflexivity.
Qed.

(** C10.  For the required placeholder named [constructor], an argument
    given as [undefined] and an argument that is not given are told apart:
    with the entry the call throws the binding error, without it the
    placeholder is bound to the function [Object] that the bag inherits and
    the body runs. *)
Theorem undefined_argument_differs_from_absent (body : Bodies) :
  (∃ stackText,
      resolve body widgetContainer (VStr "widget")
        (Some {[ "widget" := {[ "constructor" := VUndefined ]} ]}) false
      = (throw {| message :=
                    "FactoryDI Run Error: Could not resolve instance of 'widget' because it requires a value for the non-injected 'constructor' argument.";
                  stack := HistoryStack stackText false;
                  addToStack := false |},
         widgetContainer))
  ∧ resolve body widgetContainer (VStr "widget")
      (Some {[ "widget" := delete "constructor" {[ "constructor" := VUndefined ]} ]})
      false
    = (([Invoked (call widgetFactory)], Ok (body 18 [objectConstructor])),
       widgetContainer).
Proof.
  split; [eexists|]; vm_compute; reflexivity.
Qed.

(** X26.  [runFactory] on a factory that carries a placeholder-argument
    list: the arguments given under the item name win over those given under
    [common];
    each declared placeholder, in order, is bound to what the bag yields under
    its name when that is defined, else to [undefined] when the placeholder is
    optional; the first placeholder that can not be bound makes the invocation
    throw the error that names the item and the placeholder. *)
Theorem runFactory_binds_placeholders body factory resolveArgs itemName
    resolveHistory placeholderArgs :
  __placeholderArgs factory = Some placeholderArgs →
  (∀ k, usableArgsOf resolveArgs itemName !! k =
        match default ∅ (default ∅ resolveArgs !! itemName) !! k with
        | Some v => Some v
        | None => default ∅ (default ∅ resolveArgs !! "common") !! k
        end)
  ∧ runFactory body factory resolveArgs itemName resolveHistory =
    match bindPlaceholders (usableArgsOf resolveArgs itemName) placeholderArgs with
    | inl values => applyFactory body factory values
    | inr missing =>
        throw (buildErrorWithStack
                 ("FactoryDI Run Error: Could not resolve instance of '" +:+ itemName
                  +:+ "' because it requires a value for the non-injected '"
                  +:+ missing +:+ "' argument.")
                 resolveHistory false)
    end.
Proof.
  intros Hpa. split; [apply usableArgsOf_lookup|].
  by apply runFactory_bindPlaceholders.
Qed.

Lemma runFactory_binds_placeholders_witness :
  runFactory exampleBody cFactory
    (Some {[ "c" := {[ "z" := VStr "item" ]}; "common" := {[ "z" := VStr "shared" ]} ]})
    "c" []
  = ([Invoked (call cFactory)], Ok (exampleBody 6 [VStr "item"; VUndefined]))
  ∧ runFactory exampleBody cFactory
      (Some {[ "wrongName" := {[ "z" := VStr "item" ]} ]}) "c" []
    = throw (buildErrorWithStack
             "FactoryDI Run Error: Could not resolve instance of 'c' because it requires a value for the non-injected 'z' argument."
             [] false).
Proof.
  split.
  - destruct (runFactory_binds_placeholders exampleBody cFactory
                (Some {[ "c" := {[ "z" := VStr "item" ]};
                         "common" := {[ "z" := VStr "shared" ]} ]})
                "c" [] [placeholderZ; placeholderY] eq_refl) as [_ ->].
    vm_compute. reflexivity.
  - destruct (runFactory_binds_placeholders exampleBody cFactory
                (Some {[ "wrongName" := {[ "z" := VStr "item" ]} ]})
                "c" [] [placeholderZ; placeholderY] eq_refl) as [_ ->].
    vm_compute. reflexivity.
Defined.

(** X27.  An argument that is present in the merged bag with the value
    [undefined]: a required placeholder of that name throws the binding
    error and an optional one is passed [undefined]; when the name is not one
    that the bag inherits, the whole invocation is the one of the bag without
    the entry. *)
Theorem undefined_argument_is_absent body factory resolveArgs itemName
    resolveHistory placeholderArgs placeholderArg :
  __placeholderArgs factory = Some placeholderArgs →
  usableArgsOf resolveArgs itemName !! name placeholderArg = Some VUndefined →
  (isOptional placeholderArg = false →
     resolveArgValue (usableArgsOf resolveArgs itemName) itemName resolveHistory
       placeholderArg
     = throw (buildErrorWithStack
                ("FactoryDI Run Error: Could not resolve instance of '" +:+ itemName
                 +:+ "' because it requires a value for the non-injected '"
                 +:+ name placeholderArg +:+ "' argument.")
                resolveHistory false))
  ∧ (isOptional placeholderArg = true →
     resolveArgValue (usableArgsOf resolveArgs itemName) itemName resolveHistory
       placeholderArg
     = ret VUndefined)
  ∧ (inheritedMember (name placeholderArg) = None →
     resolveArgValue (usableArgsOf resolveArgs itemName) itemName resolveHistory
       placeholderArg
     = resolveArgValue (delete (name placeholderArg) (usableArgsOf resolveArgs itemName))
         itemName resolveHistory placeholderArg
     ∧ runFactory body factory resolveArgs itemName resolveHistory =
       match bindPlaceholders
               (delete (name placeholderArg) (usableArgsOf resolveArgs itemName))
               placeholderArgs with
       | inl values => applyFactory body factory values
       | inr missing =>
           throw (buildErrorWithStack
                    ("FactoryDI Run Error: Could not resolve instance of '"
                     +:+ itemName
                     +:+ "' because it requires a value for the non-injected '"
                     +:+ missing +:+ "' argument.")
                    resolveHistory false)
       end).
Proof.
  intros Hpa Hundef. split; [|split].
  - intros Hreq. unfold resolveArgValue, jsLookup. by rewrite Hundef, Hreq.
  - intros Hopt. unfold resolveArgValue, jsLookup. by rewrite Hundef, Hopt.
  - intros Hinh. split.
    + rewrite !resolveArgValue_bindOne.
      by rewrite (bindOne_undefined_absent _ _ placeholderArg Hundef Hinh).
    + rewrite (runFactory_bindPlaceholders _ _ _ _ _ _ Hpa).
      by rewrite (bindPlaceholders_undefined_absent _ _ placeholderArgs Hundef Hinh).
Qed.

Lemma undefined_argument_is_absent_witness :
  runFactory exampleBody cFactory
    (Some {[ "c" := {[ "z" := VUndefined ]}; "common" := {[ "z" := VStr "shared" ]} ]})
    "c" []
  = throw (buildErrorWithStack
             "FactoryDI Run Error: Could not resolve instance of 'c' because it requires a value for the non-injected 'z' argument."
             [] false)
  ∧ resolveArgValue
      (usableArgsOf (Some {[ "c" := {[ "y" := VUndefined ]} ]}) "c") "c" [] placeholderY
    = ret VUndefined.
Proof.
  split.
  - destruct (undefined_argument_is_absent exampleBody cFactory
                (Some {[ "c" := {[ "z" := VUndefined ]};
                         "common" := {[ "z" := VStr "shared" ]} ]})
                "c" [] [placeholderZ; placeholderY] placeholderZ eq_refl)
      as (_ & _ & Habsent); [vm_compute; reflexivity|].
    destruct (Habsent eq_refl) as [_ ->]. vm_compute. reflexivity.
  - destruct (undefined_argument_is_absent exampleBody cFactory
                (Some {[ "c" := {[ "y" := VUndefined ]} ]})
                "c" [] [placeholderZ; placeholderY] placeholderY eq_refl)
      as (_ & Hopt & _); [vm_compute; reflexivity|].
    by apply Hopt.
Defined.

(** ** The resolver *)

Ltac inv_bind H :=
  let evs1 := fresh "evs" in
  let a := fresh "a" in
  let evs2 := fresh "evs" in
  let H1 := fresh "Hm" in
  let H2 := fresh "Hk" in
  let He := fresh "Hevs" in
  apply bind_Ok_inv in H as (evs1 & a & evs2 & H1 & H2 & He).

Lemma extends_refl st : extends st st.
Proof. by repeat split. Qed.

Lemma extends_hasSingleton st st' k :
  extends st st' → hasSingleton st k = true → hasSingleton st' k = true.
Proof.
  intros (_ & _ & Hs) Hk. unfold hasSingleton, jsLookup in *.
  by rewrite (Hs k Hk).
Qed.

Lemma extends_trans st1 st2 st3 : extends st1 st2 → extends st2 st3 → extends st1 st3.
Proof.
  intros H12 H23. pose proof H12 as (Hr12 & Hm12 & Hs12).
  destruct H23 as (Hr23 & Hm23 & Hs23). repeat split; [congruence..|].
  intros k Hk. rewrite Hs23, Hs12; eauto using extends_hasSingleton.
Qed.

(** A cached singleton short-circuits the resolution: no body runs, the
    registry is not read and the state is returned as it is. *)
Lemma resolveFactory_cached body fuel st itemName args hist options :
  hasSingleton st itemName = true →
  resolveFactory body (S fuel) st itemName args hist options =
  ret {| resolvedFactory := resolveSingletonAsFactory st itemName;
         history := addToHistory (default [] hist) itemName
                      (Some (resolveSingletonAsFactory st itemName));
         state := st |}.
Proof. intros Hc. simpl. rewrite Hc. reflexivity. Qed.

Section Recursion.

Variable body : Bodies.
Variable rec : InjectorState → string → option ResolveArgs →
               option (list HistoryRecord) → option ResolveOptions → M ResolveResult.

Hypothesis rec_extends : ∀ st n args h o evs r,
  rec st n args h o = (evs, Ok r) → extends st (state r).

Lemma injectDependency_extends st0 itemName args hist updated injectItem evs d :
  injectDependency body rec st0 itemName args hist updated injectItem = (evs, Ok d) →
  extends updated (snd d).
Proof.
  unfold injectDependency.
  destruct (spec_isPlaceholder injectItem).
  { intros [= _ <-]. apply extends_refl. }
  destruct (_ && _); [discriminate|].
  rewrite mbind_unfold. intros H. inv_bind H.
  apply rec_extends in Hm.
  destruct (spec_asFactory injectItem).
  - injection Hk as _ <-. exact Hm.
  - rewrite mbind_unfold in Hk. inv_bind Hk. injection Hk0 as _ <-. exact Hm.
Qed.

Lemma injectDependencies_extends st0 itemName args hist inject updated evs ds :
  injectDependencies body rec st0 itemName args hist inject updated = (evs, Ok ds) →
  extends updated (snd ds).
Proof.
  revert updated evs ds.
  induction inject as [|injectItem rest IH]; intros updated evs ds; simpl.
  { intros [= _ <-]. apply extends_refl. }
  rewrite mbind_unfold. intros H. inv_bind H.
  rewrite mbind_unfold in Hk. inv_bind Hk. injection Hk0 as _ <-. simpl.
  eapply extends_trans; [eapply injectDependency_extends|eapply IH]; eauto.
Qed.

Lemma dependencyInjectFactory_extends st factory itemName args hist evs d :
  dependencyInjectFactory body rec st factory itemName args hist = (evs, Ok d) →
  extends st (injected_state d).
Proof.
  unfold dependencyInjectFactory.
  destruct (_inject factory) as [| |[|injectItem rest]|];
    try (intros [= _ <-]; apply extends_refl).
  rewrite mbind_unfold. intros H. inv_bind H. injection Hk as _ <-. simpl.
  eapply injectDependencies_extends; eauto.
Qed.

End Recursion.

Lemma withSingleton_extends st st' itemName v :
  hasSingleton st itemName = false →
  extends st st' → extends st (withSingleton st' itemName v).
Proof.
  intros Hn (Hr & Hm & Hs). repeat split; [done..|].
  intros k Hk. simpl. rewrite lookup_insert_ne; [auto|].
  intros ->. congruence.
Qed.

(** Resolution keeps the registry and the singletons it found. *)
Lemma resolveFactory_extends body fuel : ∀ st n args h o evs r,
  resolveFactory body fuel st n args h o = (evs, Ok r) → extends st (state r).
Proof.
  induction fuel as [|fuel IH]; intros st n args h o evs r; [discriminate|].
  simpl. destruct (hasSingleton st n) eqn:Hc.
  { intros [= _ <-]. apply extends_refl. }
  destruct (lookupFactory (registered st) n) as [registeredFactory|].
  2: { destruct (from_option resolve_isOptional false o); [|discriminate].
       intros [= _ <-]. apply extends_refl. }
  rewrite mbind_unfold. intros H. inv_bind H.
  apply (dependencyInjectFactory_extends body _ IH) in Hm.
  destruct (_singleton (injected_factory a)).
  - rewrite mbind_unfold in Hk. inv_bind Hk. injection Hk0 as _ <-. simpl.
    by apply withSingleton_extends.
  - injection Hk as _ <-. apply extends_refl.
Qed.

(** The history a resolution returns is the history it was given followed by
    one record, for the item itself. *)
Lemma resolveFactory_history body fuel st n args h o evs r :
  resolveFactory body fuel st n args h o = (evs, Ok r) →
  history r = addToHistory (default [] h) n (Some (recordedFactory st n)).
Proof.
  destruct fuel as [|fuel]; [discriminate|].
  simpl. unfold recordedFactory. destruct (hasSingleton st n) eqn:Hc.
  { by intros [= _ <-]. }
  destruct (lookupFactory (registered st) n) as [registeredFactory|].
  2: { destruct (from_option resolve_isOptional false o); [|discriminate].
       by intros [= _ <-]. }
  rewrite mbind_unfold. intros H. inv_bind H.
  destruct (_singleton (injected_factory a)).
  - rewrite mbind_unfold in Hk. inv_bind Hk. by injection Hk0 as _ <-.
  - by injection Hk as _ <-.
Qed.

(** ** Termination: the fuel of [resolveFuel] is never used up *)










Section DependenciesTotal.

Variable body : Bodies.
Variable rec : InjectorState → string → option ResolveArgs →
               option (list HistoryRecord) → option ResolveOptions → M ResolveResult.
Variables (st0 : InjectorState) (itemName : string) (args : ResolveArgs)
          (hist : list HistoryRecord).

Hypothesis rec_extends : ∀ st n args h o evs r,
  rec st n args h o = (evs, Ok r) → extends st (state r).

Hypothesis rec_total : ∀ updated dn o,
  registered updated = registered st0 →
  hasSingleton updated dn = true ∨ isCyclic itemName hist (Some dn) = false →
  result (rec updated dn (Some args) (Some hist) o) ≠ OutOfFuel.



End DependenciesTotal.





(** ** The claims about the resolver *)

Lemma notRegisteredMessage_nonempty itemName : notRegisteredMessage itemName ≠ "".
Proof. discriminate. Qed.

Lemma hasSingleton_None st itemName :
  singletons st !! itemName = None → inheritedMember itemName = None →
  hasSingleton st itemName = false.
Proof. intros Hs Hinh. unfold hasSingleton. by rewrite jsLookup_absent. Qed.

(** C5.  The name [constructor] has neither a registry entry nor a
    singleton entry in a new container, yet resolving it neither throws the
    not-registered error nor, for an optional request, gives the factory of
    [undefined]: the test of the cache finds the function [Object] that the
    cache inherits, and the resolution returns it as a cached singleton. *)
Theorem inherited_name_is_resolved (body : Bodies) :
  registered getDiInstance !! "constructor" = None
  ∧ singletons getDiInstance !! "constructor" = None
  ∧ resolve body getDiInstance (VStr "constructor") None false
    = (ret objectConstructor, getDiInstance)
  ∧ ∀ options,
      resolveFactory body 1 getDiInstance "constructor" None None options
      = ret {| resolvedFactory :=
                 set_isSingleton true
                   (set_placeholderArgs (Some [])
                      (plainFunction (SingletonFn objectConstructor)));
               history := [{| record_name := "constructor"; filepath := VNull;
                              registerSource := VNull; notFound := false |}];
               state := getDiInstance |}.
Proof.
  split; [vm_compute; reflexivity|]. split; [vm_compute; reflexivity|].
  split; [vm_compute; reflexivity|]. intros options. vm_compute. reflexivity.
Qed.

(** X23.  Resolving a name that has neither a registry entry nor a singleton
    entry and that is not the name of a member of [Object.prototype]: an
    optional request gets the synthetic factory that produces [undefined],
    with one history record appended (marked [notFound]) and no error; a
    request that is not optional throws the not-registered error, whose trace
    starts with the frame of the missing name. *)
Theorem resolve_unregistered_name body fuel st itemName args hist options :
  registered st !! itemName = None →
  singletons st !! itemName = None →
  inheritedMember itemName = None →
  (from_option resolve_isOptional false options = true →
     resolveFactory body (S fuel) st itemName args hist options =
       ret {| resolvedFactory := getFactoryForUndefined;
              history := default [] hist
                         ++ [{| record_name := itemName; filepath := VNull;
                                registerSource := VNull; notFound := true |}];
              state := st |}
     ∧ ∀ args' itemName' hist',
         runFactory body getFactoryForUndefined args' itemName' hist' = ret VUndefined)
  ∧ (from_option resolve_isOptional false options = false →
     resolveFactory body (S fuel) st itemName args hist options =
       throw {| message :=
                  "FactoryDI Resolve Error: The item '" +:+ itemName
                  +:+ "' has not been registered.";
                stack := HistoryStack
                           (("FactoryDI Resolve Error: The item '" +:+ itemName
                             +:+ "' has not been registered.")
                            +:+ (newline +:+ "    at " +:+ itemName +:+ " (?)"
                                 +:+ newline +:+ "        registered in [?]")
                            +:+ renderFrames (rev (default [] hist)))
                           false;
                addToStack := false |}).
Proof.
  intros Hreg Hsing Hinh. pose proof (hasSingleton_None _ _ Hsing Hinh) as Hc.
  apply lookupFactory_absent in Hreg. rewrite Hinh in Hreg.
  split; intros Hopt; simpl; rewrite Hc, Hreg, Hopt.
  - split; [reflexivity|]. intros. reflexivity.
  - unfold addToHistory. simpl.
    by rewrite (buildErrorWithStack_last _ _ _ _ (notRegisteredMessage_nonempty itemName)).
Qed.

Lemma resolve_unregistered_name_witness :
  resolveFactory exampleBody 1 getDiInstance "missing" None None
    (Some {| resolve_isOptional := true |})
  = ret {| resolvedFactory := getFactoryForUndefined;
           history := [{| record_name := "missing"; filepath := VNull;
                          registerSource := VNull; notFound := true |}];
           state := getDiInstance |}
  ∧ message <$> (match result (resolveFactory exampleBody 1 getDiInstance "missing"
                                 None None None) with
                 | Throw e => Some e
                 | _ => None
                 end)
    = Some "FactoryDI Resolve Error: The item 'missing' has not been registered.".
Proof.
  destruct (resolve_unregistered_name exampleBody 0 getDiInstance "missing" None None
              (Some {| resolve_isOptional := true |})) as [Hopt _];
    [vm_compute; reflexivity..|].
  destruct (resolve_unregistered_name exampleBody 0 getDiInstance "missing" None None
              None) as [_ Hreq];
    [vm_compute; reflexivity..|].
  split.
  - by destruct (Hopt eq_refl) as [-> _].
  - by rewrite (Hreq eq_refl).
Defined.

Lemma isCyclic_spec itemName hist dn :
  isCyclic itemName hist (Some dn) = true
  ↔ dn = itemName ∨ ∃ ancestor, ancestor ∈ hist ∧ record_name ancestor = dn.
Proof.
  simpl. rewrite orb_true_iff, String.eqb_eq. unfold inHistory.
  rewrite existsb_exists. split.
  - intros [->|(x & Hx & Heq)]; [by left|right].
    exists x. split; [by apply list_elem_of_In|by apply String.eqb_eq].
  - intros [->|(x & Hx & Heq)]; [by left|right].
    exists x. split; [by apply list_elem_of_In|by apply String.eqb_eq].
Qed.

Lemma bind_Ok_l {A B} (m : M A) (k : A → M B) evs a :
  m = (evs, Ok a) → bind m k = (evs ++ events (k a), result (k a)).
Proof. intros ->. simpl. by destruct (k a). Qed.

(** A failure after a prefix of [$inject] that succeeded is the failure of the
    whole loop. *)
Lemma injectDependencies_app_Throw body rec st0 itemName args hist pre :
  ∀ rest updated evs ds evs' e,
  injectDependencies body rec st0 itemName args hist pre updated = (evs, Ok ds) →
  injectDependencies body rec st0 itemName args hist rest (snd ds) = (evs', Throw e) →
  injectDependencies body rec st0 itemName args hist (pre ++ rest) updated
  = (evs ++ evs', Throw e).
Proof.
  induction pre as [|injectItem pre IH]; intros rest updated evs ds evs' e Hpre Hrest.
  - injection Hpre as <- <-. exact Hrest.
  - simpl in *. rewrite mbind_unfold in *. inv_bind Hpre.
    rewrite mbind_unfold in Hk. inv_bind Hk. injection Hk0 as <- <-.
    simpl in Hrest. rewrite (bind_Ok_l _ _ _ _ Hm). rewrite mbind_unfold.
    rewrite (IH _ _ _ _ _ _ Hm0 Hrest). simpl. subst.
    by rewrite app_nil_r, app_assoc.
Qed.

Lemma injectDependency_cyclic_uncached body rec st0 itemName args hist updated r :
  isPlaceholder r = false →
  isCyclic itemName hist (Some (name r)) = true →
  hasSingleton st0 (name r) = false →
  injectDependency body rec st0 itemName args hist updated (SpecRequest r)
  = throw (buildErrorWithStack (cyclicMessage (name r))
             (hist ++ [bareRecord (name r)]) false).
Proof.
  intros Hp Hcyc Hc. unfold injectDependency.
  cbn [spec_isPlaceholder spec_name safeInjectName default from_option id].
  rewrite Hp, Hcyc, Hc. reflexivity.
Qed.

Lemma injectDependency_cached body fuel st0 itemName args hist updated r :
  isPlaceholder r = false →
  hasSingleton st0 (name r) = true →
  extends st0 updated →
  injectDependency body (resolveFactory body (S fuel)) st0 itemName args hist
    updated (SpecRequest r)
  = ret (if asFactory r then VFun (resolveSingletonAsFactory updated (name r))
         else jsLookup (singletons st0) (name r), updated).
Proof.
  intros Hp Hc Hext. unfold injectDependency. cbn [spec_isPlaceholder spec_name
    spec_isOptional spec_asFactory safeInjectName default from_option id]. rewrite Hp, Hc, andb_false_r.
  rewrite resolveFactory_cached by eauto using extends_hasSingleton.
  rewrite mbind_unfold, bind_ret_l. cbn [resolvedFactory state].
  destruct (asFactory r); [reflexivity|].
  rewrite runFactory_singleton, mbind_unfold, bind_ret_l.
  destruct Hext as (_ & _ & Hs). unfold jsLookup. by rewrite (Hs _ Hc).
Qed.

Lemma resolveFactory_cyclic_uncached body fuel st n args hist o f pre r post evs ds :
  hasSingleton st n = false →
  registered st !! n = Some f →
  _inject f = InjectList (pre ++ SpecRequest r :: post) →
  let newResolveHistory := addToHistory (default [] hist) n (Some f) in
  injectDependencies body (resolveFactory body fuel) st n (default ∅ args)
    newResolveHistory pre st = (evs, Ok ds) →
  isPlaceholder r = false →
  isCyclic n newResolveHistory (Some (name r)) = true →
  hasSingleton st (name r) = false →
  resolveFactory body (S fuel) st n args hist o
  = (evs, Throw (buildErrorWithStack (cyclicMessage (name r))
                   (newResolveHistory ++ [bareRecord (name r)]) false)).
Proof.
  intros Hc Hreg Hinj newH Hpre Hp Hcyc Hdc. simpl. rewrite Hc, (lookupFactory_own _ _ _ Hreg).
  unfold dependencyInjectFactory. rewrite Hinj.
  assert (injectDependencies body (resolveFactory body fuel) st n (default ∅ args)
            newH (pre ++ SpecRequest r :: post) st
          = (evs ++ [], Throw (buildErrorWithStack (cyclicMessage (name r))
                                 (newH ++ [bareRecord (name r)]) false))) as Hloop.
  { eapply injectDependencies_app_Throw; [exact Hpre|].
    simpl. by rewrite injectDependency_cyclic_uncached. }
  rewrite app_nil_r in Hloop.
  destruct (pre ++ SpecRequest r :: post) eqn:Hl.
  { by destruct pre. }
  fold newH. rewrite Hloop. reflexivity.
Qed.

Lemma checkItemName_string itemName :
  itemName ≠ "" → checkItemName (VStr itemName) = ret itemName.
Proof.
  intros Hne. unfold checkItemName. simpl.
  apply String.eqb_neq in Hne. by rewrite Hne.
Qed.

(** Two factories that depend on each other: resolving the first throws the
    cyclic-dependency error that names it. *)
Lemma resolve_mutual_cycle body st fa fb ra rb args asF :
  name ra ≠ "" → name ra ≠ name rb →
  registered st !! name ra = Some fa → registered st !! name rb = Some fb →
  _inject fa = InjectList [SpecRequest rb] → isPlaceholder rb = false →
  _inject fb = InjectList [SpecRequest ra] → isPlaceholder ra = false →
  hasSingleton st (name ra) = false → hasSingleton st (name rb) = false →
  resolve body st (VStr (name ra)) args asF =
  (throw (buildErrorWithStack (cyclicMessage (name ra))
            (addToHistory (addToHistory [] (name ra) (Some fa)) (name rb) (Some fb)
             ++ [bareRecord (name ra)]) false),
   st).
Proof.
  intros Hne Hab Hrega Hregb Hinja Hpb Hinjb Hpa Hca Hcb.
  unfold resolve. rewrite checkItemName_string by done. unfold ret, resolveFuel.
  remember (size (registered st)) as fuel eqn:Hfuel. clear Hfuel.
  assert (resolveFactory body (S fuel) st (name rb)
            (Some (default ∅ args)) (Some (addToHistory [] (name ra) (Some fa)))
            (Some {| resolve_isOptional := isOptional rb |})
          = ([], Throw (buildErrorWithStack (cyclicMessage (name ra))
                          (addToHistory (addToHistory [] (name ra) (Some fa))
                             (name rb) (Some fb) ++ [bareRecord (name ra)]) false)))
    as Hinner.
  { eapply (resolveFactory_cyclic_uncached body _ st (name rb) _
              (Some (addToHistory [] (name ra) (Some fa))) _ fb [] ra []); try done.
    simpl. unfold inHistory, addToHistory. simpl.
    rewrite String.eqb_refl. by rewrite !orb_true_r. }
  remember (S fuel) as fuel1 eqn:Hfuel1.
  cbn [resolveFactory default]. rewrite Hca, (lookupFactory_own _ _ _ Hrega).
  unfold dependencyInjectFactory. rewrite Hinja.
  cbn [injectDependencies]. unfold injectDependency at 1.
  cbn [spec_isPlaceholder spec_name spec_isOptional spec_asFactory safeInjectName
       default from_option id].
  rewrite Hpb.
  assert (isCyclic (name ra) (addToHistory [] (name ra) (Some fa)) (Some (name rb)) = false)
    as ->.
  { simpl. apply String.eqb_neq in Hab. by rewrite Hab. }
  cbn [andb]. rewrite Hinner. reflexivity.
Qed.

(** X24.  While [itemName] resolves its dependencies with history [hist], a
    dependency is cyclic exactly when its name is [itemName] or the name of a
    record of [hist].  When the loop over [$inject] reaches a cyclic
    dependency for which the resolver's test of the cache fails
    ([hasSingleton]: what [singletons] yields under the name is falsy), the
    resolution throws the cyclic-dependency error that names this dependency,
    at once: nothing is resolved or run for it.  A dependency for which the
    test succeeds does not raise, cyclic or not: it is bound to what the
    cache yields (or to its wrapper).  Two factories that depend on each
    other make [resolve] throw the cyclic-dependency error naming the
    first. *)
Theorem cyclic_dependency_detection body fuel st itemName :
  (∀ hist dn,
     isCyclic itemName hist (Some dn) = true
     ↔ dn = itemName ∨ ∃ ancestor, ancestor ∈ hist ∧ record_name ancestor = dn)
  ∧ (∀ args hist o f pre r post evs ds,
       hasSingleton st itemName = false →
       registered st !! itemName = Some f →
       _inject f = InjectList (pre ++ SpecRequest r :: post) →
       let newResolveHistory := addToHistory (default [] hist) itemName (Some f) in
       injectDependencies body (resolveFactory body fuel) st itemName (default ∅ args)
         newResolveHistory pre st = (evs, Ok ds) →
       isPlaceholder r = false →
       isCyclic itemName newResolveHistory (Some (name r)) = true →
       hasSingleton st (name r) = false →
       resolveFactory body (S fuel) st itemName args hist o
       = (evs, Throw (buildErrorWithStack
                        ("FactoryDI Resolve Error: Cyclic dependency '" +:+ name r
                         +:+ "' found while resolving dependency path.")
                        (newResolveHistory ++ [bareRecord (name r)]) false)))
  ∧ (∀ args hist pre r evs ds,
       injectDependencies body (resolveFactory body (S fuel)) st itemName args hist
         pre st = (evs, Ok ds) →
       isPlaceholder r = false →
       hasSingleton st (name r) = true →
       injectDependency body (resolveFactory body (S fuel)) st itemName args hist
         (snd ds) (SpecRequest r)
       = ret (if asFactory r then VFun (resolveSingletonAsFactory (snd ds) (name r))
              else jsLookup (singletons st) (name r), snd ds))
  ∧ (∀ fa fb ra rb args asF,
       name ra = itemName → name ra ≠ "" → name ra ≠ name rb →
       registered st !! name ra = Some fa → registered st !! name rb = Some fb →
       _inject fa = InjectList [SpecRequest rb] → isPlaceholder rb = false →
       _inject fb = InjectList [SpecRequest ra] → isPlaceholder ra = false →
       hasSingleton st (name ra) = false → hasSingleton st (name rb) = false →
       resolve body st (VStr itemName) args asF =
       (throw (buildErrorWithStack
                 ("FactoryDI Resolve Error: Cyclic dependency '" +:+ itemName
                  +:+ "' found while resolving dependency path.")
                 (addToHistory (addToHistory [] itemName (Some fa)) (name rb) (Some fb)
                  ++ [bareRecord itemName]) false),
        st)).
Proof.
  split; [|split; [|split]].
  - intros hist dn. apply isCyclic_spec.
  - intros args hist o f pre r post evs ds Hc Hreg Hinj newH Hpre Hp Hcyc Hdc.
    by eapply resolveFactory_cyclic_uncached.
  - intros args hist pre r evs ds Hpre Hp Hc.
    apply injectDependency_cached; [done..|].
    eapply injectDependencies_extends; [|exact Hpre].
    apply resolveFactory_extends.
  - intros fa fb ra rb args asF <- Hne Hab Hrega Hregb Hinja Hpb Hinjb Hpa Hca Hcb.
    by apply resolve_mutual_cycle.
Qed.

Lemma cyclic_dependency_detection_witness :
  resolveFactory exampleBody 2 cycleContainer "b" None
    (Some (addToHistory [] "a" (Some aRegistered))) None
  = ([], Throw (buildErrorWithStack
                  "FactoryDI Resolve Error: Cyclic dependency 'a' found while resolving dependency path."
                  (addToHistory (addToHistory [] "a" (Some aRegistered)) "b"
                     (Some bRegistered) ++ [bareRecord "a"]) false))
  ∧ injectDependency exampleBody (resolveFactory exampleBody 2) cachedCycleContainer
      "b" ∅ (addToHistory (addToHistory [] "a" (Some aRegistered)) "b" (Some bRegistered))
      cachedCycleContainer (SpecRequest (request "a"))
    = ret (VNum 1, cachedCycleContainer)
  ∧ resolve exampleBody cycleContainer (VStr "a") None false
    = (throw (buildErrorWithStack
                "FactoryDI Resolve Error: Cyclic dependency 'a' found while resolving dependency path."
                (addToHistory (addToHistory [] "a" (Some aRegistered)) "b"
                   (Some bRegistered) ++ [bareRecord "a"]) false),
       cycleContainer).
Proof.
  split; [|split].
  - destruct (cyclic_dependency_detection exampleBody 1 cycleContainer "b")
      as (_ & Hraise & _ & _).
    apply (Hraise None (Some (addToHistory [] "a" (Some aRegistered))) None
             bRegistered [] (request "a") [] [] ([], cycleContainer));
      vm_compute; reflexivity.
  - destruct (cyclic_dependency_detection exampleBody 1 cachedCycleContainer "b")
      as (_ & _ & Hcached & _).
    apply (Hcached ∅ (addToHistory (addToHistory [] "a" (Some aRegistered)) "b"
                        (Some bRegistered))
             [] (request "a") [] ([], cachedCycleContainer));
      vm_compute; reflexivity.
  - destruct (cyclic_dependency_detection exampleBody 1 cycleContainer "a")
      as (_ & _ & _ & Hmutual).
    apply (Hmutual aRegistered bRegistered (request "a") (request "b") None false);
      vm_compute; try reflexivity; discriminate.
Defined.

(** C3.  A cyclic dependency that is cached as the value [0].  In
    [zeroCachedCycleContainer] the singleton cache holds [a] with the value
    [0], [a] depends on [b] and [b] on [a].  Resolving [a] throws the
    cyclic-dependency error naming [a], and so does the resolution of [b]
    under the ancestor [a], although [a] is in the cache.  In
    [cachedCycleContainer], where the cache holds [a] with the value [1], the
    same resolution of [b] under the ancestor [a] does not raise: [b] is
    bound to the cached [1]. *)
Theorem cached_falsy_cyclic_dependency_raises (body : Bodies) :
  singletons zeroCachedCycleContainer !! "a" = Some (VNum 0)
  ∧ resolve body zeroCachedCycleContainer (VStr "a") None false
    = (throw (buildErrorWithStack
                "FactoryDI Resolve Error: Cyclic dependency 'a' found while resolving dependency path."
                [bareRecord "a"; bareRecord "b"; bareRecord "a"] false),
       zeroCachedCycleContainer)
  ∧ resolveFactory body 2 zeroCachedCycleContainer "b" None
      (Some [bareRecord "a"]) None
    = throw (buildErrorWithStack
               "FactoryDI Resolve Error: Cyclic dependency 'a' found while resolving dependency path."
               [bareRecord "a"; bareRecord "b"; bareRecord "a"] false)
  ∧ singletons cachedCycleContainer !! "a" = Some (VNum 1)
  ∧ resolveFactory body 2 cachedCycleContainer "b" None (Some [bareRecord "a"]) None
    = ret {| resolvedFactory :=
               set_placeholderArgs (Some [])
                 (plainFunction (Partial bRegistered [VNum 1]));
             history := [bareRecord "a"; bareRecord "b"];
             state := cachedCycleContainer |}.
Proof.
  repeat split; vm_compute; reflexivity.
Qed.

(** C1.  The code at two inputs where the body of a singleton factory runs
    more than once.  In [serviceContainer] the singleton [db] is a dependency
    of [service], which is not a singleton: [resolveFactory] returns the state
    it was given for [service], the entry of [db] is lost, and each
    [resolve('service')] runs the body of [db] again.  In [zeroContainer] the
    singleton [zero] produces [0]: the entry is stored, but the resolver's test
    of the cache is that of a truthy value, and each [resolve('zero')] runs
    the body again. *)
Theorem singleton_body_runs_again :
  (let first := resolve exampleBody serviceContainer (VStr "service") None false in
   let second := resolve exampleBody (snd first) (VStr "service") None false in
   events (fst first) = [Invoked (call dbFactory); Invoked (call serviceFactory)]
   ∧ singletons (snd first) !! "db" = None
   ∧ events (fst second) = [Invoked (call dbFactory); Invoked (call serviceFactory)])
  ∧ (let first := resolve exampleBody zeroContainer (VStr "zero") None false in
     let second := resolve exampleBody (snd first) (VStr "zero") None false in
     events (fst first) = [Invoked (ItemFn (VNum 0))]
     ∧ singletons (snd first) !! "zero" = Some (VNum 0)
     ∧ events (fst second) = [Invoked (ItemFn (VNum 0))]).
Proof. vm_compute. repeat split; reflexivity. Qed.

Lemma curryFactory_singleton factory curryArgs :
  _singleton (curryFactory factory curryArgs) = _singleton factory.
Proof.
  unfold curryFactory.
  destruct (truthy (_filename factory)), (truthy (__registerSourceFile factory)),
    (_singleton factory); reflexivity.
Qed.

(** For an item that is not a singleton, [resolveFactory] returns the state it
    was given, whatever the resolution of the dependencies added to it. *)
Lemma resolveFactory_non_singleton_state body fuel st n args h o f evs r :
  hasSingleton st n = false → registered st !! n = Some f → _singleton f = false →
  resolveFactory body fuel st n args h o = (evs, Ok r) → state r = st.
Proof.
  intros Hc Hreg Hs. destruct fuel as [|fuel]; [discriminate|].
  simpl. rewrite Hc, (lookupFactory_own _ _ _ Hreg), mbind_unfold. intros H. inv_bind H.
  assert (_singleton (injected_factory a) = false) as Hs'.
  { unfold dependencyInjectFactory in Hm.
    destruct (_inject f) as [| |[|injectItem rest]|];
      try (by injection Hm as _ <-).
    rewrite mbind_unfold in Hm. inv_bind Hm. injection Hk0 as _ <-.
    cbn [injected_factory]. by rewrite curryFactory_singleton. }
  rewrite Hs' in Hk. by injection Hk as _ <-.
Qed.

(** C2.  The code at [serviceContainer]: resolving [service], which is not a
    singleton, materializes the singleton [db]; the loop over the dependencies
    hands back a state that holds the new entry, and [resolveFactory] returns
    the state it was given, without it. *)
Theorem nested_singleton_not_in_returned_state :
  ∃ evs r registeredFactory d,
    resolveFactory exampleBody (resolveFuel serviceContainer) serviceContainer
      "service" None None None = (evs, Ok r)
    ∧ In (Invoked (call dbFactory)) evs
    ∧ registered serviceContainer !! "service" = Some registeredFactory
    ∧ dependencyInjectFactory exampleBody
        (resolveFactory exampleBody (S (size (registered serviceContainer))))
        serviceContainer registeredFactory "service" ∅
        (addToHistory [] "service" (Some registeredFactory))
      = ([Invoked (call dbFactory)], Ok d)
    ∧ singletons (injected_state d) !! "db" = Some (exampleBody 3 [])
    ∧ singletons (state r) !! "db" = None
    ∧ state r = serviceContainer.
Proof.
  eexists _, _, _, _. split; [vm_compute; reflexivity|].
  cbn [state resolvedFactory history].
  split; [by left|]. split; [vm_compute; reflexivity|].
  split; [vm_compute; reflexivity|].
  cbn [injected_state]. repeat split; vm_compute; reflexivity.
Qed.

(** C4, the claim at [serviceContainer]: the resolution of [service] visits
    [db] in a nested resolution (the body of [db] runs), and the history it
    returns holds the record of [service] alone. *)
Lemma history_omits_nested_resolutions :
  ∃ evs r,
    resolveFactory exampleBody (resolveFuel serviceContainer) serviceContainer
      "service" None None None = (evs, Ok r)
    ∧ In (Invoked (call dbFactory)) evs
    ∧ record_name <$> history r = ["service"]
    ∧ inHistory (history r) "db" = false.
Proof.
  eexists _, _. split; [vm_compute; reflexivity|].
  cbn [history]. split; [by left|]. split; vm_compute; reflexivity.
Qed.

Section NestedHistory.

Variable body : Bodies.
Variable rec : InjectorState → string → option ResolveArgs →
               option (list HistoryRecord) → option ResolveOptions → M ResolveResult.

(** The loop over [$inject] hands every nested resolution the same history,
    the one of the item being resolved. *)
Lemma injectDependencies_same_history st0 itemName args hist inject : ∀ updated,
  injectDependencies body rec st0 itemName args hist inject updated
  = injectDependencies body (λ st' n' a' _ o', rec st' n' a' (Some hist) o')
      st0 itemName args hist inject updated.
Proof.
  induction inject as [|injectItem rest IH]; intros updated; [reflexivity|].
  cbn [injectDependencies].
  change (injectDependency body (λ st' n' a' _ o', rec st' n' a' (Some hist) o')
            st0 itemName args hist updated injectItem)
    with (injectDependency body rec st0 itemName args hist updated injectItem).
  destruct (injectDependency body rec st0 itemName args hist updated injectItem)
    as [evs [d| |]]; try reflexivity.
  rewrite !mbind_unfold. simpl. by rewrite IH.
Qed.

End NestedHistory.

(** C4, amended.  The history a resolution returns is the history it was
    given followed by one record, that of the resolved item itself; and every
    nested resolution of a dependency is handed the history of the item being
    resolved, whatever the dependencies before it visited. *)
Theorem returned_history_is_the_ancestor_path body fuel st itemName args hist o evs r :
  resolveFactory body fuel st itemName args hist o = (evs, Ok r) →
  (∃ record,
     history r = default [] hist ++ [record]
     ∧ record_name record = itemName
     ∧ [record] = addToHistory [] itemName (Some (recordedFactory st itemName)))
  ∧ (∀ rec factory resolveArgs resolveHistory,
       dependencyInjectFactory body rec st factory itemName resolveArgs resolveHistory
       = dependencyInjectFactory body
           (λ st' n' a' _ o', rec st' n' a' (Some resolveHistory) o')
           st factory itemName resolveArgs resolveHistory).
Proof.
  intros Hres. split.
  - apply resolveFactory_history in Hres. rewrite Hres. unfold addToHistory.
    eexists. split; [reflexivity|]. split; reflexivity.
  - intros rec factory resolveArgs resolveHistory. unfold dependencyInjectFactory.
    destruct (_inject factory) as [| |[|injectItem rest]|]; try reflexivity.
    by rewrite injectDependencies_same_history.
Qed.

Lemma returned_history_is_the_ancestor_path_witness :
  ∃ r record,
    result (resolveFactory exampleBody (resolveFuel serviceContainer) serviceContainer
              "service" None None None) = Ok r
    ∧ history r = [record] ∧ record_name record = "service".
Proof.
  destruct (returned_history_is_the_ancestor_path exampleBody
              (resolveFuel serviceContainer) serviceContainer "service" None None None
              (events (resolveFactory exampleBody (resolveFuel serviceContainer)
                         serviceContainer "service" None None None))
              (match result (resolveFactory exampleBody (resolveFuel serviceContainer)
                               serviceContainer "service" None None None) with
               | Ok r => r
               | _ => {| resolvedFactory := getFactoryForUndefined; history := [];
                         state := serviceContainer |}
               end))
    as [(record & Hhist & Hname & _) _].
  { vm_compute. reflexivity. }
  eexists _, record. split; [vm_compute; reflexivity|]. split; [|exact Hname].
  exact Hhist.
Defined.

(** ** The parser of injection requests *)

Lemma append_cons a s t : String a s +:+ t = String a (s +:+ t).
Proof. reflexivity. Qed.

Lemma dropPrefix_app p x : dropPrefix p (p +:+ x) = Some x.
Proof.
  induction p as [|a p IH]; [by destruct x|].
  rewrite ?append_cons. cbn [dropPrefix]. by rewrite Ascii.eqb_refl.
Qed.

Lemma spanUntil_app c s rest :
  allChars (λ a, negb (Ascii.eqb a c)) s = true →
  spanUntil c (s +:+ String c rest) = (s, Some rest).
Proof.
  induction s as [|a s IH]; cbn [allChars].
  - intros _. change ("" +:+ String c rest) with (String c rest).
    cbn [spanUntil]. by rewrite Ascii.eqb_refl.
  - intros [Ha Hs]%andb_true_iff. rewrite ?append_cons. cbn [spanUntil].
    apply negb_true_iff in Ha. rewrite Ha, (IH Hs). reflexivity.
Qed.

Lemma allChars_impl (p q : ascii → bool) s :
  (∀ a, p a = true → q a = true) → allChars p s = true → allChars q s = true.
Proof.
  intros Hpq. induction s as [|a s IH]; simpl; [done|].
  intros [Ha Hs]%andb_true_iff. by rewrite (Hpq a Ha), (IH Hs).
Qed.

Lemma allChars_app p s t :
  allChars p (s +:+ t) = allChars p s && allChars p t.
Proof.
  induction s as [|a s IH]; [reflexivity|].
  rewrite ?append_cons. cbn [allChars]. by rewrite IH, andb_assoc.
Qed.

Lemma isNameChar_not c :
  isNameChar c = false → ∀ a, isNameChar a = true → negb (Ascii.eqb a c) = true.
Proof.
  intros Hc a Ha. apply negb_true_iff, Ascii.eqb_neq. intros ->. congruence.
Qed.

Lemma split_not_nil c s : split c s ≠ [].
Proof.
  destruct s as [|a s]; simpl; [done|].
  destruct (Ascii.eqb a c); [done|]. by destruct (split c s).
Qed.

Lemma split_cons_length c a s :
  Ascii.eqb a c = false → length (split c (String a s)) = length (split c s).
Proof.
  intros Ha. simpl. rewrite Ha.
  destruct (split c s) eqn:Hs; [by apply split_not_nil in Hs|reflexivity].
Qed.

Lemma split_app_length c s1 s2 :
  allChars (λ a, negb (Ascii.eqb a c)) s1 = true →
  length (split c (s1 +:+ String c s2)) = S (length (split c s2)).
Proof.
  induction s1 as [|a s1 IH]; cbn [allChars].
  - intros _. change ("" +:+ String c s2) with (String c s2). cbn [split].
    by rewrite Ascii.eqb_refl.
  - intros [Ha Hs]%andb_true_iff. apply negb_true_iff in Ha.
    rewrite ?append_cons, split_cons_length by done. by apply IH.
Qed.

Lemma split_no_separator_length c s :
  allChars (λ a, negb (Ascii.eqb a c)) s = true → length (split c s) = 1.
Proof.
  induction s as [|a s IH]; simpl; [done|].
  intros [Ha Hs]%andb_true_iff. apply negb_true_iff in Ha. rewrite Ha.
  specialize (IH Hs). destruct (split c s) as [|? [|]]; simpl in *; congruence.
Qed.

Lemma isPlainName_chars c s :
  isNameChar c = false → isPlainName s = true →
  allChars (λ a, negb (Ascii.eqb a c)) s = true.
Proof.
  intros Hc [_ Hs]%andb_true_iff. eapply allChars_impl; [|exact Hs].
  by apply isNameChar_not.
Qed.

Lemma join_plain_chars c params :
  isNameChar c = false → Ascii.eqb ","%char c = false → Ascii.eqb " "%char c = false →
  forallb isPlainName params = true →
  allChars (λ a, negb (Ascii.eqb a c)) (join ", " params) = true.
Proof.
  intros Hc Hcomma Hspace.
  induction params as [|p [|q rest] IH]; [done|..].
  - cbn [forallb join]. intros [Hp _]%andb_true_iff. by apply isPlainName_chars.
  - intros [Hp Hrest]%andb_true_iff.
    change (join ", " (p :: q :: rest))
      with (p +:+ String ","%char (String " "%char (join ", " (q :: rest)))).
    rewrite allChars_app, (isPlainName_chars c p Hc Hp). cbn [allChars].
    rewrite Hcomma, Hspace. cbn [negb andb]. by apply IH.
Qed.

Lemma join_plain_split_length params :
  params ≠ [] → forallb isPlainName params = true →
  length (split ","%char (join ", " params)) = length params.
Proof.
  induction params as [|p [|q rest] IH]; [done|..]; intros _.
  - simpl. intros [Hp _]%andb_true_iff.
    by apply split_no_separator_length, isPlainName_chars.
  - intros [Hp Hrest]%andb_true_iff.
    change (join ", " (p :: q :: rest))
      with (p +:+ String ","%char (String " "%char (join ", " (q :: rest)))).
    rewrite split_app_length by by apply isPlainName_chars.
    rewrite split_cons_length by done.
    rewrite IH by done. reflexivity.
Qed.

Lemma join_plain_nonempty p params :
  isPlainName p = true → join ", " (p :: params) ≠ "".
Proof.
  intros [Hp _]%andb_true_iff. apply negb_true_iff, String.eqb_neq in Hp.
  destruct p as [|a p]; [done|]. by destruct params.
Qed.

(** On a plain signature the count the parser expects is the number of formal
    parameters. *)
Lemma plainSignature_expectedArgsCount head params rest :
  allChars (λ a, negb (Ascii.eqb a "("%char)) head = true →
  forallb isPlainName params = true →
  matchFunctionArguments (plainSignature head params rest) = Some (join ", " params)
  ∧ expectedArgsCount (join ", " params) = length params.
Proof.
  intros Hhead Hparams. split.
  - unfold matchFunctionArguments, plainSignature.
    rewrite dropPrefix_app.
    change ("(" +:+ join ", " params +:+ ")" +:+ rest)
      with (String "("%char (join ", " params +:+ String ")"%char rest)).
    rewrite spanUntil_app by done. simpl.
    rewrite spanUntil_app; [done|].
    by apply join_plain_chars.
  - unfold expectedArgsCount. destruct params as [|p params]; [reflexivity|].
    pose proof Hparams as [Hp _]%andb_true_iff.
    pose proof (join_plain_nonempty p params Hp) as Hne.
    apply String.eqb_neq in Hne. rewrite Hne.
    by apply join_plain_split_length.
Qed.

Lemma parseFactoryInjectionArguments_cases factory :
  (∃ injectionRequests, parseFactoryInjectionArguments factory = ret injectionRequests)
  ∨ (∃ msg, parseFactoryInjectionArguments factory = throw (templateError msg)).
Proof.
  unfold parseFactoryInjectionArguments.
  destruct (_inject factory) as [| |inject|]; try (right; eexists; reflexivity).
  destruct (fold_left _ _ _) as [[|i invalidIndexes] injectionRequests];
    [left|right]; eexists; reflexivity.
Qed.

Lemma nat_eqb_false n m : n ≠ m → Nat.eqb n m = false.
Proof. apply Nat.eqb_neq. Qed.

(** X25.  A factory with an explicit dependency list: when parsing succeeds,
    the number of parsed requests is the number the parser reads off the
    signature ([expectedArgsCount] of the argument text: the number of its
    comma-separated pieces); when the requests parse and the two numbers
    differ, parsing throws the count-mismatch error, whose message gives both
    numbers; when they agree, parsing yields the requests.  On a plain
    signature the number read off is the number of formal parameters. *)
Theorem explicit_inject_count_checked factory itemName registerHistory inject :
  _inject factory = InjectList inject →
  (∀ evs injectionArgs,
     parseFactoryInject factory itemName registerHistory = (evs, Ok injectionArgs) →
     parseFactoryInjectionArguments factory = ret injectionArgs
     ∧ ∃ arguments,
         matchFunctionArguments (functionToString factory) = Some arguments
         ∧ length injectionArgs = expectedArgsCount arguments)
  ∧ (∀ injectionArgs arguments,
       parseFactoryInjectionArguments factory = ret injectionArgs →
       matchFunctionArguments (functionToString factory) = Some arguments →
       (length injectionArgs ≠ expectedArgsCount arguments →
        parseFactoryInject factory itemName registerHistory =
        throw (buildErrorWithStack
                 ("Factory Inject Error: Found " +:+ pretty (length injectionArgs)
                  +:+ " injected params for '" +:+ itemName +:+ "'"
                  +:+ ", but expected " +:+ pretty (expectedArgsCount arguments)
                  +:+ "."
                  +:+ " Make sure all the function arguments are represented in the factory.$inject variable.")
                 (addToHistory [] itemName (Some factory)) true))
       ∧ (length injectionArgs = expectedArgsCount arguments →
          parseFactoryInject factory itemName registerHistory = ret injectionArgs))
  ∧ (∀ head params rest,
       functionToString factory = plainSignature head params rest →
       allChars (λ a, negb (Ascii.eqb a "("%char)) head = true →
       forallb isPlainName params = true →
       matchFunctionArguments (functionToString factory) = Some (join ", " params)
       ∧ expectedArgsCount (join ", " params) = length params).
Proof.
  intros Hinj. unfold parseFactoryInject. rewrite Hinj. split; [|split].
  - intros evs injectionArgs.
    destruct (parseFactoryInjectionArguments_cases factory) as [[reqs ->]|[msg ->]];
      [|discriminate].
    rewrite mbind_unfold, bind_ret_l. unfold validateFunctionArgumentCount.
    destruct (matchFunctionArguments (functionToString factory)) as [arguments|];
      [|discriminate].
    destruct (Nat.eqb (length reqs) (expectedArgsCount arguments)) eqn:Heq;
      [|discriminate].
    intros [= _ <-]. split; [reflexivity|].
    exists arguments. split; [reflexivity|]. by apply Nat.eqb_eq.
  - intros injectionArgs arguments -> Hmatch.
    rewrite mbind_unfold, bind_ret_l. unfold validateFunctionArgumentCount.
    rewrite Hmatch. split.
    + intros Hne. by rewrite (nat_eqb_false _ _ Hne).
    + intros ->. by rewrite Nat.eqb_refl.
  - intros head params rest -> Hhead Hparams.
    by apply plainSignature_expectedArgsCount.
Qed.

Lemma explicit_inject_count_checked_witness :
  parseFactoryInject aFactory "a" [] = ret [request "b"]
  ∧ parseFactoryInject mismatchFactory "m" []
    = throw (buildErrorWithStack
               "Factory Inject Error: Found 2 injected params for 'm', but expected 1. Make sure all the function arguments are represented in the factory.$inject variable."
               (addToHistory [] "m" (Some mismatchFactory)) true)
  ∧ expectedArgsCount "b" = 1.
Proof.
  destruct (explicit_inject_count_checked aFactory "a" [] [SpecString "b"] eq_refl)
    as (_ & Hcount & Hplain).
  destruct (explicit_inject_count_checked mismatchFactory "m" []
              [SpecString "b"; SpecString "c"] eq_refl) as (_ & Hmismatch & _).
  split; [|split].
  - destruct (Hcount [request "b"] "b") as [_ Hok]; [vm_compute; reflexivity..|].
    by apply Hok.
  - destruct (Hmismatch [request "b"; request "c"] "b") as [Hne _];
      [vm_compute; reflexivity..|].
    apply Hne. discriminate.
  - destruct (Hplain " aFactory" ["b"] " { return {a: true, ...b}; }")
      as [_ Hlen]; [vm_compute; reflexivity..|].
    exact Hlen.
Defined.

(** C7.  The signature [function pair(left, right,) {}] declares two formal
    parameters.  An explicit list of two dependencies is refused with the
    count-mismatch error, which gives 2 as the injected count and 3 as the
    expected one; an explicit list of three dependencies is accepted.  When
    the parameters are inferred from the same signature, the piece after the
    last comma is skipped and two requests are made. *)
Theorem trailing_comma_miscounts_parameters :
  parseFactoryInject (pairFactory (InjectList [SpecString "left"; SpecString "right"]))
    "pair" []
  = throw (buildErrorWithStack
             "Factory Inject Error: Found 2 injected params for 'pair', but expected 3. Make sure all the function arguments are represented in the factory.$inject variable."
             [bareRecord "pair"] true)
  ∧ parseFactoryInject
      (pairFactory (InjectList [SpecString "left"; SpecString "right"; SpecString "extra"]))
      "pair" []
    = ret [request "left"; request "right"; request "extra"]
  ∧ parseFactoryInject (pairFactory InjectUnset) "pair" []
    = ret [placeholderRequest "left"; placeholderRequest "right"].
Proof.
  repeat split; vm_compute; reflexivity.
Qed.

(** ** The registrar *)

Lemma stampFactory_registerSourceFile st factory options :
  __registerSourceFile (stampFactory st factory options) =
  if truthy (opt_registerSourceFile options) then opt_registerSourceFile options
  else if truthy (meta_registerSourceFile (meta st)) then meta_registerSourceFile (meta st)
  else VUndefined.
Proof.
  unfold stampFactory.
  destruct (truthy (opt_registerSourceFile options)),
    (truthy (meta_registerSourceFile (meta st))),
    (truthy (opt_filename options)), (opt_forceSingleton options), factory;
    reflexivity.
Qed.

(** C8.  The registration source stamped on the factory is the option
    [registerSourceFile] when it is given (truthy), else the label of the
    container when it is set (truthy), else [undefined].  When tracing is not
    disabled, by the option or by the flag of the container, a registration
    with no registration source throws; one with a registration source and no
    [$filename] logs a warning and goes on to parse and store the factory.
    When tracing is disabled the factory is neither checked nor warned
    about. *)
Theorem registration_source_and_tracing st itemName factory options :
  let stamped := stampFactory st factory options in
  let registerHistory := addToHistory [] itemName (Some stamped) in
  let tracing :=
    negb (opt_skipTraceErrors options) && negb (meta_skipTraceErrors (meta st)) in
  __registerSourceFile stamped =
    (if truthy (opt_registerSourceFile options) then opt_registerSourceFile options
     else if truthy (meta_registerSourceFile (meta st))
          then meta_registerSourceFile (meta st)
          else VUndefined)
  ∧ (tracing = true → truthy (__registerSourceFile stamped) = false →
     registerFactory st itemName factory options =
       ((if truthy (_filename stamped) then []
         else [ConsoleLog (noFilenameWarning itemName)]),
        Throw (buildErrorWithStack (noRegisterSourceMessage itemName)
                 registerHistory false)))
  ∧ (tracing = true → truthy (__registerSourceFile stamped) = true →
     truthy (_filename stamped) = false →
     validateFactory stamped itemName registerHistory
       = ([ConsoleLog (noFilenameWarning itemName)], Ok tt)
     ∧ registerFactory st itemName factory options =
         (ConsoleLog (noFilenameWarning itemName)
            :: events (storeFactory st itemName stamped registerHistory),
          result (storeFactory st itemName stamped registerHistory)))
  ∧ (tracing = false →
     registerFactory st itemName factory options
     = storeFactory st itemName stamped registerHistory).
Proof.
  intros stamped registerHistory tracing.
  split; [apply stampFactory_registerSourceFile|].
  unfold registerFactory. fold stamped. fold registerHistory. fold tracing.
  split; [|split].
  - intros -> Hsrc. unfold validateFactory. rewrite Hsrc.
    by destruct (truthy (_filename stamped)).
  - intros -> Hsrc Hfile. unfold validateFactory. rewrite Hsrc, Hfile. simpl.
    split; [reflexivity|]. by destruct (storeFactory _ _ _ _).
  - intros ->. rewrite mbind_unfold. exact (bind_ret_l tt _).
Qed.

Lemma registration_source_and_tracing_witness :
  result (registerFactory newContainer "db" dbFactory noOptions)
  = Throw (buildErrorWithStack (noRegisterSourceMessage "db")
             (addToHistory [] "db"
                (Some (stampFactory newContainer dbFactory noOptions))) false)
  ∧ events (registerFactory (snd (setRegisterSource newContainer (VStr "app.js")))
              "db" dbFactory noOptions)
    = [ConsoleLog (noFilenameWarning "db")]
  ∧ events (registerFactory getDiInstance "db" dbFactory noOptions) = [].
Proof.
  split; [|split].
  - destruct (registration_source_and_tracing newContainer "db" dbFactory noOptions)
      as (_ & Hthrow & _ & _).
    rewrite Hthrow; vm_compute; reflexivity.
  - destruct (registration_source_and_tracing
                (snd (setRegisterSource newContainer (VStr "app.js")))
                "db" dbFactory noOptions) as (_ & _ & Hwarn & _).
    destruct Hwarn as [_ ->]; vm_compute; reflexivity.
  - destruct (registration_source_and_tracing getDiInstance "db" dbFactory noOptions)
      as (_ & _ & _ & Hskip).
    rewrite Hskip; vm_compute; reflexivity.
Defined.

(** ** The container *)

Lemma stampFactory_item st v :
  isFunction v = false →
  stampFactory st (safeFactoryOf v) noOptions =
  Factory (ItemFn v) InjectUnset PlaceholdersUnset true
    (js_or (getProp v "$filename") VUndefined)
    (js_or (meta_registerSourceFile (meta st)) VUndefined) None false false.
Proof.
  intros Hv.
  assert (safeFactoryOf v
          = Factory (ItemFn v) InjectUnset PlaceholdersUnset true
              (js_or (getProp v "$filename") VUndefined) VUndefined None false false)
    as ->.
  { unfold safeFactoryOf. rewrite Hv.
    assert ((if truthy v && truthy (getProp v "$filename")
             then set_filename (getProp v "$filename")
                    (set_singleton true (plainFunction (ItemFn v)))
             else set_singleton true (plainFunction (ItemFn v)))
            = Factory (ItemFn v) InjectUnset PlaceholdersUnset true
                (js_or (getProp v "$filename") VUndefined) VUndefined None false false)
      as ->.
    { unfold js_or. destruct (truthy (getProp v "$filename")) eqn:Hf.
      - destruct v as [| |b|n|s|props| |f]; try discriminate. reflexivity.
      - rewrite andb_false_r. reflexivity. }
    by destruct v. }
  unfold stampFactory, js_or. cbn [noOptions opt_forceSingleton
    opt_filename opt_registerSourceFile truthy].
  by destruct (truthy (meta_registerSourceFile (meta st))).
Qed.

Lemma storeFactory_item st itemName v fn src registerHistory :
  storeFactory st itemName
    (Factory (ItemFn v) InjectUnset PlaceholdersUnset true fn src None false false)
    registerHistory
  = ret {| registered :=
             <[itemName := Factory (ItemFn v) (InjectList []) PlaceholdersUnset true
                             fn src None false false]> (registered st);
           singletons := singletons st;
           meta := meta st |}.
Proof. reflexivity. Qed.

Lemma truthy_js_or_undefined v : truthy (js_or v VUndefined) = truthy v.
Proof. unfold js_or. by destruct (truthy v) eqn:Hv. Qed.

(** Registering a value that is not a function, with no options. *)
Lemma register_item st itemName v :
  isFunction v = false → itemName ≠ "" →
  meta_skipTraceErrors (meta st) = true
  ∨ truthy (meta_registerSourceFile (meta st)) = true →
  let itemFactory :=
    Factory (ItemFn v) (InjectList []) PlaceholdersUnset true
      (js_or (getProp v "$filename") VUndefined)
      (js_or (meta_registerSourceFile (meta st)) VUndefined) None false false in
  ∃ evs,
    register st (VStr itemName) v None =
    (evs, Ok {| registered := <[itemName := itemFactory]> (registered st);
                singletons := singletons st;
                meta := meta st |}).
Proof.
  intros Hv Hne Htrace itemFactory. unfold register.
  rewrite checkItemName_string, mbind_unfold, bind_ret_l by done.
  unfold registerFactory. cbn [default]. rewrite stampFactory_item by done.
  rewrite storeFactory_item. cbn [noOptions opt_skipTraceErrors negb andb].
  destruct (meta_skipTraceErrors (meta st)) eqn:Hskip.
  - eexists. reflexivity.
  - destruct Htrace as [?|Hsrc]; [done|].
    unfold validateFactory. cbn [_filename __registerSourceFile].
    rewrite !truthy_js_or_undefined, Hsrc. cbn [negb].
    destruct (truthy (getProp v "$filename")); eexists; reflexivity.
Qed.

(** Resolving an item whose registered factory is the wrapper of a value,
    when the resolver finds no singleton under its name. *)
Lemma resolve_item body st itemName v fn src args :
  itemName ≠ "" → hasSingleton st itemName = false →
  registered st !! itemName
    = Some (Factory (ItemFn v) (InjectList []) PlaceholdersUnset true fn src
              None false false) →
  resolve body st (VStr itemName) args false
  = (([Invoked (ItemFn v)], Ok v), withSingleton st itemName v).
Proof.
  intros Hne Hc Hreg. unfold resolve, resolveFuel.
  rewrite checkItemName_string by done. unfold ret.
  cbn [resolveFactory]. rewrite Hc, (lookupFactory_own _ _ _ Hreg).
  cbn [dependencyInjectFactory _inject]. rewrite mbind_unfold, bind_ret_l.
  cbn [injected_factory injected_state _singleton].
  cbn [runFactory __placeholderArgs applyFactory].
  unfold resolveSingletonAsFactory, jsLookup. cbn [withSingleton singletons].
  change (emit (Invoked (ItemFn v)) ≫= λ _ : (), mret v)
    with (([Invoked (ItemFn v)], Ok v) : M value).
  rewrite mbind_unfold. cbn [bind mret M_ret ret resolvedFactory history state app].
  rewrite lookup_insert_eq. reflexivity.
Qed.

(** C9, the claim at three inputs.  In a container where [x] was registered
    as [1] and resolved, [register('x', 2)] succeeds and the next
    [resolve('x')] returns [1], the singleton cached before.  In a new
    container, where tracing is enabled and no registration source is set,
    [register('x', 5)] throws.  With the empty string for a name,
    [register('', 5)] throws. *)
Lemma register_then_resolve_counterexample :
  (let st := resolveIn (registerIn getDiInstance "x" (VNum 1)) "x" in
   ∃ st',
     register st (VStr "x") (VNum 2) None = ([], Ok st')
     ∧ fst (resolve exampleBody st' (VStr "x") None false) = ret (VNum 1))
  ∧ (∃ evs,
       register newContainer (VStr "x") (VNum 5) None
       = (evs, Throw (buildErrorWithStack (noRegisterSourceMessage "x")
                        (addToHistory [] "x" (Some (safeFactoryOf (VNum 5)))) false)))
  ∧ register getDiInstance (VStr "") (VNum 5) None
    = throw (newError "FactoryDI Register Error: No item name given.").
Proof.
  split; [|split].
  - eexists. split; vm_compute; reflexivity.
  - eexists. vm_compute. reflexivity.
  - vm_compute. reflexivity.
Qed.

(** C9, amended.  In a container where registrations are admitted (tracing is
    disabled, or a registration source is set) and whose singleton cache has
    no entry under the name, registering a value that is not a function under
    a non-empty name that is not the name of a member every object inherits
    stores a wrapper factory that is a singleton, has no dependencies and
    carries the [$filename] of the value when it has one; the next [resolve]
    of the name runs the wrapper and returns the value. *)
Theorem register_then_resolve_value body st itemName v args :
  isFunction v = false → itemName ≠ "" →
  inheritedMember itemName = None →
  singletons st !! itemName = None →
  meta_skipTraceErrors (meta st) = true
  ∨ truthy (meta_registerSourceFile (meta st)) = true →
  ∃ evs st' itemFactory,
    register st (VStr itemName) v None = (evs, Ok st')
    ∧ registered st' !! itemName = Some itemFactory
    ∧ call itemFactory = ItemFn v
    ∧ _singleton itemFactory = true
    ∧ _inject itemFactory = InjectList []
    ∧ _filename itemFactory = js_or (getProp v "$filename") VUndefined
    ∧ resolve body st' (VStr itemName) args false
      = (([Invoked (ItemFn v)], Ok v), withSingleton st' itemName v).
Proof.
  intros Hv Hne Hinh Hc Htrace.
  destruct (register_item st itemName v Hv Hne Htrace) as [evs Hreg].
  eexists evs, _, _. split; [exact Hreg|].
  cbn [registered]. split; [apply lookup_insert_eq|].
  repeat (split; [reflexivity|]).
  eapply resolve_item; [done|by apply hasSingleton_None|].
  cbn [registered]. apply lookup_insert_eq.
Qed.

Lemma register_then_resolve_value_witness :
  ∃ evs st',
    register getDiInstance (VStr "test") (VStr "testString") None = (evs, Ok st')
    ∧ resolve exampleBody st' (VStr "test") None false
      = (([Invoked (ItemFn (VStr "testString"))], Ok (VStr "testString")),
         withSingleton st' "test" (VStr "testString")).
Proof.
  destruct (register_then_resolve_value exampleBody getDiInstance "test"
              (VStr "testString") None)
    as (evs & st' & itemFactory & Hreg & _ & _ & _ & _ & _ & Hres).
  - reflexivity.
  - discriminate.
  - vm_compute. reflexivity.
  - vm_compute. reflexivity.
  - left. vm_compute. reflexivity.
  - exists evs, st'. split; [exact Hreg|exact Hres].
Defined.






(** * Further properties *)

(** ** Termination in every container *)






(** ** What a resolution does to the state *)

Lemma dependencyInjectFactory_singleton body rec st factory itemName args hist evs d :
  dependencyInjectFactory body rec st factory itemName args hist = (evs, Ok d) →
  _singleton (injected_factory d) = _singleton factory.
Proof.
  unfold dependencyInjectFactory.
  destruct (_inject factory) as [| |[|injectItem rest]|];
    try (by intros [= _ <-]).
  rewrite mbind_unfold. intros H. inv_bind H. injection Hk as _ <-.
  apply curryFactory_singleton.
Qed.

Section StateInvariant.

Variable body : Bodies.

(** A relation between the state a resolution is given and the states it
    goes through, kept by the only change a resolution makes: storing the
    instance of a registered item the resolver found no singleton for. *)
Variable R : InjectorState → InjectorState → Prop.
Hypothesis R_refl : ∀ st, R st st.
Hypothesis R_trans : ∀ st1 st2 st3, R st1 st2 → R st2 st3 → R st1 st3.
Hypothesis R_withSingleton : ∀ st st' itemName registeredFactory v,
  R st st' → hasSingleton st itemName = false →
  registered st !! itemName = Some registeredFactory →
  R st (withSingleton st' itemName v).

Section Loop.

Variable rec : InjectorState → string → option ResolveArgs →
               option (list HistoryRecord) → option ResolveOptions → M ResolveResult.
Hypothesis rec_R : ∀ st n args h o evs r,
  rec st n args h o = (evs, Ok r) → R st (state r).

Lemma injectDependency_R st0 itemName args hist updated injectItem evs d :
  injectDependency body rec st0 itemName args hist updated injectItem = (evs, Ok d) →
  R updated (snd d).
Proof.
  unfold injectDependency.
  destruct (spec_isPlaceholder injectItem).
  { intros [= _ <-]. apply R_refl. }
  destruct (_ && _); [discriminate|].
  rewrite mbind_unfold. intros H. inv_bind H. apply rec_R in Hm.
  destruct (spec_asFactory injectItem).
  - injection Hk as _ <-. exact Hm.
  - rewrite mbind_unfold in Hk. inv_bind Hk. injection Hk0 as _ <-. exact Hm.
Qed.

Lemma injectDependencies_R st0 itemName args hist inject : ∀ updated evs ds,
  injectDependencies body rec st0 itemName args hist inject updated = (evs, Ok ds) →
  R updated (snd ds).
Proof.
  induction inject as [|injectItem rest IH]; intros updated evs ds; simpl.
  { intros [= _ <-]. apply R_refl. }
  rewrite mbind_unfold. intros H. inv_bind H.
  rewrite mbind_unfold in Hk. inv_bind Hk. injection Hk0 as _ <-. simpl.
  eapply R_trans; [eapply injectDependency_R|eapply IH]; eauto.
Qed.

End Loop.

Lemma resolveFactory_R fuel : ∀ st n args h o evs r,
  resolveFactory body fuel st n args h o = (evs, Ok r) → R st (state r).
Proof.
  induction fuel as [|fuel IH]; intros st n args h o evs r; [discriminate|].
  simpl. destruct (hasSingleton st n) eqn:Hc.
  { intros [= _ <-]. apply R_refl. }
  destruct (lookupFactory (registered st) n) as [registeredFactory|] eqn:Hreg.
  2: { destruct (from_option resolve_isOptional false o); [|discriminate].
       intros [= _ <-]. apply R_refl. }
  rewrite mbind_unfold. intros H. inv_bind H.
  assert (R st (injected_state a)) as Hdeps.
  { unfold dependencyInjectFactory in Hm.
    destruct (_inject registeredFactory) as [| |[|injectItem rest]|];
      try (injection Hm as _ <-; apply R_refl).
    rewrite mbind_unfold in Hm. inv_bind Hm. injection Hk0 as _ <-. simpl.
    eapply injectDependencies_R; [exact IH|exact Hm0]. }
  destruct (_singleton (injected_factory a)) eqn:Hs.
  - rewrite (dependencyInjectFactory_singleton _ _ _ _ _ _ _ _ _ Hm) in Hs.
    apply (lookupFactory_singleton _ _ _ Hreg) in Hs.
    rewrite mbind_unfold in Hk. inv_bind Hk. injection Hk0 as _ <-. simpl.
    by eapply R_withSingleton.
  - injection Hk as _ <-. apply R_refl.
Qed.

End StateInvariant.

Lemma cacheGrows_refl st : cacheGrows st st.
Proof. by repeat split. Qed.

Lemma cacheGrows_trans st1 st2 st3 :
  cacheGrows st1 st2 → cacheGrows st2 st3 → cacheGrows st1 st3.
Proof.
  intros (Hr12 & Hd12 & Hs12) (Hr23 & Hd23 & Hs23). repeat split.
  - congruence.
  - by etrans.
  - intros k Hk. rewrite Hs23, Hs12; [done..|]. by rewrite Hr12.
Qed.

Lemma cacheGrows_withSingleton st st' itemName registeredFactory v :
  cacheGrows st st' → hasSingleton st itemName = false →
  registered st !! itemName = Some registeredFactory →
  cacheGrows st (withSingleton st' itemName v).
Proof.
  intros (Hr & Hd & Hs) _ Hreg. repeat split; [done| |].
  - cbn [withSingleton singletons]. rewrite dom_insert.
    by apply union_subseteq_r'.
  - intros k Hk. cbn [withSingleton singletons].
    rewrite lookup_insert_ne; [auto|]. intros ->. congruence.
Qed.

(** X2.  What [resolve] leaves of the state, whether it returns or throws:
    the registry and the meta data are unchanged; a singleton the resolver
    finds (a truthy entry) is unchanged; no entry of the cache is removed; and
    nothing is cached under a name that is not registered. *)
Theorem resolve_keeps_the_state body st itemName resolveArgs asFactory :
  let st' := snd (resolve body st itemName resolveArgs asFactory) in
  registered st' = registered st
  ∧ meta st' = meta st
  ∧ (∀ k v, singletons st !! k = Some v → truthy v = true →
            singletons st' !! k = Some v)
  ∧ dom (singletons st) ⊆ dom (singletons st')
  ∧ (∀ k, registered st !! k = None → singletons st' !! k = singletons st !! k).
Proof.
  cbn zeta. unfold resolve.
  destruct (checkItemName itemName) as [evs [n| |]]; [|by repeat split..].
  destruct (resolveFactory body (resolveFuel st) st n resolveArgs None None)
    as [evs' [r| |]] eqn:Hres; [|by repeat split..].
  cbn [snd].
  pose proof (resolveFactory_extends _ _ _ _ _ _ _ _ _ Hres) as (Hr & Hm & Hs).
  pose proof (resolveFactory_R body cacheGrows cacheGrows_refl cacheGrows_trans
                cacheGrows_withSingleton _ _ _ _ _ _ _ _ Hres) as (_ & Hd & Hu).
  repeat split; [done..| |done|done].
  intros k v Hk Hv. rewrite Hs; [done|].
  unfold hasSingleton, jsLookup. by rewrite Hk.
Qed.

(** What [resolveFactory] returns: the state it was given, or a new state
    together with the wrapper of the singleton stored in it. *)
Lemma resolveFactory_state_or_wrapper body fuel st n args h o evs r :
  resolveFactory body fuel st n args h o = (evs, Ok r) →
  state r = st ∨ resolvedFactory r = resolveSingletonAsFactory (state r) n.
Proof.
  destruct fuel as [|fuel]; [discriminate|]. simpl.
  destruct (hasSingleton st n); [intros [= _ <-]; by left|].
  destruct (lookupFactory (registered st) n) as [registeredFactory|].
  2: { destruct (from_option resolve_isOptional false o); [|discriminate].
       intros [= _ <-]. by left. }
  rewrite mbind_unfold. intros H. inv_bind H.
  destruct (_singleton (injected_factory a)).
  - rewrite mbind_unfold in Hk. inv_bind Hk. injection Hk0 as _ <-. by right.
  - injection Hk as _ <-. by left.
Qed.

(** X3.  A [resolve] that throws leaves the state of the container as it
    was. *)
Theorem failed_resolve_keeps_the_state body st itemName resolveArgs asFactory e :
  result (fst (resolve body st itemName resolveArgs asFactory)) = Throw e →
  snd (resolve body st itemName resolveArgs asFactory) = st.
Proof.
  unfold resolve.
  destruct (checkItemName itemName) as [evs [n| |]]; [|done..].
  destruct (resolveFactory body (resolveFuel st) st n resolveArgs None None)
    as [evs' [r| |]] eqn:Hres; [|done..].
  cbn [fst snd result]. destruct asFactory; [discriminate|].
  destruct (resolveFactory_state_or_wrapper _ _ _ _ _ _ _ _ _ Hres) as [->| ->];
    [done|].
  by rewrite runFactory_singleton.
Qed.

Lemma failed_resolve_keeps_the_state_witness :
  snd (resolve exampleBody cycleContainer (VStr "a") None false) = cycleContainer.
Proof.
  apply (failed_resolve_keeps_the_state exampleBody cycleContainer (VStr "a") None false
           (buildErrorWithStack (cyclicMessage "a")
              (addToHistory (addToHistory [] "a" (Some aRegistered)) "b"
                 (Some bRegistered) ++ [bareRecord "a"]) false)).
  vm_compute. reflexivity.
Defined.

Lemma resolveFactory_singleton_result body fuel st n args h o f evs r :
  hasSingleton st n = false → registered st !! n = Some f → _singleton f = true →
  resolveFactory body fuel st n args h o = (evs, Ok r) →
  ∃ singletonInstance,
    singletons (state r) !! n = Some singletonInstance
    ∧ resolvedFactory r = resolveSingletonAsFactory (state r) n.
Proof.
  intros Hc Hreg Hs. destruct fuel as [|fuel]; [discriminate|]. simpl.
  rewrite Hc, (lookupFactory_own _ _ _ Hreg), mbind_unfold. intros H. inv_bind H.
  rewrite (dependencyInjectFactory_singleton _ _ _ _ _ _ _ _ _ Hm), Hs in Hk.
  rewrite mbind_unfold in Hk. inv_bind Hk. injection Hk0 as _ <-.
  exists a0. split; [|reflexivity]. cbn [state withSingleton singletons].
  apply lookup_insert_eq.
Qed.

(** X4.  A singleton is resolved once: when [resolve] returns [v] for an item
    whose factory is a singleton and for which the resolver's test of the
    cache fails ([hasSingleton]: what [singletons] yields under the name, an
    inherited member included, is falsy), [v] is stored in the cache under the name of
    the item, and when [v] is truthy every later [resolve] of the item, with
    any resolve arguments, returns [v] without running anything and leaves the
    state as it is. *)
Theorem singleton_is_resolved_once body st itemName f resolveArgs evs v st1 :
  itemName ≠ "" → hasSingleton st itemName = false →
  registered st !! itemName = Some f → _singleton f = true →
  resolve body st (VStr itemName) resolveArgs false = ((evs, Ok v), st1) →
  singletons st1 !! itemName = Some v
  ∧ (truthy v = true →
     ∀ resolveArgs',
       resolve body st1 (VStr itemName) resolveArgs' false = (([], Ok v), st1)).
Proof.
  intros Hne Hc Hreg Hs. unfold resolve at 1.
  rewrite checkItemName_string by done. unfold ret.
  destruct (resolveFactory body (resolveFuel st) st itemName resolveArgs None None)
    as [evs' [r| |]] eqn:Hres; [|discriminate..].
  destruct (resolveFactory_singleton_result _ _ _ _ _ _ _ _ _ _ Hc Hreg Hs Hres)
    as (inst & Hinst & Hwrap).
  rewrite Hwrap, runFactory_singleton. unfold jsLookup. rewrite Hinst.
  cbn [events result ret fst snd default]. intros [= _ <- <-].
  split; [exact Hinst|]. intros Hv resolveArgs'.
  assert (hasSingleton (state r) itemName = true) as Hc'.
  { unfold hasSingleton, jsLookup. by rewrite Hinst. }
  unfold resolve, resolveFuel. rewrite checkItemName_string by done. unfold ret.
  rewrite resolveFactory_cached by done. unfold ret.
  cbn [resolvedFactory history state].
  rewrite runFactory_singleton. unfold jsLookup. rewrite Hinst. reflexivity.
Qed.

Lemma singleton_is_resolved_once_witness :
  ∃ st1,
    singletons st1 !! "db" = Some (exampleBody 3 [])
    ∧ resolve exampleBody st1 (VStr "db") None false
      = (([], Ok (exampleBody 3 [])), st1).
Proof.
  exists (snd (resolve exampleBody serviceContainer (VStr "db") None false)).
  destruct (singleton_is_resolved_once exampleBody serviceContainer "db"
              (set_inject (InjectList []) dbFactory) None
              [Invoked (call dbFactory)] (exampleBody 3 [])
              (snd (resolve exampleBody serviceContainer (VStr "db") None false)))
    as [Hstored Hagain]; [discriminate|vm_compute; reflexivity..|].
  split; [exact Hstored|]. apply Hagain. reflexivity.
Defined.

(** ** The operations of the container *)

(** X5.  [clearSingletons] empties the cache and keeps the registry: no
    name other than those of the members of [Object.prototype] has a singleton
    any more, so the next [resolve] of a value registered under such a name
    runs its wrapper again and returns the value registered last, whatever
    the cache held before. *)
Theorem clearSingletons_refreshes body st itemName v resolveArgs :
  isFunction v = false → itemName ≠ "" → inheritedMember itemName = None →
  meta_skipTraceErrors (meta st) = true
  ∨ truthy (meta_registerSourceFile (meta st)) = true →
  ∃ evs st',
    register st (VStr itemName) v None = (evs, Ok st')
    ∧ registered (clearSingletons st') = registered st'
    ∧ singletons (clearSingletons st') = ∅
    ∧ (∀ k, inheritedMember k = None → hasSingleton (clearSingletons st') k = false)
    ∧ resolve body (clearSingletons st') (VStr itemName) resolveArgs false
      = (([Invoked (ItemFn v)], Ok v),
         withSingleton (clearSingletons st') itemName v).
Proof.
  intros Hv Hne Hinh Htrace.
  destruct (register_item st itemName v Hv Hne Htrace) as [evs Hreg].
  eexists evs, _. split; [exact Hreg|]. split; [reflexivity|].
  split; [reflexivity|].
  split; [intros k Hk; by apply hasSingleton_None|].
  eapply resolve_item; [done|by apply hasSingleton_None|].
  cbn [clearSingletons registered]. apply lookup_insert_eq.
Qed.

Lemma clearSingletons_refreshes_witness :
  ∃ st',
    result (register (resolveIn (registerIn getDiInstance "x" (VNum 1)) "x")
              (VStr "x") (VNum 2) None) = Ok st'
    ∧ fst (resolve exampleBody (clearSingletons st') (VStr "x") None false)
      = ([Invoked (ItemFn (VNum 2))], Ok (VNum 2)).
Proof.
  destruct (clearSingletons_refreshes exampleBody
              (resolveIn (registerIn getDiInstance "x" (VNum 1)) "x") "x" (VNum 2) None)
    as (evs & st' & Hreg & _ & _ & _ & Hres).
  - reflexivity.
  - discriminate.
  - reflexivity.
  - left. vm_compute. reflexivity.
  - exists st'. split; [by rewrite Hreg|by rewrite Hres].
Defined.

(** X6.  After [setRegisterSource(label)] with a truthy label, the next
    [setRegisterSource] returns [label], and a value registered with no
    options is accepted whether tracing is enabled or not and is stamped with
    [label] as its registration source. *)
Theorem setRegisterSource_labels_registrations st label other itemName v :
  truthy label = true → isFunction v = false → itemName ≠ "" →
  let st1 := snd (setRegisterSource st label) in
  fst (setRegisterSource st1 other) = label
  ∧ registered st1 = registered st ∧ singletons st1 = singletons st
  ∧ ∃ evs st',
      register st1 (VStr itemName) v None = (evs, Ok st')
      ∧ registered st' !! itemName = Some (itemFactoryOf v label).
Proof.
  intros Hlabel Hv Hne st1. split; [|split; [reflexivity|split; [reflexivity|]]].
  - cbn. unfold js_or. by rewrite Hlabel.
  - destruct (register_item st1 itemName v Hv Hne) as [evs Hreg].
    { right. exact Hlabel. }
    eexists evs, _. split; [exact Hreg|]. cbn [registered].
    rewrite lookup_insert_eq. unfold itemFactoryOf. cbn [st1 setRegisterSource snd
      meta meta_registerSourceFile]. unfold js_or at 2. by rewrite Hlabel.
Qed.

Lemma setRegisterSource_labels_registrations_witness :
  ∃ evs st',
    register (snd (setRegisterSource newContainer (VStr "app.js"))) (VStr "x")
      (VNum 5) None = (evs, Ok st')
    ∧ registered st' !! "x" = Some (itemFactoryOf (VNum 5) (VStr "app.js")).
Proof.
  destruct (setRegisterSource_labels_registrations newContainer (VStr "app.js")
              VUndefined "x" (VNum 5)) as (_ & _ & _ & evs & st' & Hreg & Hlook).
  - reflexivity.
  - reflexivity.
  - discriminate.
  - exists evs, st'. split; [exact Hreg|exact Hlook].
Defined.

Lemma stampFactory_fields st factory options :
  call (stampFactory st factory options) = call factory
  ∧ _inject (stampFactory st factory options) = _inject factory
  ∧ _singleton (stampFactory st factory options)
    = opt_forceSingleton options || _singleton factory
  ∧ _filename (stampFactory st factory options)
    = (if truthy (opt_filename options) then opt_filename options
       else _filename factory)
  ∧ __placeholderArgs (stampFactory st factory options) = __placeholderArgs factory.
Proof.
  unfold stampFactory.
  destruct factory as [c i p s fn r pa u sg], (opt_forceSingleton options),
    (truthy (opt_filename options)), (truthy (opt_registerSourceFile options)),
    (truthy (meta_registerSourceFile (meta st))); cbn; repeat split; reflexivity.
Qed.

(** X7.  A registration that succeeds keeps the singleton cache and the
    meta data, and keeps the names of the other entries of the registry; an
    entry under another name that holds another function than the one being
    registered is as before.  (An entry that holds the function being
    registered is not covered: the decorators are written on the function
    itself.)  The factory stored under the item is the function that was
    given, with its [$inject] replaced by a list of request objects; it is a
    singleton when the option [forceSingleton] is set or the function was one;
    its [$filename] is the option [filename] when that is truthy. *)
Theorem registerFactory_changes_one_entry st itemName factory options evs st' :
  registerFactory st itemName factory options = (evs, Ok st') →
  singletons st' = singletons st
  ∧ meta st' = meta st
  ∧ (∀ k, k ≠ itemName → is_Some (registered st' !! k) ↔ is_Some (registered st !! k))
  ∧ (∀ k f, k ≠ itemName → registered st !! k = Some f → call f ≠ call factory →
       registered st' !! k = Some f)
  ∧ ∃ stored injectionRequests,
      registered st' !! itemName = Some stored
      ∧ call stored = call factory
      ∧ _inject stored = InjectList (SpecRequest <$> injectionRequests)
      ∧ _singleton stored = opt_forceSingleton options || _singleton factory
      ∧ _filename stored
        = (if truthy (opt_filename options) then opt_filename options
           else _filename factory)
      ∧ __placeholderArgs stored = __placeholderArgs factory.
Proof.
  unfold registerFactory. rewrite mbind_unfold. intros H. inv_bind H.
  unfold storeFactory in Hk. rewrite mbind_unfold in Hk. inv_bind Hk.
  injection Hk0 as _ <-. cbn [registered singletons meta].
  split; [reflexivity|]. split; [reflexivity|].
  split; [intros k Hne; by rewrite lookup_insert_ne|].
  split; [intros k f Hne Hf _; by rewrite lookup_insert_ne|].
  eexists _, a0. split; [apply lookup_insert_eq|].
  destruct (stampFactory_fields st factory options) as (Hc & _ & Hs & Hf & Hp).
  destruct (stampFactory st factory options) as [c i p s fn r pa u sg].
  cbn in *. by subst.
Qed.

Lemma registerFactory_changes_one_entry_witness :
  ∃ stored,
    registered serviceContainer !! "service" = Some stored
    ∧ call stored = call serviceFactory
    ∧ registered serviceContainer !! "db"
      = Some (set_inject (InjectList []) dbFactory).
Proof.
  destruct (registerFactory_changes_one_entry
              (registerIn getDiInstance "db" (VFun dbFactory)) "service"
              serviceFactory noOptions [] serviceContainer)
    as (_ & _ & _ & Hothers & stored & reqs & Hlook & Hcall & _).
  { vm_compute. reflexivity. }
  exists stored. split; [exact Hlook|]. split; [exact Hcall|].
  apply Hothers; [discriminate|vm_compute; reflexivity|discriminate].
Defined.

(** X8.  A name that is falsy or not a string is refused by [register] and
    by [resolve] alike, with the error of the name check, before anything else
    is looked at; [resolve] leaves the state as it is. *)
Theorem item_name_is_checked body st itemName factoryOrItem options resolveArgs
    asFactory :
  isString itemName = false ∨ itemName = VStr "" →
  let e := newError (if truthy itemName
                     then "FactoryDI Register Error: The given item name is not a string."
                     else "FactoryDI Register Error: No item name given.") in
  register st itemName factoryOrItem options = throw e
  ∧ resolve body st itemName resolveArgs asFactory = (throw e, st).
Proof.
  intros [Hs| ->]; [|split; reflexivity].
  destruct itemName as [| |b|n|s|props| |f]; try discriminate;
    unfold register, resolve, checkItemName; cbn [truthy negb];
    try (split; reflexivity).
  - destruct b; split; reflexivity.
  - destruct (negb (n =? 0)%Z); split; reflexivity.
Qed.

Lemma item_name_is_checked_witness :
  register getDiInstance (VBool false) (VNum 1) None
  = throw (newError "FactoryDI Register Error: No item name given.")
  ∧ resolve exampleBody getDiInstance (VNum 7) None false
    = (throw (newError "FactoryDI Register Error: The given item name is not a string."),
       getDiInstance).
Proof.
  split.
  - apply (item_name_is_checked exampleBody getDiInstance (VBool false) (VNum 1)
             None None false). left. reflexivity.
  - apply (item_name_is_checked exampleBody getDiInstance (VNum 7) (VNum 1)
             None None false). left. reflexivity.
Defined.

(** X9.  A new container has registered itself, and nothing else, under the
    name [factoryDi]; its cache is empty and tracing is enabled; resolving
    [factoryDi] returns the container object.  When [__filename] is empty the
    registration logs the warning of the missing [$filename]. *)
Theorem new_container_registers_itself body __filename resolveArgs :
  ∃ st,
    factoryDiFactory __filename
    = ((if String.eqb __filename "" then [ConsoleLog (noFilenameWarning "factoryDi")]
        else []), Ok st)
    ∧ dom (registered st) = {["factoryDi"]}
    ∧ singletons st = ∅
    ∧ meta st = meta emptyInjectorState
    ∧ resolve body st (VStr "factoryDi") resolveArgs false
      = (([Invoked (ItemFn (factoryDiObject __filename))],
          Ok (factoryDiObject __filename)),
         withSingleton st "factoryDi" (factoryDiObject __filename)).
Proof.
  unfold factoryDiFactory, register.
  rewrite checkItemName_string, mbind_unfold, bind_ret_l by done.
  unfold registerFactory. cbn [default from_option id].
  set (options := Build_RegisterOptions _ _ _ _).
  assert (stampFactory emptyInjectorState
            (safeFactoryOf (factoryDiObject __filename)) options
          = Factory (ItemFn (factoryDiObject __filename)) InjectUnset
              PlaceholdersUnset true
              (if String.eqb __filename "" then VUndefined else VStr __filename)
              (if String.eqb __filename ""
               then VStr "factory-di/src/index.js" else VStr __filename)
              None false false) as ->
    by (destruct __filename; reflexivity).
  rewrite storeFactory_item.
  unfold validateFactory. cbn [options opt_skipTraceErrors emptyInjectorState meta
    meta_skipTraceErrors negb andb _filename __registerSourceFile].
  destruct (String.eqb __filename "") eqn:Hf.
  - eexists. split; [reflexivity|]. cbn [registered singletons meta emptyInjectorState].
    split; [by rewrite dom_insert_L, dom_empty_L, (right_id_L ∅ (∪))|].
    do 2 (split; [reflexivity|]).
    eapply resolve_item; [done|reflexivity|apply lookup_insert_eq].
  - assert (truthy (VStr __filename) = true) as ->
      by (cbn [truthy]; by rewrite Hf).
    eexists. split; [reflexivity|]. cbn [registered singletons meta emptyInjectorState].
    split; [by rewrite dom_insert_L, dom_empty_L, (right_id_L ∅ (∪))|].
    do 2 (split; [reflexivity|]).
    eapply resolve_item; [done|reflexivity|apply lookup_insert_eq].
Qed.

(** ** Leaves and missing dependencies *)

(** X10.  An item for which the resolver's test of the cache fails and whose
    factory has no dependencies, no placeholders and is not a singleton
    resolves to the registered factory itself when the factory
    is asked for, and otherwise to what its body returns on no arguments; the
    body runs at each [resolve] and the state is unchanged. *)
Theorem leaf_factory_resolution body st itemName f id src resolveArgs :
  itemName ≠ "" → hasSingleton st itemName = false →
  registered st !! itemName = Some f →
  call f = UserFn id src → _inject f = InjectList [] →
  _singleton f = false → __placeholderArgs f = None →
  resolve body st (VStr itemName) resolveArgs true = (ret (VFun f), st)
  ∧ resolve body st (VStr itemName) resolveArgs false
    = (([Invoked (UserFn id src)], Ok (body id [])), st).
Proof.
  intros Hne Hc Hreg Hcall Hinj Hs Hp.
  unfold resolve, resolveFuel. rewrite checkItemName_string by done. unfold ret.
  cbn [resolveFactory]. rewrite Hc, (lookupFactory_own _ _ _ Hreg). unfold dependencyInjectFactory.
  rewrite Hinj, mbind_unfold, bind_ret_l. cbn [injected_factory injected_state].
  rewrite Hs. cbn [mret M_ret ret resolvedFactory history state events result].
  split; [reflexivity|].
  unfold runFactory. rewrite Hp.
  destruct f as [c i p s fn r pa u sg]. cbn in Hcall. subst c. reflexivity.
Qed.

Lemma leaf_factory_resolution_witness :
  resolve exampleBody
    (registerIn getDiInstance "leaf"
       (VFun (userFunction 8 "function leafFactory() { return {}; }" InjectUnset false)))
    (VStr "leaf") None false
  = (([Invoked (UserFn 8 "function leafFactory() { return {}; }")],
      Ok (exampleBody 8 [])),
     registerIn getDiInstance "leaf"
       (VFun (userFunction 8 "function leafFactory() { return {}; }" InjectUnset false))).
Proof.
  apply (leaf_factory_resolution exampleBody _ "leaf"
           (set_inject (InjectList [])
              (userFunction 8 "function leafFactory() { return {}; }" InjectUnset false))
           8 "function leafFactory() { return {}; }" None);
    try discriminate; vm_compute; reflexivity.
Defined.

Lemma resolveFactory_cacheGrows body fuel st n args h o evs r :
  resolveFactory body fuel st n args h o = (evs, Ok r) → cacheGrows st (state r).
Proof.
  eapply resolveFactory_R with (R := cacheGrows);
    eauto using cacheGrows_refl, cacheGrows_trans, cacheGrows_withSingleton.
Qed.

Lemma injectDependencies_cacheGrows body fuel st0 itemName args hist inject updated
    evs ds :
  injectDependencies body (resolveFactory body fuel) st0 itemName args hist inject
    updated = (evs, Ok ds) →
  cacheGrows updated (snd ds).
Proof.
  eapply injectDependencies_R with (R := cacheGrows);
    eauto using cacheGrows_refl, cacheGrows_trans, resolveFactory_cacheGrows.
Qed.

Lemma cacheGrows_unregistered st st' itemName :
  cacheGrows st st' → registered st !! itemName = None →
  registered st' !! itemName = None
  ∧ hasSingleton st' itemName = hasSingleton st itemName.
Proof.
  intros (Hreg & _ & Hsame) Hnone. split; [by rewrite Hreg|].
  unfold hasSingleton, jsLookup. by rewrite (Hsame _ Hnone).
Qed.

Lemma isCyclic_first itemName f injectionName :
  itemName ≠ injectionName →
  isCyclic itemName (addToHistory [] itemName (Some f)) (Some injectionName) = false.
Proof.
  intros Hne. apply String.eqb_neq in Hne.
  unfold isCyclic, inHistory, addToHistory. cbn [app existsb record_name].
  by rewrite Hne.
Qed.

(** The callback of the [$inject] loop on a dependency that is not
    registered, not cached and not cyclic. *)
Lemma injectDependency_unregistered body fuel st0 itemName args hist updated r :
  isPlaceholder r = false →
  isCyclic itemName hist (Some (name r)) = false →
  registered updated !! name r = None → inheritedMember (name r) = None →
  hasSingleton updated (name r) = false →
  injectDependency body (resolveFactory body (S fuel)) st0 itemName args hist updated
    (SpecRequest r)
  = if isOptional r
    then ret (if asFactory r then VFun getFactoryForUndefined else VUndefined, updated)
    else throw (buildErrorWithStack (notRegisteredMessage (name r))
                  (hist ++ [bareRecord (name r)]) false).
Proof.
  intros Hp Hcyc Hreg Hinh Hc. unfold injectDependency.
  cbn [spec_isPlaceholder spec_name spec_isOptional spec_asFactory safeInjectName
       default from_option id].
  rewrite Hp, Hcyc. cbn [andb resolveFactory].
  rewrite Hc, (lookupFactory_absent _ _ Hreg), Hinh.
  cbn [from_option resolve_isOptional].
  destruct (isOptional r); [|reflexivity].
  rewrite mbind_unfold, bind_ret_l. cbn [resolvedFactory state].
  destruct (asFactory r); reflexivity.
Qed.

(** X11.  Resolving an item throws the not-registered error of its first
    required dependency that is neither registered nor cached and whose name
    is not that of a member of [Object.prototype], once the dependencies
    before it have resolved; the trace of the error is the item followed by
    the missing name, and the state of the container is left as it was. *)
Theorem required_dependency_missing body st itemName f pre r post resolveArgs
    asFactory evs ds :
  itemName ≠ "" → hasSingleton st itemName = false →
  registered st !! itemName = Some f →
  _inject f = InjectList (pre ++ SpecRequest r :: post) →
  let newResolveHistory := addToHistory [] itemName (Some f) in
  injectDependencies body (resolveFactory body (S (size (registered st)))) st itemName
    (default ∅ resolveArgs) newResolveHistory pre st = (evs, Ok ds) →
  isPlaceholder r = false → isOptional r = false →
  registered st !! name r = None → inheritedMember (name r) = None →
  hasSingleton st (name r) = false →
  resolve body st (VStr itemName) resolveArgs asFactory
  = ((evs, Throw (buildErrorWithStack
                    ("FactoryDI Resolve Error: The item '" +:+ name r
                     +:+ "' has not been registered.")
                    (newResolveHistory ++ [bareRecord (name r)]) false)),
     st).
Proof.
  intros Hne Hc Hreg Hinj newH Hpre Hp Ho Hregr Hinh Hcr.
  destruct (cacheGrows_unregistered _ _ _ (injectDependencies_cacheGrows _ _ _ _ _ _ _ _ _ _ Hpre)
              Hregr) as [Hregr' Hcr'].
  rewrite Hcr in Hcr'.
  assert (itemName ≠ name r) as Hnr by (intros ->; congruence).
  unfold resolve, resolveFuel. rewrite checkItemName_string by done. unfold ret.
  remember (S (size (registered st))) as fuel1 eqn:Hfuel.
  cbn [resolveFactory]. rewrite Hc, (lookupFactory_own _ _ _ Hreg). unfold dependencyInjectFactory.
  rewrite Hinj. cbn [default from_option id]. fold newH.
  assert (injectDependencies body (resolveFactory body fuel1) st itemName
            (default ∅ resolveArgs) newH (pre ++ SpecRequest r :: post) st
          = (evs ++ [], Throw (buildErrorWithStack (notRegisteredMessage (name r))
                                 (newH ++ [bareRecord (name r)]) false))) as Hloop.
  { eapply injectDependencies_app_Throw; [exact Hpre|].
    cbn [injectDependencies]. rewrite Hfuel.
    rewrite injectDependency_unregistered, Ho
      by (try done; by apply isCyclic_first).
    reflexivity. }
  rewrite app_nil_r in Hloop.
  destruct (pre ++ SpecRequest r :: post) eqn:Hl; [by destruct pre|].
  rewrite Hloop. reflexivity.
Qed.

Lemma required_dependency_missing_witness :
  resolve exampleBody
    (registerIn getDiInstance "service" (VFun serviceFactory))
    (VStr "service") None false
  = (throw (buildErrorWithStack (notRegisteredMessage "db")
              (addToHistory [] "service"
                 (Some (set_inject (InjectList [SpecRequest (request "db")])
                          serviceFactory))
               ++ [bareRecord "db"]) false),
     registerIn getDiInstance "service" (VFun serviceFactory)).
Proof.
  apply (required_dependency_missing exampleBody _ "service"
           (set_inject (InjectList [SpecRequest (request "db")]) serviceFactory)
           [] (request "db") [] None false []
           ([], registerIn getDiInstance "service" (VFun serviceFactory)));
    try discriminate; vm_compute; reflexivity.
Defined.

Lemma composeArgs_no_holes partials :
  Forall (λ v, v ≠ VPlaceholder) partials → composeArgs partials [] = partials.
Proof.
  induction 1 as [|v partials Hv _ IH]; [reflexivity|].
  destruct v; cbn [composeArgs]; by rewrite ?IH.
Qed.

Lemma injectDependencies_all_missing body fuel st itemName args hist rs updated :
  Forall (λ r, isPlaceholder r = false ∧ isOptional r = true
               ∧ isCyclic itemName hist (Some (name r)) = false
               ∧ registered updated !! name r = None
               ∧ inheritedMember (name r) = None
               ∧ hasSingleton updated (name r) = false) rs →
  injectDependencies body (resolveFactory body (S fuel)) st itemName args hist
    (SpecRequest <$> rs) updated
  = ret ((λ r, if asFactory r then VFun getFactoryForUndefined else VUndefined) <$> rs,
         updated).
Proof.
  induction 1 as [|r rs (Hp & Ho & Hcyc & Hreg & Hinh & Hc) _ IH]; [reflexivity|].
  cbn [fmap list_fmap injectDependencies].
  rewrite injectDependency_unregistered, Ho by done.
  rewrite mbind_unfold, bind_ret_l. cbn [fst snd].
  change (list_fmap _ _ SpecRequest rs) with (SpecRequest <$> rs).
  rewrite IH, mbind_unfold, bind_ret_l. reflexivity.
Qed.

Lemma getPlaceholderArguments_none f rs :
  _inject f = InjectList (SpecRequest <$> rs) →
  Forall (λ r, isPlaceholder r = false) rs →
  getPlaceholderArguments f = [].
Proof.
  intros Hinj Hrs. unfold getPlaceholderArguments. rewrite Hinj. clear Hinj.
  induction Hrs as [|r rs Hp _ IH]; [reflexivity|].
  cbn [fmap list_fmap omap list_omap]. rewrite Hp. exact IH.
Qed.

Lemma applyFactory_curryFactory body f curryArgs args :
  applyFactory body (curryFactory f curryArgs) args
  = applyFactory body f (composeArgs curryArgs args).
Proof.
  unfold curryFactory.
  destruct (truthy (_filename f)), (truthy (__registerSourceFile f)), (_singleton f);
    reflexivity.
Qed.

Lemma curryFactory_placeholderArgs f curryArgs :
  __placeholderArgs (curryFactory f curryArgs) = Some (getPlaceholderArguments f).
Proof.
  unfold curryFactory.
  destruct (truthy (_filename f)), (truthy (__registerSourceFile f)), (_singleton f);
    reflexivity.
Qed.

(** X12.  When every dependency of a factory that is not a singleton is an
    optional request for a name that is neither registered nor cached and is
    not the name of a member of [Object.prototype], resolving the item runs
    the body once, on [undefined] for each dependency (on the factory of
    [undefined] where the factory was asked for), and leaves the state as it
    was. *)
Theorem optional_dependencies_missing body st itemName f id src rs resolveArgs :
  itemName ≠ "" → hasSingleton st itemName = false →
  registered st !! itemName = Some f →
  call f = UserFn id src → _singleton f = false →
  rs ≠ [] → _inject f = InjectList (SpecRequest <$> rs) →
  Forall (λ r, isPlaceholder r = false ∧ isOptional r = true
               ∧ registered st !! name r = None
               ∧ inheritedMember (name r) = None
               ∧ hasSingleton st (name r) = false) rs →
  resolve body st (VStr itemName) resolveArgs false
  = (([Invoked (UserFn id src)],
      Ok (body id ((λ r, if asFactory r then VFun getFactoryForUndefined
                         else VUndefined) <$> rs))),
     st).
Proof.
  intros Hne Hc Hreg Hcall Hs Hrs Hinj Hall.
  unfold resolve, resolveFuel. rewrite checkItemName_string by done. unfold ret.
  remember (S (size (registered st))) as fuel1 eqn:Hfuel.
  cbn [resolveFactory]. rewrite Hc, (lookupFactory_own _ _ _ Hreg). unfold dependencyInjectFactory.
  cbn [default from_option Datatypes.id].
  rewrite Hinj.
  destruct (SpecRequest <$> rs) as [|injectItem inject] eqn:Hl in |- *;
    [by destruct rs|].
  rewrite <- Hl, Hfuel.
  rewrite injectDependencies_all_missing.
  2: { eapply Forall_impl; [exact Hall|]. intros r (Hp & Ho & Hregr & Hinh & Hcr).
       repeat split; try done. apply isCyclic_first. intros ->. congruence. }
  rewrite !mbind_unfold, !bind_ret_l. cbn [injected_factory injected_state fst snd].
  assert (_singleton (curryFactory f ((λ r, if asFactory r
            then VFun getFactoryForUndefined else VUndefined) <$> rs)) = false) as ->.
  { unfold curryFactory. rewrite Hs.
    destruct (truthy (_filename f)), (truthy (__registerSourceFile f)); reflexivity. }
  cbn [mret M_ret ret resolvedFactory history state].
  unfold runFactory. rewrite curryFactory_placeholderArgs.
  rewrite (getPlaceholderArguments_none f rs Hinj)
    by (eapply Forall_impl; [exact Hall|]; by intros r (? & _)).
  cbn [mapM]. rewrite mbind_unfold, bind_ret_l, applyFactory_curryFactory.
  rewrite composeArgs_no_holes.
  2: { apply Forall_fmap, Forall_forall. intros r _. cbn. by destruct (asFactory r). }
  destruct f as [c i p s fn r pa u sg]. cbn in Hcall. subst c. reflexivity.
Qed.

Lemma optional_dependencies_missing_witness :
  resolve exampleBody
    (registerIn getDiInstance "report"
       (VFun (userFunction 9 "function reportFactory(cache) { return {cache}; }"
                (InjectList [SpecString "cache?"]) false)))
    (VStr "report") None false
  = (([Invoked (UserFn 9 "function reportFactory(cache) { return {cache}; }")],
      Ok (exampleBody 9 [VUndefined])),
     registerIn getDiInstance "report"
       (VFun (userFunction 9 "function reportFactory(cache) { return {cache}; }"
                (InjectList [SpecString "cache?"]) false))).
Proof.
  apply (optional_dependencies_missing exampleBody _ "report"
           (set_inject
              (InjectList [SpecRequest {| name := "cache"; isOptional := true;
                                          asFactory := false;
                                          isPlaceholder := false |}])
              (userFunction 9 "function reportFactory(cache) { return {cache}; }"
                 (InjectList [SpecString "cache?"]) false))
           9 "function reportFactory(cache) { return {cache}; }"
           [{| name := "cache"; isOptional := true; asFactory := false;
               isPlaceholder := false |}] None);
    try discriminate; try (vm_compute; reflexivity).
  repeat constructor; vm_compute; reflexivity.
Defined.

(** ** The parser of the injector *)

Lemma imap_pair_shift {A} (start : nat) (x : A) (l : list A) :
  imap (λ i, pair (start + i)) (x :: l)
  = (start, x) :: imap (λ i, pair (S start + i)) l.
Proof.
  cbn [imap]. rewrite Nat.add_0_r. f_equal.
  apply imap_ext. intros i y _. cbn. f_equal. lia.
Qed.

Lemma fold_injectionRequestStep inject : ∀ start invalidIndexes injectionRequests,
  let folded :=
    fold_left injectionRequestStep (imap (λ i, pair (start + i)) inject)
      (invalidIndexes, injectionRequests) in
  fst folded = invalidIndexes ++ invalidIndexesFrom specInvalid start inject
  ∧ (invalidIndexesFrom specInvalid start inject = [] →
     snd folded = injectionRequests ++ omap requestOfSpec inject).
Proof.
  induction inject as [|injectionRequest inject IH];
    intros start invalidIndexes injectionRequests.
  { cbn. by rewrite !app_nil_r. }
  cbv zeta. rewrite imap_pair_shift. cbn [fold_left invalidIndexesFrom].
  destruct injectionRequest as [r|s|]; cbn [injectionRequestStep specInvalid].
  - destruct (String.eqb (name r) "") eqn:Hn; cbn [negb].
    + destruct (IH (S start) (invalidIndexes ++ [start]) injectionRequests)
        as [-> _].
      split; [by rewrite <- app_assoc|]. intros Habs. by destruct (app_eq_nil _ _ Habs).
    + destruct (IH (S start) invalidIndexes (injectionRequests ++ [r])) as [-> Hreqs].
      split; [reflexivity|]. cbn [app omap list_omap requestOfSpec]. rewrite Hn.
      intros Hnil. rewrite (Hreqs Hnil), <- app_assoc. reflexivity.
  - fold (requestOfString s).
    destruct (String.eqb (safeNameOf s) "") eqn:Hn.
    + destruct (IH (S start) (invalidIndexes ++ [start])
                  (injectionRequests ++ [requestOfString s])) as [-> _].
      split; [by rewrite <- app_assoc|]. intros Habs. by destruct (app_eq_nil _ _ Habs).
    + destruct (IH (S start) invalidIndexes
                  (injectionRequests ++ [requestOfString s])) as [-> Hreqs].
      split; [reflexivity|]. cbn [app omap list_omap requestOfSpec].
      intros Hnil. rewrite (Hreqs Hnil), <- app_assoc. reflexivity.
  - destruct (IH (S start) (invalidIndexes ++ [start]) injectionRequests) as [-> _].
    split; [by rewrite <- app_assoc|]. intros Habs. by destruct (app_eq_nil _ _ Habs).
Qed.

(** The [map] of [parseFactoryInjectionArguments] over the whole list. *)
Lemma fold_injectionRequestStep_all inject :
  ∃ injectionRequests,
    fold_left injectionRequestStep (imap pair inject) ([], [])
    = (invalidIndexesFrom specInvalid 0 inject, injectionRequests)
    ∧ (invalidIndexesFrom specInvalid 0 inject = [] →
       injectionRequests = omap requestOfSpec inject).
Proof.
  destruct (fold_injectionRequestStep inject 0 [] []) as [Hfst Hsnd].
  cbv zeta in Hfst, Hsnd.
  change (imap (λ i, pair (0 + i)) inject) with (imap pair inject) in Hfst, Hsnd.
  destruct (fold_left injectionRequestStep (imap pair inject) ([], []))
    as [invalidIndexes injectionRequests].
  cbn [fst snd app] in Hfst, Hsnd. subst invalidIndexes. by exists injectionRequests.
Qed.

(** X13.  An explicit [$inject] list is accepted when each of its elements
    is a request object with a name or a string with a safe name that is not
    empty; the requests are then those of the elements, in order, a string
    giving its safe name, [?] at its end optional, [()] the factory and [*] a
    placeholder.  Otherwise the error lists the indexes of all the elements
    that were rejected, in increasing order. *)
Theorem explicit_inject_is_validated factory inject :
  _inject factory = InjectList inject →
  parseFactoryInjectionArguments factory
  = match invalidIndexesFrom specInvalid 0 inject with
    | [] => ret (omap requestOfSpec inject)
    | invalidIndexes =>
        throw (templateError
                 ("FactoryDI Inject Error: Invalid $inject found for '%s' on indexes: "
                  +:+ joinIndexes invalidIndexes +:+ "."))
    end.
Proof.
  intros Hinj. unfold parseFactoryInjectionArguments. rewrite Hinj.
  destruct (fold_injectionRequestStep_all inject) as (injectionRequests & -> & Hvalid).
  destruct (invalidIndexesFrom specInvalid 0 inject); [|reflexivity].
  by rewrite Hvalid.
Qed.

Lemma explicit_inject_is_validated_witness :
  parseFactoryInjectionArguments
    (userFunction 10 "function f(a, b, c, d) {}"
       (InjectList [SpecString "a?"; SpecOther; SpecString "b()"; SpecString "?"])
       false)
  = throw (templateError
             "FactoryDI Inject Error: Invalid $inject found for '%s' on indexes: 1, 3.")
  ∧ parseFactoryInjectionArguments
      (userFunction 10 "function f(a, b, c) {}"
         (InjectList [SpecString "a?"; SpecString "b()"; SpecString "c*"]) false)
    = ret [ {| name := "a"; isOptional := true; asFactory := false;
               isPlaceholder := false |};
            {| name := "b"; isOptional := false; asFactory := true;
               isPlaceholder := false |};
            {| name := "c"; isOptional := false; asFactory := false;
               isPlaceholder := true |} ].
Proof.
  split.
  - exact (explicit_inject_is_validated
             (userFunction 10 "function f(a, b, c, d) {}"
                (InjectList [SpecString "a?"; SpecOther; SpecString "b()";
                             SpecString "?"]) false)
             _ eq_refl).
  - exact (explicit_inject_is_validated
             (userFunction 10 "function f(a, b, c) {}"
                (InjectList [SpecString "a?"; SpecString "b()"; SpecString "c*"])
                false)
             _ eq_refl).
Defined.

Lemma fold_placeholderOptionStep placeholders : ∀ start invalidIndexes table,
  fold_left placeholderOptionStep (imap (λ i, pair (start + i)) placeholders)
    (invalidIndexes, table)
  = (invalidIndexes ++ invalidIndexesFrom placeholderInvalid start placeholders,
     placeholderTable placeholders ∪ table).
Proof.
  unfold placeholderTable.
  induction placeholders as [|placeholder placeholders IH];
    intros start invalidIndexes table.
  { cbn. by rewrite app_nil_r, (left_id_L ∅ (∪)). }
  rewrite imap_pair_shift. cbn [fold_left invalidIndexesFrom].
  destruct placeholder as [s|]; cbn [placeholderOptionStep placeholderInvalid].
  - rewrite IH. cbn [omap list_omap placeholderEntry mbind option_bind rev].
    rewrite list_to_map_app. cbn [list_to_map foldr uncurry fst snd].
    rewrite insert_empty, <- (assoc_L (∪)), <- insert_union_singleton_l.
    destruct (String.eqb (safeNameOf s) ""); by rewrite <- ?app_assoc.
  - rewrite IH. cbn [omap list_omap placeholderEntry mbind option_bind].
    by rewrite <- app_assoc.
Qed.

(** X14.  A [$placeholders] list is accepted when each of its elements is a
    string with a safe name that is not empty; the table then maps the safe
    name of each element to whether the element ends in [?], the last element
    counting where two have the same safe name.  Otherwise the error lists the
    indexes of all the elements that were rejected, in increasing order. *)
Theorem placeholders_are_validated factory placeholders :
  _placeholders factory = PlaceholdersList placeholders →
  getFactoryPlaceholderOptions factory
  = match invalidIndexesFrom placeholderInvalid 0 placeholders with
    | [] => ret (placeholderTable placeholders)
    | invalidIndexes =>
        throw (templateError
                 ("FactoryDI Inject Error: Invalid $placeholders found for '%s' on indexes: "
                  +:+ joinIndexes invalidIndexes +:+ "."))
    end.
Proof.
  intros Hp. unfold getFactoryPlaceholderOptions. rewrite Hp.
  destruct placeholders as [|placeholder placeholders]; [reflexivity|].
  change (imap pair (placeholder :: placeholders))
    with (imap (λ i, pair (0 + i)) (placeholder :: placeholders)).
  rewrite fold_placeholderOptionStep. cbn [app].
  rewrite (right_id_L ∅ (∪)).
  by destruct (invalidIndexesFrom placeholderInvalid 0 (placeholder :: placeholders)).
Qed.

Lemma placeholders_are_validated_witness :
  getFactoryPlaceholderOptions
    (Factory (UserFn 11 "function f(a, b) {}") InjectTrue
       (PlaceholdersList [Some "a"; Some "b"; Some "a?"]) false VUndefined VUndefined
       None false false)
  = ret (<["a" := true]> (<["b" := false]> ∅))
  ∧ getFactoryPlaceholderOptions
      (Factory (UserFn 11 "function f(a, b) {}") InjectTrue
         (PlaceholdersList [Some "a"; None; Some "--"]) false VUndefined VUndefined
         None false false)
    = throw (templateError
               "FactoryDI Inject Error: Invalid $placeholders found for '%s' on indexes: 1, 2.").
Proof.
  split.
  - rewrite (placeholders_are_validated
               (Factory (UserFn 11 "function f(a, b) {}") InjectTrue
                  (PlaceholdersList [Some "a"; Some "b"; Some "a?"]) false VUndefined
                  VUndefined None false false) _ eq_refl).
    vm_compute. reflexivity.
  - exact (placeholders_are_validated
             (Factory (UserFn 11 "function f(a, b) {}") InjectTrue
                (PlaceholdersList [Some "a"; None; Some "--"]) false VUndefined
                VUndefined None false false) _ eq_refl).
Defined.

Lemma isNameChar_not_whitespace a :
  isNameChar a = true → negb (isWhitespace a) = true.
Proof.
  destruct a as [[] [] [] [] [] [] [] []]; vm_compute; congruence.
Qed.

Lemma filterChars_all keep s : allChars keep s = true → filterChars keep s = s.
Proof.
  induction s as [|a s IH]; cbn [allChars filterChars]; [done|].
  intros [-> Hs]%andb_true_iff. by rewrite (IH Hs).
Qed.

Lemma filterChars_app keep s t :
  filterChars keep (s +:+ t) = filterChars keep s +:+ filterChars keep t.
Proof.
  induction s as [|a s IH]; [reflexivity|].
  rewrite append_cons. cbn [filterChars]. destruct (keep a); by rewrite IH.
Qed.

Lemma isPlainName_not_whitespace p :
  isPlainName p = true → allChars (λ a, negb (isWhitespace a)) p = true.
Proof.
  intros [_ Hp]%andb_true_iff. eapply allChars_impl; [|exact Hp].
  apply isNameChar_not_whitespace.
Qed.

(** Removing the white space of the argument text of a plain signature
    leaves the parameters separated by commas. *)
Lemma cleanedArguments_plain params :
  forallb isPlainName params = true →
  filterChars (λ a, negb (isWhitespace a)) (join ", " params) = join "," params.
Proof.
  induction params as [|p [|q rest] IH]; [done|..].
  - cbn [forallb join]. intros [Hp _]%andb_true_iff.
    by apply filterChars_all, isPlainName_not_whitespace.
  - intros [Hp Hrest]%andb_true_iff.
    change (join ", " (p :: q :: rest)) with (p +:+ ", " +:+ join ", " (q :: rest)).
    change (join "," (p :: q :: rest)) with (p +:+ "," +:+ join "," (q :: rest)).
    rewrite !filterChars_app, (IH Hrest).
    by rewrite (filterChars_all _ p (isPlainName_not_whitespace p Hp)).
Qed.

Lemma split_no_separator c s :
  allChars (λ a, negb (Ascii.eqb a c)) s = true → split c s = [s].
Proof.
  induction s as [|a s IH]; cbn [allChars split]; [done|].
  intros [Ha Hs]%andb_true_iff. apply negb_true_iff in Ha.
  by rewrite Ha, (IH Hs).
Qed.

Lemma split_app c s1 s2 :
  allChars (λ a, negb (Ascii.eqb a c)) s1 = true →
  split c (s1 +:+ String c s2) = s1 :: split c s2.
Proof.
  induction s1 as [|a s1 IH]; cbn [allChars].
  - intros _. change ("" +:+ String c s2) with (String c s2). cbn [split].
    by rewrite Ascii.eqb_refl.
  - intros [Ha Hs]%andb_true_iff. apply negb_true_iff in Ha.
    rewrite append_cons. cbn [split]. by rewrite Ha, (IH Hs).
Qed.

Lemma split_join_plain params :
  params ≠ [] → forallb isPlainName params = true →
  split ","%char (join "," params) = params.
Proof.
  induction params as [|p [|q rest] IH]; [done|..]; intros _.
  - cbn [forallb join]. intros [Hp _]%andb_true_iff.
    by apply split_no_separator, isPlainName_chars.
  - intros [Hp Hrest]%andb_true_iff.
    change (join "," (p :: q :: rest))
      with (p +:+ String ","%char (join "," (q :: rest))).
    rewrite split_app by by apply isPlainName_chars.
    by rewrite IH.
Qed.

Lemma contains_no_char c s :
  allChars (λ a, negb (Ascii.eqb a c)) s = true →
  contains (String c "") s = false.
Proof.
  induction s as [|a s IH]; cbn [allChars contains dropPrefix]; [done|].
  intros [Ha Hs]%andb_true_iff. apply negb_true_iff in Ha.
  rewrite Ascii.eqb_sym, Ha. destruct s; by apply IH.
Qed.

Lemma join_comma_nonempty p params :
  isPlainName p = true → join "," (p :: params) ≠ "".
Proof.
  intros [Hp _]%andb_true_iff. apply negb_true_iff, String.eqb_neq in Hp.
  destruct p as [|a p]; [done|]. by destruct params.
Qed.

Lemma fold_placeholderArgumentStep placeholderType placeholderArgs
    (requestOf : string → InjectionRequest) params :
  (∀ final p, p ∈ params → isPlainName p = true →
     placeholderArgumentStep placeholderType placeholderArgs final p
     = final ++ [requestOf p]) →
  forallb isPlainName params = true →
  ∀ final,
    fold_left (placeholderArgumentStep placeholderType placeholderArgs) params final
    = final ++ (requestOf <$> params).
Proof.
  induction params as [|p params IH]; intros Hstep Hparams final.
  { by rewrite app_nil_r. }
  apply andb_true_iff in Hparams as [Hp Hparams].
  cbn [fold_left]. rewrite (Hstep _ _ (list_elem_of_here _ _) Hp), IH, <- app_assoc;
    [reflexivity| |done].
  intros final' q Hq. apply Hstep. by apply list_elem_of_further.
Qed.

(** The parameters [parseFactoryPlaceholderArguments] reads off a plain
    signature, given what one round of its [reduce] makes of a plain name. *)
Lemma parseFactoryPlaceholderArguments_plain factory itemName placeholderType
    placeholderArgs (requestOf : string → InjectionRequest) head params rest :
  functionToString factory = plainSignature head params rest →
  allChars (λ a, negb (Ascii.eqb a "("%char)) head = true →
  forallb isPlainName params = true →
  (∀ final p, p ∈ params → isPlainName p = true →
     placeholderArgumentStep placeholderType placeholderArgs final p
     = final ++ [requestOf p]) →
  match matchFunctionArguments (functionToString factory) with
  | None =>
      throw (buildErrorWithStack (parseArgumentsErrorMessage itemName)
               (addToHistory [] itemName (Some factory)) true)
  | Some arguments =>
      if String.eqb arguments "" then mret []
      else
        let cleanedArguments := filterChars (λ a, negb (isWhitespace a)) arguments in
        if String.eqb cleanedArguments "" then mret []
        else
          mret (fold_left (placeholderArgumentStep placeholderType placeholderArgs)
                  (split ","%char cleanedArguments) [])
  end
  = ret (requestOf <$> params).
Proof.
  intros Hsrc Hhead Hparams Hstep.
  destruct (plainSignature_expectedArgsCount head params rest Hhead Hparams)
    as [Hmatch _].
  rewrite Hsrc, Hmatch. destruct params as [|p params]; [reflexivity|].
  pose proof Hparams as [Hp _]%andb_true_iff.
  rewrite (proj2 (String.eqb_neq _ _) (join_plain_nonempty p params Hp)).
  cbv zeta. rewrite (cleanedArguments_plain _ Hparams).
  rewrite (proj2 (String.eqb_neq _ _) (join_comma_nonempty p params Hp)).
  rewrite split_join_plain by done.
  by rewrite (fold_placeholderArgumentStep _ _ requestOf _ Hstep Hparams).
Qed.

Lemma isPlainName_no_default p :
  isPlainName p = true →
  String.eqb p "" = false ∧ contains "=" p = false.
Proof.
  intros Hp. split.
  - apply andb_true_iff in Hp as [Hne _]. by apply negb_true_iff in Hne.
  - by apply contains_no_char, isPlainName_chars.
Qed.

(** X15.  A factory with no [$inject] and a plain signature: every formal
    parameter becomes a required placeholder, in the order of the signature,
    and none is looked up in the registry. *)
Theorem inferred_parameters_are_placeholders factory itemName registerHistory
    head params rest :
  _inject factory = InjectUnset →
  functionToString factory = plainSignature head params rest →
  allChars (λ a, negb (Ascii.eqb a "("%char)) head = true →
  forallb isPlainName params = true →
  parseFactoryInject factory itemName registerHistory
  = ret (placeholderRequest <$> params).
Proof.
  intros Hinj Hsrc Hhead Hparams.
  unfold parseFactoryInject, parseFactoryPlaceholderArguments. rewrite Hinj.
  rewrite mbind_unfold, bind_ret_l.
  rewrite (parseFactoryPlaceholderArguments_plain factory itemName
             PLACEHOLDER_TYPE_ALL ∅ placeholderRequest head params rest);
    try done.
  intros final p _ [Hne Heq]%isPlainName_no_default.
  unfold placeholderArgumentStep. by rewrite Hne, Heq.
Qed.

Lemma inferred_parameters_are_placeholders_witness :
  parseFactoryInject cFactory "c" []
  = ret [placeholderRequest "z"; placeholderRequest "y"].
Proof.
  apply (inferred_parameters_are_placeholders cFactory "c" [] " cFactory"
           ["z"; "y"] " { return {y, z}; }");
    reflexivity.
Defined.

Lemma lookupPlaceholder_own placeholderArgs p :
  inheritedMember p = None → placeholderArgs !! "__proto__" = None →
  lookupPlaceholder placeholderArgs p = placeholderArgs !! p.
Proof.
  intros Hinh Hproto. unfold lookupPlaceholder. rewrite Hinh, Hproto.
  by destruct (placeholderArgs !! p).
Qed.

(** X16.  A factory whose [$inject] is [true] and whose signature is plain,
    with no formal parameter named like a member of [Object.prototype] and no
    entry [__proto__] in [$placeholders]: a formal parameter listed in
    [$placeholders] becomes a placeholder, optional as its entry says; every
    other formal parameter becomes a required dependency that is resolved
    from the registry under its name. *)
Theorem inferred_parameters_with_placeholders factory itemName registerHistory
    placeholderArgs head params rest :
  _inject factory = InjectTrue →
  getFactoryPlaceholderOptions factory = ret placeholderArgs →
  placeholderArgs !! "__proto__" = None →
  functionToString factory = plainSignature head params rest →
  allChars (λ a, negb (Ascii.eqb a "("%char)) head = true →
  forallb isPlainName params = true →
  Forall (λ p, inheritedMember p = None) params →
  parseFactoryInject factory itemName registerHistory
  = ret (inferredRequest placeholderArgs <$> params).
Proof.
  intros Hinj Hpa Hproto Hsrc Hhead Hparams Hown.
  unfold parseFactoryInject, parseFactoryPlaceholderArguments. rewrite Hinj, Hpa.
  rewrite mbind_unfold, bind_ret_l.
  pose proof (parseFactoryPlaceholderArguments_plain factory itemName
                PLACEHOLDER_TYPE_LIST placeholderArgs
                (inferredRequest placeholderArgs) head params rest
                Hsrc Hhead Hparams) as Hparse.
  cbv beta zeta in Hparse |- *. rewrite Hparse; [reflexivity|].
  intros final p Hin [Hne Heq]%isPlainName_no_default.
  pose proof (proj1 (Forall_forall _ _) Hown p Hin) as Hinh. cbv beta in Hinh.
  unfold placeholderArgumentStep, inferredRequest.
  rewrite Hne, Heq, lookupPlaceholder_own by done.
  by destruct (placeholderArgs !! p).
Qed.

Lemma inferred_parameters_with_placeholders_witness :
  parseFactoryInject
    (Factory (UserFn 12 "function trainerFactory(name, catFactory) {}") InjectTrue
       (PlaceholdersList [Some "name?"]) false VUndefined VUndefined None false false)
    "trainer" []
  = ret [ {| name := "name"; isOptional := true; asFactory := false;
             isPlaceholder := true |};
          request "catFactory" ].
Proof.
  rewrite (inferred_parameters_with_placeholders
           (Factory (UserFn 12 "function trainerFactory(name, catFactory) {}")
              InjectTrue (PlaceholdersList [Some "name?"]) false VUndefined VUndefined
              None false false)
           "trainer" [] (<["name" := true]> ∅) " trainerFactory"
           ["name"; "catFactory"] " {}");
    try (vm_compute; reflexivity).
  repeat constructor.
Defined.

(** ** Positional injection *)

(** The callback of the [$inject] loop on a dependency registered as a
    value. *)
Lemma injectDependency_item body fuel st0 itemName args hist updated r v source :
  registered updated !! name r = Some (itemFactoryOf v source) →
  isPlaceholder r = false → asFactory r = false →
  isCyclic itemName hist (Some (name r)) = false →
  hasSingleton updated (name r) = false ∨ jsLookup (singletons updated) (name r) = v →
  ∃ evs updated',
    injectDependency body (resolveFactory body (S fuel)) st0 itemName args hist updated
      (SpecRequest r) = (evs, Ok (v, updated'))
    ∧ Forall isItemEvent evs
    ∧ registered updated' = registered updated
    ∧ (updated' = updated ∨ updated' = withSingleton updated (name r) v).
Proof.
  intros Hreg Hp Haf Hcyc Hinv. unfold itemFactoryOf in Hreg.
  unfold injectDependency.
  cbn [spec_isPlaceholder spec_name spec_isOptional spec_asFactory safeInjectName
       default from_option Datatypes.id].
  rewrite Hp, Hcyc, Haf. cbn [andb].
  destruct (hasSingleton updated (name r)) eqn:Hc.
  - destruct Hinv as [|Hv]; [done|].
    rewrite resolveFactory_cached, mbind_unfold, bind_ret_l by done.
    cbn [resolvedFactory state]. rewrite runFactory_singleton, mbind_unfold, bind_ret_l.
    rewrite Hv. exists [], updated. repeat split; auto.
  - cbn [resolveFactory]. rewrite Hc, (lookupFactory_own _ _ _ Hreg).
    cbn [dependencyInjectFactory _inject].
    rewrite !mbind_unfold, bind_ret_l.
    cbn [injected_factory injected_state _singleton].
    cbn [runFactory __placeholderArgs applyFactory].
    change (emit (Invoked (ItemFn v)) ≫= λ _ : (), mret v)
      with (([Invoked (ItemFn v)], Ok v) : M value).
    rewrite (bind_Ok_l _ _ [Invoked (ItemFn v)]
               {| resolvedFactory :=
                    resolveSingletonAsFactory (withSingleton updated (name r) v) (name r);
                  history := addToHistory (default [] (Some hist)) (name r)
                               (Some (Factory (ItemFn v) (InjectList [])
                                        PlaceholdersUnset true
                                        (js_or (getProp v "$filename") VUndefined)
                                        source None false false));
                  state := withSingleton updated (name r) v |})
      by reflexivity.
    cbn [resolvedFactory state].
    rewrite runFactory_singleton, mbind_unfold, bind_ret_l.
    unfold jsLookup. cbn [withSingleton singletons]. rewrite lookup_insert_eq.
    cbn [default from_option Datatypes.id ret app events result mret M_ret].
    exists [Invoked (ItemFn v)], (withSingleton updated (name r) v).
    repeat split; auto. repeat constructor. by exists v.
Qed.

Lemma itemFactoryOf_value v source v' source' :
  itemFactoryOf v source = itemFactoryOf v' source' → v = v'.
Proof. by intros [= -> _]. Qed.

Lemma injectDependencies_slots body fuel st itemName args hist bag slots :
  Forall (slotFilled st bag) slots →
  Forall (λ slot, isPlaceholder (fst slot) = false →
                  isCyclic itemName hist (Some (name (fst slot))) = false) slots →
  ∀ updated,
    registered updated = registered st →
    Forall (λ slot, isPlaceholder (fst slot) = false →
                    hasSingleton updated (name (fst slot)) = false
                    ∨ jsLookup (singletons updated) (name (fst slot)) = snd slot)
      slots →
    ∃ evs updated',
      injectDependencies body (resolveFactory body (S fuel)) st itemName args hist
        (SpecRequest ∘ fst <$> slots) updated
      = (evs, Ok ((λ slot, if isPlaceholder (fst slot) then VPlaceholder else snd slot)
                    <$> slots, updated'))
      ∧ Forall isItemEvent evs.
Proof.
  intros Hslots Hcyc. induction Hslots as [|[r v] slots Hslot Hslots IH];
    intros updated Hreg Hinv.
  { exists [], updated. split; [reflexivity|constructor]. }
  apply Forall_cons in Hcyc as [Hcyc1 Hcyc]. apply Forall_cons in Hinv as [Hinv1 Hinv].
  specialize (IH Hcyc). cbn [fmap list_fmap compose fst snd injectDependencies] in *.
  change (list_fmap _ _ (λ x, SpecRequest (fst x)) slots)
    with (SpecRequest ∘ fst <$> slots).
  unfold slotFilled in Hslot. cbn [fst snd] in Hslot.
  destruct (isPlaceholder r) eqn:Hp.
  - unfold injectDependency. cbn [spec_isPlaceholder]. rewrite Hp.
    cbn [mret M_ret]. rewrite mbind_unfold, bind_ret_l. cbn [snd fst].
    destruct (IH updated Hreg Hinv) as (evs & updated' & -> & Hevs).
    rewrite mbind_unfold. cbn [bind mret M_ret ret snd fst].
    exists (evs ++ []), updated'. split; [reflexivity|]. by rewrite app_nil_r.
  - destruct Hslot as (Haf & Hv & Hc & source & Hregr).
    specialize (Hcyc1 eq_refl).
    destruct (injectDependency_item body fuel st itemName args hist updated r v source)
      as (evs1 & updated1 & Hstep & Hevs1 & Hreg1 & Hupd); try done.
    { by rewrite Hreg. }
    { by apply Hinv1. }
    destruct (IH updated1) as (evs & updated' & Hrest & Hevs).
    { by rewrite Hreg1. }
    { destruct Hupd as [->| ->]; [done|].
      apply Forall_forall. intros [r' v'] Hin Hp'.
      rewrite Forall_forall in Hinv, Hslots.
      specialize (Hinv _ Hin Hp'). specialize (Hslots _ Hin).
      unfold slotFilled in Hslots. cbn [fst snd] in *. rewrite Hp' in Hslots.
      destruct Hslots as (_ & _ & _ & source' & Hregr').
      unfold hasSingleton, jsLookup in *. cbn [withSingleton singletons].
      destruct (decide (name r' = name r)) as [Heq|Hne].
      - right. rewrite Heq in Hregr' |- *. rewrite Hregr in Hregr'.
        assert (v = v') as ->
          by (apply (itemFactoryOf_value v source v' source'); congruence).
        by rewrite lookup_insert_eq.
      - by rewrite lookup_insert_ne. }
    rewrite Hstep, mbind_unfold. cbn [bind snd fst]. rewrite Hrest.
    rewrite mbind_unfold. cbn [bind mret M_ret ret snd fst].
    exists (evs1 ++ evs ++ []), updated'. split; [reflexivity|].
    rewrite app_nil_r. by apply Forall_app.
Qed.

(** The values bound to the placeholders fill the holes the loop left, in
    order. *)
Lemma bindPlaceholders_composeArgs st bag slots :
  Forall (slotFilled st bag) slots →
  ∃ values,
    bindPlaceholders bag
      (omap (λ injectItem,
               match injectItem with
               | SpecRequest r => if isPlaceholder r then Some r else None
               | _ => None
               end) (SpecRequest ∘ fst <$> slots)) = inl values
    ∧ composeArgs
        ((λ slot, if isPlaceholder (fst slot) then VPlaceholder else snd slot) <$> slots)
        values
      = snd <$> slots.
Proof.
  induction 1 as [|[r v] slots Hslot _ (values & Hbind & Hcompose)].
  { by exists []. }
  unfold slotFilled in Hslot.
  cbn [fmap list_fmap compose fst snd omap list_omap] in *.
  destruct (isPlaceholder r) eqn:Hp.
  - exists (v :: values). cbn [bindPlaceholders composeArgs].
    by rewrite Hslot, Hbind, Hcompose.
  - exists values. split; [exact Hbind|].
    destruct Hslot as (_ & Hv & _).
    destruct v; cbn [composeArgs]; by rewrite ?Hcompose.
Qed.

(** X17.  Positional injection.  For a factory that is not a singleton and
    whose [$inject] list holds placeholders that the runner binds from the
    resolve arguments and dependencies that are registered as values, where
    the resolver's test of the cache fails for the item and for each
    dependency, [resolve] runs the body
    once, after the wrappers of the values, on the bound argument or the
    registered value of each element of [$inject], in the order of the list;
    the state of the container is left as it was. *)
Theorem positional_injection body st itemName f id src slots resolveArgs :
  itemName ≠ "" → hasSingleton st itemName = false →
  registered st !! itemName = Some f →
  call f = UserFn id src → _singleton f = false →
  slots ≠ [] → _inject f = InjectList (SpecRequest ∘ fst <$> slots) →
  Forall (slotFilled st (usableArgsOf resolveArgs itemName)) slots →
  ∃ evs,
    Forall isItemEvent evs
    ∧ resolve body st (VStr itemName) resolveArgs false
      = ((evs ++ [Invoked (UserFn id src)], Ok (body id (snd <$> slots))), st).
Proof.
  intros Hne Hc Hreg Hcall Hs Hslots Hinj Hall.
  destruct (injectDependencies_slots body (size (registered st)) st itemName
              (default ∅ resolveArgs) (addToHistory [] itemName (Some f))
              (usableArgsOf resolveArgs itemName) slots Hall)
    with (updated := st) as (evs & updated' & Hloop & Hevs); try done.
  { apply Forall_forall. intros [r v] Hin. cbn [fst]. intros Hp.
    rewrite Forall_forall in Hall. specialize (Hall _ Hin).
    unfold slotFilled in Hall. cbn [fst snd] in Hall. rewrite Hp in Hall.
    destruct Hall as (_ & _ & _ & source & Hregr).
    apply isCyclic_first. intros ->. rewrite Hreg in Hregr.
    injection Hregr as ->. discriminate. }
  { apply Forall_forall. intros [r v] Hin. cbn [fst snd]. intros Hp.
    rewrite Forall_forall in Hall. specialize (Hall _ Hin).
    unfold slotFilled in Hall. cbn [fst snd] in Hall. rewrite Hp in Hall.
    left. tauto. }
  destruct (bindPlaceholders_composeArgs st _ slots Hall)
    as (values & Hbind & Hcompose).
  unfold resolve, resolveFuel. rewrite checkItemName_string by done. unfold ret.
  remember (S (size (registered st))) as fuel1 eqn:Hfuel.
  cbn [resolveFactory]. rewrite Hc, (lookupFactory_own _ _ _ Hreg). unfold dependencyInjectFactory.
  cbn [default from_option Datatypes.id]. rewrite Hinj.
  destruct (SpecRequest ∘ fst <$> slots) as [|injectItem inject] eqn:Hl in |- *;
    [by destruct slots|].
  rewrite <- Hl, Hloop.
  rewrite !mbind_unfold. cbn [bind mret M_ret ret injected_factory injected_state
    fst snd].
  rewrite curryFactory_singleton, Hs.
  cbn [mret M_ret ret resolvedFactory history state app].
  rewrite (runFactory_bindPlaceholders _ _ _ _ _ _ (curryFactory_placeholderArgs _ _)).
  unfold getPlaceholderArguments. rewrite Hinj, Hbind.
  rewrite applyFactory_curryFactory, Hcompose.
  destruct f as [c i p s fn r pa u sg]. cbn in Hcall. subst c.
  exists evs. split; [exact Hevs|].
  cbn [applyFactory]. rewrite mbind_unfold.
  cbn [emit bind mret M_ret ret events result app].
  by rewrite !app_nil_r.
Qed.

Lemma positional_injection_witness :
  ∃ evs,
    Forall isItemEvent evs
    ∧ resolve exampleBody greeterContainer (VStr "greeter")
        (Some {[ "greeter" := {[ "name" := VStr "Bob" ]} ]}) false
      = ((evs ++ [Invoked (UserFn 13
                    "function greeterFactory(greeting, name) { return greeting + name; }")],
          Ok (exampleBody 13 [VStr "hi"; VStr "Bob"])),
         greeterContainer).
Proof.
  apply (positional_injection exampleBody greeterContainer "greeter"
           (set_inject
              (InjectList [SpecRequest (request "greeting");
                           SpecRequest (placeholderRequest "name")])
              greeterFactory)
           13 "function greeterFactory(greeting, name) { return greeting + name; }"
           [(request "greeting", VStr "hi"); (placeholderRequest "name", VStr "Bob")]
           (Some {[ "greeter" := {[ "name" := VStr "Bob" ]} ]}));
    try discriminate; try (vm_compute; reflexivity).
  apply Forall_cons. split.
  - hnf. split; [reflexivity|]. split; [discriminate|].
    split; [vm_compute; reflexivity|]. exists VUndefined. vm_compute. reflexivity.
  - apply Forall_cons. split; [|constructor]. vm_compute. reflexivity.
Defined.

(** ** Errors of the parser *)

Lemma matchFunctionArguments_None src :
  dropPrefix "function" src = None → dropPrefix "(" src = None →
  matchFunctionArguments src = None.
Proof. unfold matchFunctionArguments. by intros -> ->. Qed.

(** X18.  A factory whose text starts neither with [function] nor with an
    opening parenthesis (an arrow function with a bare parameter, an async
    function, a class) is refused in every mode: when the parameters are
    inferred the parser throws the error of the arguments, and when an
    accepted [$inject] list is given it throws the error of the argument
    count.  The trace of both errors is the record of the item alone, and both
    keep the code stack. *)
Theorem unparsable_signature_is_refused factory itemName registerHistory :
  dropPrefix "function" (functionToString factory) = None →
  dropPrefix "(" (functionToString factory) = None →
  (_inject factory = InjectUnset
   ∨ (_inject factory = InjectTrue
      ∧ ∃ placeholderArgs, getFactoryPlaceholderOptions factory = ret placeholderArgs) →
   parseFactoryInject factory itemName registerHistory
   = throw (buildErrorWithStack (parseArgumentsErrorMessage itemName)
              (addToHistory [] itemName (Some factory)) true))
  ∧ (∀ inject,
       _inject factory = InjectList inject →
       invalidIndexesFrom specInvalid 0 inject = [] →
       parseFactoryInject factory itemName registerHistory
       = throw (buildErrorWithStack (parseCountErrorMessage itemName)
                  (addToHistory [] itemName (Some factory)) true)).
Proof.
  intros Hf Hp. pose proof (matchFunctionArguments_None _ Hf Hp) as Hmatch.
  split.
  - intros [Hinj|[Hinj [placeholderArgs Hpa]]];
      unfold parseFactoryInject, parseFactoryPlaceholderArguments;
      rewrite Hinj, ?Hpa, mbind_unfold, bind_ret_l, Hmatch; reflexivity.
  - intros inject Hinj Hvalid.
    unfold parseFactoryInject, parseFactoryInjectionArguments. rewrite Hinj.
    destruct (fold_injectionRequestStep_all inject) as (injectionRequests & -> & _).
    rewrite Hvalid, mbind_unfold, bind_ret_l.
    unfold validateFunctionArgumentCount. rewrite Hmatch. reflexivity.
Qed.

Lemma unparsable_signature_is_refused_witness :
  parseFactoryInject (userFunction 14 "x => x" InjectUnset false) "arrow" []
  = throw (buildErrorWithStack (parseArgumentsErrorMessage "arrow")
             (addToHistory [] "arrow" (Some (userFunction 14 "x => x" InjectUnset false)))
             true)
  ∧ parseFactoryInject
      (userFunction 15 "async function load(db) {}" (InjectList [SpecString "db"]) false)
      "load" []
    = throw (buildErrorWithStack (parseCountErrorMessage "load")
               (addToHistory [] "load"
                  (Some (userFunction 15 "async function load(db) {}"
                           (InjectList [SpecString "db"]) false)))
               true).
Proof.
  split.
  - apply (unparsable_signature_is_refused (userFunction 14 "x => x" InjectUnset false)
             "arrow" [] eq_refl eq_refl).
    left. reflexivity.
  - apply (proj2 (unparsable_signature_is_refused
                    (userFunction 15 "async function load(db) {}"
                       (InjectList [SpecString "db"]) false)
                    "load" [] eq_refl eq_refl) [SpecString "db"]);
      reflexivity.
Defined.

Lemma expandReplacement_no_dollar matched before after replacement :
  allChars (λ a, negb (Ascii.eqb a "$"%char)) replacement = true →
  expandReplacement matched before after replacement = replacement.
Proof.
  induction replacement as [|a replacement IH]; cbn [allChars expandReplacement];
    [done|].
  intros [Ha Hrest]%andb_true_iff. apply negb_true_iff in Ha.
  by rewrite Ha, (IH Hrest).
Qed.

(** The marker of a template is replaced by a name that holds no dollar
    sign. *)
Lemma replaceFrom_template replacement template_before template_after : ∀ before,
  allChars (λ a, negb (Ascii.eqb a "%"%char)) template_before = true →
  allChars (λ a, negb (Ascii.eqb a "$"%char)) replacement = true →
  replaceFrom "%s" replacement before (template_before +:+ "%s" +:+ template_after)
  = template_before +:+ replacement +:+ template_after.
Proof.
  induction template_before as [|a template_before IH]; intros before Hbefore Hname.
  - change ("" +:+ "%s" +:+ template_after)
      with (String "%"%char (String "s"%char template_after)).
    cbn [replaceFrom dropPrefix Ascii.eqb Bool.eqb andb].
    by rewrite expandReplacement_no_dollar.
  - cbn [allChars] in Hbefore. apply andb_true_iff in Hbefore as [Ha Hbefore].
    apply negb_true_iff in Ha. rewrite !append_cons.
    cbn [replaceFrom dropPrefix]. rewrite Ascii.eqb_sym, Ha.
    by rewrite IH.
Qed.

(** X19.  The errors the parser makes from a template are thrown again with
    the name of the item in the place of the marker and with the registration
    history for a trace: a [$inject] that is neither falsy, [true] nor an
    array; a [$inject] list with rejected elements, whose indexes are all
    listed; and, when [$inject] is [true], a [$placeholders] that is not an
    array.  (The name is one without a dollar sign, which the replacement
    would interpret.) *)
Theorem template_errors_name_the_item factory itemName registerHistory :
  allChars (λ a, negb (Ascii.eqb a "$"%char)) itemName = true →
  (_inject factory = InjectOther →
   parseFactoryInject factory itemName registerHistory
   = throw (buildErrorWithStack
              ("FactoryDI Inject Error: Invalid non-array $inject found for '"
               +:+ itemName +:+ "'.")
              registerHistory false))
  ∧ (∀ inject i invalidIndexes,
       _inject factory = InjectList inject →
       invalidIndexesFrom specInvalid 0 inject = i :: invalidIndexes →
       parseFactoryInject factory itemName registerHistory
       = throw (buildErrorWithStack
                  ("FactoryDI Inject Error: Invalid $inject found for '"
                   +:+ itemName +:+ "' on indexes: "
                   +:+ joinIndexes (i :: invalidIndexes) +:+ ".")
                  registerHistory false))
  ∧ (_inject factory = InjectTrue → _placeholders factory = PlaceholdersOther →
     parseFactoryInject factory itemName registerHistory
     = throw (buildErrorWithStack
                ("FactoryDI Inject Error: Non-array value of $placeholders found for '"
                 +:+ itemName +:+ "'.")
                registerHistory false)).
Proof.
  intros Hname. split; [|split].
  - intros Hinj. unfold parseFactoryInject, parseFactoryInjectionArguments.
    rewrite Hinj. cbn [mbind M_bind bind throw templateError tryCatch addToStack
      message]. unfold replaceFirst.
    by rewrite (replaceFrom_template itemName
                  "FactoryDI Inject Error: Invalid non-array $inject found for '" "'.").
  - intros inject i invalidIndexes Hinj Hinvalid.
    unfold parseFactoryInject, parseFactoryInjectionArguments. rewrite Hinj.
    destruct (fold_injectionRequestStep_all inject) as (injectionRequests & -> & _).
    rewrite Hinvalid. cbn [mbind M_bind bind throw templateError tryCatch addToStack
      message]. unfold replaceFirst.
    by rewrite (replaceFrom_template itemName
                  "FactoryDI Inject Error: Invalid $inject found for '"
                  ("' on indexes: " +:+ joinIndexes (i :: invalidIndexes) +:+ ".")).
  - intros Hinj Hp.
    unfold parseFactoryInject, parseFactoryPlaceholderArguments,
      getFactoryPlaceholderOptions.
    rewrite Hinj, Hp. cbn [mbind M_bind bind throw templateError tryCatch addToStack
      message]. unfold replaceFirst.
    by rewrite (replaceFrom_template itemName
                  "FactoryDI Inject Error: Non-array value of $placeholders found for '"
                  "'.").
Qed.

Lemma template_errors_name_the_item_witness :
  parseFactoryInject
    (userFunction 10 "function f(a, b, c, d) {}"
       (InjectList [SpecString "a?"; SpecOther; SpecString "b()"; SpecString "?"])
       false)
    "f" []
  = throw (buildErrorWithStack
             "FactoryDI Inject Error: Invalid $inject found for 'f' on indexes: 1, 3."
             [] false).
Proof.
  apply (proj1 (proj2 (template_errors_name_the_item
                         (userFunction 10 "function f(a, b, c, d) {}"
                            (InjectList [SpecString "a?"; SpecOther; SpecString "b()";
                                         SpecString "?"]) false)
                         "f" [] eq_refl))
           [SpecString "a?"; SpecOther; SpecString "b()"; SpecString "?"] 1 [3]);
    reflexivity.
Defined.

(** ** Singletons asked for as factories *)

(** X20.  Asking for the factory of a singleton does not defer its
    construction: when [resolve] returns [v] for an item whose factory is a
    singleton and for which the resolver's test of the cache fails, the same [resolve] with [asFactory] runs the same bodies,
    leaves the same state, in which the instance is cached, and returns a
    factory that yields [v], running nothing, whatever arguments it is run
    with. *)
Theorem asFactory_builds_the_singleton body st itemName f resolveArgs evs v st1 :
  itemName ≠ "" → hasSingleton st itemName = false →
  registered st !! itemName = Some f → _singleton f = true →
  resolve body st (VStr itemName) resolveArgs false = ((evs, Ok v), st1) →
  resolve body st (VStr itemName) resolveArgs true
  = ((evs, Ok (VFun (resolveSingletonAsFactory st1 itemName))), st1)
  ∧ ∀ resolveArgs' itemName' resolveHistory,
      runFactory body (resolveSingletonAsFactory st1 itemName) resolveArgs' itemName'
        resolveHistory = ret v.
Proof.
  intros Hne Hc Hreg Hs. unfold resolve.
  rewrite checkItemName_string by done. unfold ret.
  destruct (resolveFactory body (resolveFuel st) st itemName resolveArgs None None)
    as [evs' [r| |]] eqn:Hres; [|discriminate..].
  destruct (resolveFactory_singleton_result _ _ _ _ _ _ _ _ _ _ Hc Hreg Hs Hres)
    as (inst & Hinst & Hwrap).
  rewrite Hwrap, runFactory_singleton. unfold jsLookup. rewrite Hinst.
  cbn [events result ret mret M_ret fst snd default from_option Datatypes.id].
  intros [= <- <- <-]. split; [reflexivity|].
  intros. rewrite runFactory_singleton. unfold jsLookup. by rewrite Hinst.
Qed.

Lemma asFactory_builds_the_singleton_witness :
  resolve exampleBody (registerIn getDiInstance "db" (VFun dbFactory)) (VStr "db")
    None true
  = (([Invoked (UserFn 3 "function dbFactory() { return {connected: true}; }")],
      Ok (VFun (resolveSingletonAsFactory
                  (withSingleton (registerIn getDiInstance "db" (VFun dbFactory)) "db"
                     (exampleBody 3 []))
                  "db"))),
     withSingleton (registerIn getDiInstance "db" (VFun dbFactory)) "db"
       (exampleBody 3 [])).
Proof.
  apply (asFactory_builds_the_singleton exampleBody
           (registerIn getDiInstance "db" (VFun dbFactory)) "db"
           (set_inject (InjectList []) dbFactory) None
           [Invoked (UserFn 3 "function dbFactory() { return {connected: true}; }")]
           (exampleBody 3 [])
           (withSingleton (registerIn getDiInstance "db" (VFun dbFactory)) "db"
              (exampleBody 3 [])));
    try discriminate; vm_compute; reflexivity.
Defined.

(** ** Default values and trailing commas *)

Lemma matchFunctionArguments_signature head arguments rest :
  allChars (λ a, negb (Ascii.eqb a "("%char)) head = true →
  allChars (λ a, negb (Ascii.eqb a ")"%char)) arguments = true →
  matchFunctionArguments ("function" +:+ head +:+ "(" +:+ arguments +:+ ")" +:+ rest)
  = Some arguments.
Proof.
  intros Hhead Harguments. unfold matchFunctionArguments.
  rewrite dropPrefix_app.
  change ("(" +:+ arguments +:+ ")" +:+ rest)
    with (String "("%char (arguments +:+ String ")"%char rest)).
  rewrite spanUntil_app by done. simpl.
  by rewrite spanUntil_app.
Qed.

Lemma join_cons2 sep x y rest :
  join sep (x :: y :: rest) = x +:+ sep +:+ join sep (y :: rest).
Proof. reflexivity. Qed.

Lemma allChars_join p sep pieces :
  allChars p sep = true → forallb (allChars p) pieces = true →
  allChars p (join sep pieces) = true.
Proof.
  intros Hsep. induction pieces as [|x [|y rest] IH]; [done|..].
  - cbn [forallb join]. by intros [Hx _]%andb_true_iff.
  - intros [Hx Hrest]%andb_true_iff.
    rewrite join_cons2, !allChars_app, Hx, Hsep. by apply IH.
Qed.

Lemma allChars_filterChars p keep s :
  allChars p s = true → allChars p (filterChars keep s) = true.
Proof.
  induction s as [|a s IH]; cbn [allChars filterChars]; [done|].
  intros [Ha Hs]%andb_true_iff. destruct (keep a); cbn [allChars]; rewrite ?Ha; auto.
Qed.

Lemma filterChars_join pieces :
  filterChars (λ a, negb (isWhitespace a)) (join ", " pieces)
  = join "," (filterChars (λ a, negb (isWhitespace a)) <$> pieces).
Proof.
  induction pieces as [|x [|y rest] IH]; [done..|].
  rewrite join_cons2, !filterChars_app, IH. reflexivity.
Qed.

Lemma split_join_app c pieces s2 :
  pieces ≠ [] →
  forallb (allChars (λ a, negb (Ascii.eqb a c))) pieces = true →
  split c (join (String c "") pieces +:+ String c s2) = pieces ++ split c s2.
Proof.
  induction pieces as [|x [|y rest] IH]; [done|..]; intros _.
  - cbn [forallb join]. intros [Hx _]%andb_true_iff. by apply split_app.
  - intros [Hx Hrest]%andb_true_iff.
    rewrite join_cons2, !append_assoc.
    change (String c "" +:+ join (String c "") (y :: rest) +:+ String c s2)
      with (String c (join (String c "") (y :: rest) +:+ String c s2)).
    rewrite split_app by done. by rewrite IH.
Qed.

Lemma split_join c pieces :
  pieces ≠ [] →
  forallb (allChars (λ a, negb (Ascii.eqb a c))) pieces = true →
  split c (join (String c "") pieces) = pieces.
Proof.
  induction pieces as [|x [|y rest] IH]; [done|..]; intros _.
  - cbn [forallb join]. intros [Hx _]%andb_true_iff. by apply split_no_separator.
  - intros [Hx Hrest]%andb_true_iff.
    rewrite join_cons2.
    change (x +:+ String c "" +:+ join (String c "") (y :: rest))
      with (x +:+ String c (join (String c "") (y :: rest))).
    rewrite split_app by done. by rewrite IH.
Qed.

Lemma contains_char_app c s t : contains (String c "") (s +:+ String c t) = true.
Proof.
  induction s as [|a s IH].
  - change ("" +:+ String c t) with (String c t). cbn [contains dropPrefix].
    by rewrite Ascii.eqb_refl.
  - rewrite append_cons. cbn [contains dropPrefix].
    destruct (Ascii.eqb c a); [reflexivity|exact IH].
Qed.

Lemma append_nonempty s t : s ≠ "" → s +:+ t ≠ "".
Proof. by destruct s. Qed.

Lemma join_nonempty sep x pieces : x ≠ "" → join sep (x :: pieces) ≠ "".
Proof. intros Hx. destruct pieces; [done|]. rewrite join_cons2. by apply append_nonempty. Qed.

Lemma isPlainName_nonempty p : isPlainName p = true → p ≠ "".
Proof. intros [Hp _]%andb_true_iff. by apply negb_true_iff, String.eqb_neq in Hp. Qed.

(** A formal parameter once the white space is removed. *)
Lemma cleaned_renderParameter parameter :
  isParameter parameter = true →
  filterChars (λ a, negb (isWhitespace a)) (renderParameter parameter)
  = match snd parameter with
    | None => fst parameter
    | Some defaultValue =>
        fst parameter
        +:+ String "="%char (filterChars (λ a, negb (isWhitespace a)) defaultValue)
    end.
Proof.
  destruct parameter as [p [defaultValue|]]; unfold isParameter, renderParameter;
    cbn [fst snd from_option]; intros [Hp Hd]%andb_true_iff.
  - rewrite filterChars_app, (filterChars_all _ p (isPlainName_not_whitespace p Hp)).
    reflexivity.
  - by apply filterChars_all, isPlainName_not_whitespace.
Qed.

Lemma cleaned_renderParameter_chars c parameter :
  isNameChar c = false → Ascii.eqb "="%char c = false →
  isParameter parameter = true →
  from_option (allChars (λ a, negb (Ascii.eqb a c))) true (snd parameter) = true →
  allChars (λ a, negb (Ascii.eqb a c))
    (filterChars (λ a, negb (isWhitespace a)) (renderParameter parameter)) = true.
Proof.
  intros Hc Heq Hparameter Hd. rewrite cleaned_renderParameter by done.
  destruct parameter as [p [defaultValue|]]; unfold isParameter in Hparameter;
    cbn [fst snd from_option] in *; apply andb_true_iff in Hparameter as [Hp _].
  - rewrite allChars_app, (isPlainName_chars c p Hc Hp). cbn [allChars].
    rewrite Heq. cbn [negb andb]. by apply allChars_filterChars.
  - by apply isPlainName_chars.
Qed.

Lemma placeholderArgumentStep_parameter placeholderArgs final parameter :
  isParameter parameter = true →
  placeholderArgumentStep PLACEHOLDER_TYPE_ALL placeholderArgs final
    (filterChars (λ a, negb (isWhitespace a)) (renderParameter parameter))
  = final ++ [defaultedRequest parameter].
Proof.
  intros Hparameter. rewrite cleaned_renderParameter by done.
  destruct parameter as [p [defaultValue|]]; unfold isParameter in Hparameter;
    cbn [fst snd from_option] in *; apply andb_true_iff in Hparameter as [Hp _];
    unfold placeholderArgumentStep, defaultedRequest; cbn [fst snd].
  - rewrite (proj2 (String.eqb_neq _ _)
               (append_nonempty p _ (isPlainName_nonempty p Hp))).
    rewrite contains_char_app, spanUntil_app by by apply isPlainName_chars.
    reflexivity.
  - destruct (isPlainName_no_default p Hp) as [-> ->]. reflexivity.
Qed.

(** X21.  A factory with no [$inject] whose formal parameters are plain
    names, some with a default value that holds no comma and no closing
    parenthesis: every formal parameter becomes a placeholder under its name,
    in the order of the signature, and the ones with a default value are
    optional. *)
Theorem default_values_make_optional_placeholders factory itemName registerHistory
    head parameters rest :
  _inject factory = InjectUnset →
  functionToString factory = signatureWithDefaults head parameters rest →
  allChars (λ a, negb (Ascii.eqb a "("%char)) head = true →
  forallb isParameter parameters = true →
  parseFactoryInject factory itemName registerHistory
  = ret (defaultedRequest <$> parameters).
Proof.
  intros Hinj Hsrc Hhead Hparameters.
  assert (∀ c, isNameChar c = false → Ascii.eqb "="%char c = false →
            (∀ parameter, isParameter parameter = true →
               from_option (allChars (λ a, negb (Ascii.eqb a c))) true (snd parameter)
               = true) →
            forallb (allChars (λ a, negb (Ascii.eqb a c)))
              (filterChars (λ a, negb (isWhitespace a))
                 <$> (renderParameter <$> parameters)) = true) as Hchars.
  { intros c Hc Heq Hd. clear Hsrc. induction parameters as [|parameter parameters IH];
      [done|].
    apply andb_true_iff in Hparameters as [Hparameter Hparameters].
    cbn [fmap list_fmap forallb]. apply andb_true_iff. split; [|by apply IH].
    by apply cleaned_renderParameter_chars; auto. }
  unfold parseFactoryInject, parseFactoryPlaceholderArguments. rewrite Hinj.
  rewrite mbind_unfold, bind_ret_l, Hsrc. unfold signatureWithDefaults.
  rewrite matchFunctionArguments_signature; [|done|].
  2: { apply allChars_join; [reflexivity|]. clear Hsrc Hchars.
       induction parameters as [|[p d] parameters IH]; [done|].
       apply andb_true_iff in Hparameters as [Hparameter Hparameters].
       cbn [fmap list_fmap forallb]. apply andb_true_iff. split; [|by apply IH].
       unfold isParameter in Hparameter. cbn [fst snd] in Hparameter.
       apply andb_true_iff in Hparameter as [Hp Hd].
       destruct d as [defaultValue|]; unfold renderParameter; cbn [fst snd].
       - apply andb_true_iff in Hd as [_ Hd].
         rewrite !allChars_app, (isPlainName_chars ")"%char p eq_refl Hp), Hd.
         reflexivity.
       - by apply isPlainName_chars. }
  destruct parameters as [|parameter parameters]; [reflexivity|].
  pose proof Hparameters as [Hparameter _]%andb_true_iff.
  assert (renderParameter parameter ≠ "") as Hne.
  { unfold isParameter in Hparameter. apply andb_true_iff in Hparameter as [Hp _].
    apply isPlainName_nonempty in Hp. unfold renderParameter.
    destruct (snd parameter); [by apply append_nonempty|done]. }
  cbn [fmap list_fmap].
  change (list_fmap _ _ renderParameter parameters)
    with (renderParameter <$> parameters).
  rewrite (proj2 (String.eqb_neq _ _) (join_nonempty ", " _ _ Hne)).
  change (renderParameter parameter :: (renderParameter <$> parameters))
    with (renderParameter <$> parameter :: parameters).
  rewrite filterChars_join.
  assert (filterChars (λ a, negb (isWhitespace a)) (renderParameter parameter) ≠ "")
    as Hne'.
  { rewrite cleaned_renderParameter by done.
    unfold isParameter in Hparameter. apply andb_true_iff in Hparameter as [Hp _].
    apply isPlainName_nonempty in Hp.
    destruct (snd parameter); [by apply append_nonempty|done]. }
  cbn [fmap list_fmap] in *.
  rewrite (proj2 (String.eqb_neq _ _) (join_nonempty "," _ _ Hne')).
  assert (∀ l final,
            forallb isParameter l = true →
            fold_left (placeholderArgumentStep PLACEHOLDER_TYPE_ALL ∅)
              (filterChars (λ a, negb (isWhitespace a)) <$> (renderParameter <$> l))
              final
            = final ++ (defaultedRequest <$> l)) as Hfold.
  { clear. induction l as [|parameter l IH]; intros final Hl.
    { by rewrite app_nil_r. }
    apply andb_true_iff in Hl as [Hparameter Hl].
    cbn [fmap list_fmap fold_left].
    rewrite placeholderArgumentStep_parameter by done.
    change (list_fmap _ _ (filterChars (λ a, negb (isWhitespace a)))
              (list_fmap _ _ renderParameter l))
      with (filterChars (λ a, negb (isWhitespace a)) <$> (renderParameter <$> l)).
    rewrite (IH _ Hl), <- app_assoc. reflexivity. }
  specialize (Hfold (parameter :: parameters) [] Hparameters).
  specialize (Hchars ","%char eq_refl eq_refl).
  cbn [fmap list_fmap app] in Hfold, Hchars.
  rewrite (split_join ","%char); [by rewrite Hfold|done|].
  apply Hchars. intros [p d] Hp. unfold isParameter in Hp. cbn [fst snd] in *.
  apply andb_true_iff in Hp as [_ Hd]. destruct d; [|done].
  cbn [from_option] in *. by apply andb_true_iff in Hd as [Hd _].
Qed.

Lemma default_values_make_optional_placeholders_witness :
  parseFactoryInject
    (userFunction 16 "function connect(host, port = 8080) {}" InjectUnset false)
    "connect" []
  = ret [ placeholderRequest "host";
          {| name := "port"; isOptional := true; asFactory := false;
             isPlaceholder := true |} ].
Proof.
  apply (default_values_make_optional_placeholders
           (userFunction 16 "function connect(host, port = 8080) {}" InjectUnset false)
           "connect" [] " connect" [("host", None); ("port", Some "8080")] " {}");
    reflexivity.
Defined.

Lemma join_plain_split_length_app params s2 :
  params ≠ [] → forallb isPlainName params = true →
  length (split ","%char (join ", " params +:+ String ","%char s2))
  = length params + length (split ","%char s2).
Proof.
  induction params as [|p [|q rest] IH]; [done|..]; intros _.
  - cbn [forallb join]. intros [Hp _]%andb_true_iff.
    by rewrite split_app by by apply isPlainName_chars.
  - intros [Hp Hrest]%andb_true_iff.
    rewrite join_cons2, !append_assoc.
    change (", " +:+ join ", " (q :: rest) +:+ String ","%char s2)
      with (String ","%char
              (String " "%char (join ", " (q :: rest) +:+ String ","%char s2))).
    rewrite split_app by by apply isPlainName_chars.
    cbn [length]. rewrite split_cons_length by reflexivity. by rewrite IH.
Qed.

(** X22.  A signature with a comma after its last formal parameter.  When
    the parameters are inferred the empty piece after the comma is skipped and
    the requests are those of the signature without the comma.  With an
    explicit [$inject] list the count read off the signature includes the
    empty piece, so a list with one request for each formal parameter is
    refused with the count-mismatch error. *)
Theorem trailing_comma_is_counted factory itemName registerHistory head params rest :
  functionToString factory = trailingCommaSignature head params rest →
  allChars (λ a, negb (Ascii.eqb a "("%char)) head = true →
  params ≠ [] → forallb isPlainName params = true →
  (_inject factory = InjectUnset →
   parseFactoryInject factory itemName registerHistory
   = ret (placeholderRequest <$> params))
  ∧ (∀ inject injectionArgs,
       _inject factory = InjectList inject →
       parseFactoryInjectionArguments factory = ret injectionArgs →
       length injectionArgs = length params →
       parseFactoryInject factory itemName registerHistory
       = throw (buildErrorWithStack
                  (countMismatchMessage itemName (length params) (S (length params)))
                  (addToHistory [] itemName (Some factory)) true)).
Proof.
  intros Hsrc Hhead Hne Hparams.
  assert (matchFunctionArguments (functionToString factory)
          = Some (join ", " params +:+ ",")) as Hmatch.
  { rewrite Hsrc. unfold trailingCommaSignature.
    apply matchFunctionArguments_signature; [done|].
    rewrite allChars_app. by rewrite join_plain_chars. }
  destruct params as [|p params]; [done|].
  pose proof Hparams as [Hp _]%andb_true_iff.
  assert (String.eqb (join ", " (p :: params) +:+ ",") "" = false) as Hnonempty.
  { apply String.eqb_neq, append_nonempty. by apply join_plain_nonempty. }
  split.
  - intros Hinj. unfold parseFactoryInject, parseFactoryPlaceholderArguments.
    rewrite Hinj, mbind_unfold, bind_ret_l, Hmatch, Hnonempty.
    rewrite filterChars_app, cleanedArguments_plain by done.
    change (filterChars (λ a, negb (isWhitespace a)) ",") with ",".
    rewrite (proj2 (String.eqb_neq _ _)
               (append_nonempty _ "," (join_comma_nonempty p params Hp))).
    rewrite (split_join_app ","%char (p :: params) "") by
      first [done | clear -Hparams; induction (p :: params) as [|q l IH]; [done|];
             apply andb_true_iff in Hparams as [Hq Hl]; cbn [forallb];
             by rewrite (isPlainName_chars ","%char q eq_refl Hq), IH].
    cbn [split]. rewrite fold_left_app.
    rewrite (fold_placeholderArgumentStep _ _ placeholderRequest (p :: params));
      [|..|done].
    + reflexivity.
    + intros final q _ [Hq Heq]%isPlainName_no_default.
      unfold placeholderArgumentStep. by rewrite Hq, Heq.
  - intros inject injectionArgs Hinj Hparse Hlen. unfold parseFactoryInject.
    rewrite Hinj, Hparse, mbind_unfold, bind_ret_l.
    unfold validateFunctionArgumentCount, expectedArgsCount.
    rewrite Hmatch, Hnonempty.
    rewrite (join_plain_split_length_app (p :: params) "") by done.
    cbn [split length]. rewrite Hlen, Nat.add_1_r. cbn [length].
    rewrite (nat_eqb_false (S (length params)) (S (S (length params)))) by lia.
    reflexivity.
Qed.

Lemma trailing_comma_is_counted_witness :
  parseFactoryInject
    (userFunction 17 "function pair(left, right,) {}"
       (InjectList [SpecString "left"; SpecString "right"]) false)
    "pair" []
  = throw (buildErrorWithStack (countMismatchMessage "pair" 2 3)
             (addToHistory [] "pair"
                (Some (userFunction 17 "function pair(left, right,) {}"
                         (InjectList [SpecString "left"; SpecString "right"]) false)))
             true).
Proof.
  apply (proj2 (trailing_comma_is_counted
                  (userFunction 17 "function pair(left, right,) {}"
                     (InjectList [SpecString "left"; SpecString "right"]) false)
                  "pair" [] " pair" ["left"; "right"] " {}"
                  eq_refl eq_refl ltac:(discriminate) eq_refl)
           [SpecString "left"; SpecString "right"]
           [request "left"; request "right"]);
    reflexivity.
Defined.
